(** * reason: a REST resource framework (package [reason])

    A shallow embedding of the form decoder ([getSchemaFields] with its
    field cache, and [parseForm]), of [resource.go] (the capability
    interfaces and the not-found sentinel) and of [server.go] (route
    registration, request dispatch and the response writers), followed by
    the properties established about them.

    Conventions.  Go strings are byte strings and are modelled by [string].
    Machine integers are modelled by [Z] with the wrap-around written out.
    A Go panic is an explicit outcome.  Everything the package does to the
    outside world (the response writer, the log, the calls into the resource
    handler, the writes to the field cache) is recorded in a [World] that
    the request pipeline threads through a small state-and-panic monad. *)

From Stdlib Require Import ZArith String Ascii List Lia.
From stdpp Require Import base tactics option list strings gmap pretty.

Local Open Scope string_scope.
Local Open Scope list_scope.
Local Open Scope Z_scope.

(** ** Package [reflect]: kinds, struct types, values *)

Module reflect.

(** [reflect.Kind]. *)
Inductive Kind :=
| Invalid | Bool
| Int | Int8 | Int16 | Int32 | Int64
| Uint | Uint8 | Uint16 | Uint32 | Uint64 | Uintptr
| Float32 | Float64 | Complex64 | Complex128
| Array | Chan | Func | Interface | Map | Pointer | Slice
| String | Struct | UnsafePointer.

#[global] Instance Kind_eq_dec : EqDecision Kind.
Proof. solve_decision. Defined.

(** The type of a struct field, as far as the decoder looks at it: its
    name and its kind. *)
Record FieldType := { ft_name : string; ft_kind : Kind }.

#[global] Instance FieldType_eq_dec : EqDecision FieldType.
Proof. solve_decision. Defined.

(** A field declaration of a struct type.  [PkgPath] is empty exactly for
    exported fields; [Tag] is the parsed struct tag, a list of key/value
    pairs. *)
Record FieldDecl := {
  Name : string;
  PkgPath : string;
  Typ : FieldType;
  Tag : list (string * string)
}.

#[global] Instance FieldDecl_eq_dec : EqDecision FieldDecl.
Proof. solve_decision. Defined.

Record StructType := { st_name : string; st_fields : list FieldDecl }.

#[global] Instance StructType_eq_dec : EqDecision StructType.
Proof. solve_decision. Defined.

(** [reflect.Type]: the nil type (of a nil interface), a struct type, or
    any other type, of which only the kind matters here. *)
Inductive Type_ :=
| TNil
| TStruct (st : StructType)
| TOther (ft : FieldType).

#[global] Instance Type_eq_dec : EqDecision Type_.
Proof. solve_decision. Defined.

(** [StructTag.Get]: the value of the first pair with that key, or the
    empty string. *)
Fixpoint Tag_Get (tag : list (string * string)) (key : string) : string :=
  match tag with
  | [] => ""
  | (k, v) :: rest => if decide (k = key) then v else Tag_Get rest key
  end.

(** What [Type.Field(i)] returns: the declaration and its index path,
    which for a direct field is the one-element path [i]. *)
Record StructField := {
  sf_decl : FieldDecl;
  sf_Index : list nat
}.

Definition exported (d : FieldDecl) : bool := bool_decide (PkgPath d = "").

End reflect.

(** ** Package [strconv] *)

Module strconv.

Inductive ErrKind := ErrSyntax | ErrRange.

#[global] Instance ErrKind_eq_dec : EqDecision ErrKind.
Proof. solve_decision. Defined.

Definition maxUint64 : Z := 2 ^ 64 - 1.

(** Target word size ([strconv.IntSize]): a 64-bit platform. *)
Definition IntSize : Z := 64.

Definition is_digit (c : ascii) : bool :=
  let n := Z.of_nat (nat_of_ascii c) in (48 <=? n) && (n <=? 57).

Definition digit_val (c : ascii) : Z := Z.of_nat (nat_of_ascii c) - 48.

(** The digit loop of [ParseUint(s, 10, 64)]: [cutoff] is the smallest
    number whose tenfold exceeds [maxUint64]; the additions are those of
    [uint64]. *)
Definition cutoff10 : Z := maxUint64 / 10 + 1.

Fixpoint uintLoop (s : string) (n : Z) : Z + ErrKind :=
  match s with
  | EmptyString => inl n
  | String c rest =>
      if negb (is_digit c) then inr ErrSyntax
      else if cutoff10 <=? n then inr ErrRange
      else
        let n10 := (n * 10) mod 2 ^ 64 in
        let n1 := (n10 + digit_val c) mod 2 ^ 64 in
        if (n1 <? n10) || (maxUint64 <? n1) then inr ErrRange
        else uintLoop rest n1
  end.

(** [ParseUint(s, 10, 64)]. *)
Definition ParseUint (s : string) : Z + ErrKind :=
  if decide (s = "") then inr ErrSyntax else uintLoop s 0.

(** [ParseInt(s, 10, 64)]: an optional sign, then the unsigned digits,
    then the range check against [1 << 63]. *)
Definition ParseInt (s : string) : Z + ErrKind :=
  match s with
  | EmptyString => inr ErrSyntax
  | String c rest =>
      let neg := bool_decide (c = "-"%char) in
      let s1 := if bool_decide (c = "+"%char) || neg then rest else s in
      let cutoff := 2 ^ 63 in
      match ParseUint s1 with
      | inr ErrSyntax => inr ErrSyntax
      | inr ErrRange => inr ErrRange
      | inl un =>
          if negb neg && (cutoff <=? un) then inr ErrRange
          else if neg && (cutoff <? un) then inr ErrRange
          else inl (if neg then - un else un)
      end
  end.

End strconv.

(** ** Errors, slices *)

(** A Go [error] value.  [errorString] is the pointer that [errors.New]
    returns: two calls give two distinct pointers, whatever the message, so
    the address is part of the value and [==] compares it.  [NumError] is
    the [*strconv.NumError] that the parsers return; [otherError] stands for
    an error of any other dynamic type. *)
Inductive error :=
| errorString (addr : nat) (msg : string)
| NumError (Func Num : string) (Err : strconv.ErrKind)
| otherError (type_name msg : string).

#[global] Instance error_eq_dec : EqDecision error.
Proof. solve_decision. Defined.

Module errors.
Definition New (addr : nat) (msg : string) : error := errorString addr msg.
End errors.

(** The text of an error ([Error()]), up to the quoting of [Num]. *)
Definition error_text (e : error) : string :=
  match e with
  | errorString _ msg => msg
  | NumError f n strconv.ErrSyntax =>
      "strconv." +:+ f +:+ ": parsing " +:+ n +:+ ": invalid syntax"
  | NumError f n strconv.ErrRange =>
      "strconv." +:+ f +:+ ": parsing " +:+ n +:+ ": value out of range"
  | otherError _ msg => msg
  end.

(** resource.go: [var ErrNotFound = errors.New("Resource not found")].  The
    package-level variable is initialised once; its pointer is address 0. *)
Definition ErrNotFound : error := errors.New 0 "Resource not found".

(** A Go slice is either nil or a (possibly empty) sequence. *)
Inductive slice (A : Type) :=
| nilSlice
| Slice (elems : list A).
Arguments nilSlice {A}.
Arguments Slice {A} elems.

Definition slice_len {A} (s : slice A) : nat :=
  match s with nilSlice => 0%nat | Slice l => length l end.

Definition slice_is_nil {A} (s : slice A) : bool :=
  match s with nilSlice => true | Slice _ => false end.

(** ** Package [net/http]: the parts the server uses *)

Module http.

Definition StatusOK : Z := 200.
Definition StatusCreated : Z := 201.
Definition StatusNotFound : Z := 404.
Definition StatusInternalServerError : Z := 500.

Inductive Method := GET | POST | PUT | DELETE | OtherMethod (name : string).

#[global] Instance Method_eq_dec : EqDecision Method.
Proof. solve_decision. Defined.

(** A request: method, URL path and the parsed form ([url.Values], body
    parameters already merged in front of the query parameters). *)
Record Request := {
  Method_ : Method;
  URLPath : string;
  Form : gmap string (list string)
}.

(** [Request.FormValue]: the first value for the key, or the empty
    string. *)
Definition FormValue (r : Request) (key : string) : string :=
  match Form r !! key with
  | Some (v :: _) => v
  | _ => ""
  end.

(** The response writer: the status line once written, and the body. *)
Record ResponseWriter := {
  status : option Z;
  body : string
}.

Definition newResponse : ResponseWriter := {| status := None; body := "" |}.

(** [WriteHeader]: only the first call counts. *)
Definition WriteHeader (code : Z) (w : ResponseWriter) : ResponseWriter :=
  match status w with
  | None => {| status := Some code; body := body w |}
  | Some _ => w
  end.

(** [Write]: an implicit [WriteHeader(StatusOK)] when no header was
    written, then the bytes. *)
Definition Write (data : string) (w : ResponseWriter) : ResponseWriter :=
  let w1 := WriteHeader StatusOK w in
  {| status := status w1; body := body w1 +:+ data |}.

(** The status the client sees: 200 when the handler wrote nothing. *)
Definition StatusCode (w : ResponseWriter) : Z := default StatusOK (status w).

End http.

(** ** The package itself *)

Section Reason.

(** What the Go runtime and its standard library contribute and the
    package only passes around: the [float64] values with their zero,
    [strconv.ParseFloat(s, 64)], and the conversion through [float32] that
    storing into a 32-bit float field performs. *)
Variable float64 : Type.
Variable float_zero : float64.
Variable ParseFloat : string -> float64 + strconv.ErrKind.
Variable to_float32 : float64 -> float64.

(** *** Values *)

(** The content of one struct field.  [PZero] is the zero value of a
    field whose kind the decoder does not handle; it is never written. *)
Inductive Payload :=
| PBool (b : bool)
| PInt (n : Z)
| PUint (n : Z)
| PFloat (f : float64)
| PString (s : string)
| PZero.

(** An [interface{}] value: nil, a struct value with its type, or a
    value of any other type. *)
Inductive Value :=
| VNil
| VStruct (t : reflect.StructType) (fields : list Payload)
| VOther (ft : reflect.FieldType) (id : nat).

Definition TypeOf (v : Value) : reflect.Type_ :=
  match v with
  | VNil => reflect.TNil
  | VStruct t _ => reflect.TStruct t
  | VOther ft _ => reflect.TOther ft
  end.

(** [Type.NumField] and [Type.Field]: both panic ([None]) on a type that
    is not a struct, and [Field] panics on an index out of range. *)
Definition NumField (t : reflect.Type_) : option nat :=
  match t with
  | reflect.TStruct st => Some (length (reflect.st_fields st))
  | _ => None
  end.

Definition Field (t : reflect.Type_) (i : nat) : option reflect.StructField :=
  match t with
  | reflect.TStruct st =>
      match reflect.st_fields st !! i with
      | Some d => Some {| reflect.sf_decl := d; reflect.sf_Index := [i] |}
      | None => None
      end
  | _ => None
  end.

Definition zero_of (k : reflect.Kind) : Payload :=
  match k with
  | reflect.Bool => PBool false
  | reflect.Int | reflect.Int8 | reflect.Int16 | reflect.Int32 | reflect.Int64 => PInt 0
  | reflect.Uint | reflect.Uint8 | reflect.Uint16 | reflect.Uint32 | reflect.Uint64
  | reflect.Uintptr => PUint 0
  | reflect.Float32 | reflect.Float64 => PFloat float_zero
  | reflect.String => PString ""
  | _ => PZero
  end.

(** [reflect.New(t).Elem()]: a fresh, addressable zero value of [t];
    [reflect.New] panics on the nil type. *)
Definition New_Elem (t : reflect.Type_) : option Value :=
  match t with
  | reflect.TNil => None
  | reflect.TStruct st =>
      Some (VStruct st (map (fun d => zero_of (reflect.ft_kind (reflect.Typ d)))
                            (reflect.st_fields st)))
  | reflect.TOther ft => Some (VOther ft 0)
  end.

(** Conversions to the fixed-width integer types: the low [w] bits, read
    as a two's complement number for the signed types. *)
Definition wrap_unsigned (w : Z) (x : Z) : Z := x mod 2 ^ w.
Definition wrap_signed (w : Z) (x : Z) : Z :=
  (x + 2 ^ (w - 1)) mod 2 ^ w - 2 ^ (w - 1).

(** The setters of [reflect.Value], as functions of the kind of the value
    they are applied to: the payload stored, or a panic ([None]) when the
    kind is not one the setter accepts. *)
Definition SetString (x : string) (k : reflect.Kind) : option Payload :=
  match k with reflect.String => Some (PString x) | _ => None end.

Definition SetInt (x : Z) (k : reflect.Kind) : option Payload :=
  match k with
  | reflect.Int => Some (PInt (wrap_signed strconv.IntSize x))
  | reflect.Int8 => Some (PInt (wrap_signed 8 x))
  | reflect.Int16 => Some (PInt (wrap_signed 16 x))
  | reflect.Int32 => Some (PInt (wrap_signed 32 x))
  | reflect.Int64 => Some (PInt (wrap_signed 64 x))
  | _ => None
  end.

Definition SetUint (x : Z) (k : reflect.Kind) : option Payload :=
  match k with
  | reflect.Uint => Some (PUint (wrap_unsigned strconv.IntSize x))
  | reflect.Uintptr => Some (PUint (wrap_unsigned strconv.IntSize x))
  | reflect.Uint8 => Some (PUint (wrap_unsigned 8 x))
  | reflect.Uint16 => Some (PUint (wrap_unsigned 16 x))
  | reflect.Uint32 => Some (PUint (wrap_unsigned 32 x))
  | reflect.Uint64 => Some (PUint (wrap_unsigned 64 x))
  | _ => None
  end.

Definition SetFloat (x : float64) (k : reflect.Kind) : option Payload :=
  match k with
  | reflect.Float32 => Some (PFloat (to_float32 x))
  | reflect.Float64 => Some (PFloat x)
  | _ => None
  end.

Definition SetBool (x : bool) (k : reflect.Kind) : option Payload :=
  match k with reflect.Bool => Some (PBool x) | _ => None end.

(** [val.FieldByIndex(index).SetX(x)] on the addressable struct [val].
    [FieldByIndex] panics when [val] is not a struct or the index is out
    of range; the field value it returns is read-only when the field is
    not exported, and every setter panics on a read-only value before it
    looks at the kind.  Index paths made by [Type.Field] have one
    element; a longer path would descend into a nested struct, whose
    content is not modelled, and an empty path would apply the setter to
    the struct itself: both are panics here. *)
Definition FieldByIndex_Set (val : Value) (index : list nat)
    (set : reflect.Kind -> option Payload) : option Value :=
  match val, index with
  | VStruct st fs, [i] =>
      match reflect.st_fields st !! i with
      | Some d =>
          if reflect.exported d then
            match set (reflect.ft_kind (reflect.Typ d)) with
            | Some p => Some (VStruct st (<[i := p]> fs))
            | None => None
            end
          else None
      | None => None
      end
  | _, _ => None
  end.

(** *** The form decoder: field descriptors *)

Record formField := {
  name : string;
  typ : reflect.FieldType;
  index : list nat
}.

(** The body of the loop of [getSchemaFields] for one field. *)
Definition describeField (sfield : reflect.StructField) : formField :=
  let d := reflect.sf_decl sfield in
  let tag := reflect.Tag_Get (reflect.Tag d) "json" in
  {| name :=
       if decide (tag <> "") then
         match String.index 0 "," tag with
         | Some idx => String.substring 0 idx tag
         | None => tag
         end
       else reflect.Name d;
     typ := reflect.Typ d;
     index := reflect.sf_Index sfield |}.

(** [for i := 0; i < t.NumField(); i++ { ... fields = append(fields, field) }],
    with [n] the iterations left. *)
Fixpoint describeLoop (t : reflect.Type_) (i n : nat) (fields : list formField)
    : option (list formField) :=
  match n with
  | O => Some fields
  | S n' =>
      match Field t i with
      | Some sfield => describeLoop t (S i) n' (fields ++ [describeField sfield])
      | None => None
      end
  end.

(** The computation of [getSchemaFields] on a cache miss. *)
Definition describeFields (t : reflect.Type_) : option (list formField) :=
  match NumField t with
  | Some n => describeLoop t 0 n []
  | None => None
  end.

(** *** The world a request runs in *)

(** The state of a resource handler is its own business. *)
Variable HSt : Type.

(** What can be observed of a run besides the response: the log lines,
    the stores into the field cache and the calls into the handler. *)
Inductive Event :=
| LogPrintf (format : string) (arg : error)
| CacheStore (t : reflect.Type_)
| CallGetResource (resourceID : string)
| CallListResource
| CallCreateResource (resource : Value)
| CallUpdateResource (resource data : Value)
| CallDeleteResource (resource : Value).

(** [formCache] is [map[reflect.Type][]formField]: reading a missing key
    gives the nil slice, so the map is a total function. *)
Definition Cache := reflect.Type_ -> slice formField.

Definition emptyCache : Cache := fun _ => nilSlice.

Definition cache_store (c : Cache) (t : reflect.Type_) (fields : slice formField) : Cache :=
  fun t' => if decide (t' = t) then fields else c t'.

Record World := {
  formCache : Cache;
  w : http.ResponseWriter;
  hstate : HSt;
  events : list Event
}.

(** A run returns with a new world or panics. *)
Inductive Outcome (A : Type) :=
| Returned (a : A) (σ : World)
| Panicked.
Arguments Returned {A} a σ.
Arguments Panicked {A}.

Definition M (A : Type) := World -> Outcome A.

#[local] Instance M_ret : MRet M := fun A a σ => Returned a σ.
#[local] Instance M_bind : MBind M := fun A B f m σ =>
  match m σ with
  | Returned a σ' => f a σ'
  | Panicked => Panicked
  end.

Definition panic {A} : M A := fun _ => Panicked.

(** A library call that may panic. *)
Definition orPanic {A} (o : option A) : M A :=
  match o with Some a => mret a | None => panic end.

Definition emit (ev : Event) : M unit := fun σ =>
  Returned tt {| formCache := formCache σ; w := w σ; hstate := hstate σ;
                 events := events σ ++ [ev] |}.

Definition log_Printf (format : string) (arg : error) : M unit :=
  emit (LogPrintf format arg).

Definition WriteHeader (code : Z) : M unit := fun σ =>
  Returned tt {| formCache := formCache σ; w := http.WriteHeader code (w σ);
                 hstate := hstate σ; events := events σ |}.

Definition Write (data : string) : M unit := fun σ =>
  Returned tt {| formCache := formCache σ; w := http.Write data (w σ);
                 hstate := hstate σ; events := events σ |}.

(** The two critical sections of the cache: the read under [RLock] and
    the store under [Lock]. *)
Definition cacheRead (t : reflect.Type_) : M (slice formField) := fun σ =>
  Returned (formCache σ t) σ.

Definition cacheWrite (t : reflect.Type_) (fields : slice formField) : M unit := fun σ =>
  Returned tt {| formCache := cache_store (formCache σ) t fields; w := w σ;
                 hstate := hstate σ; events := events σ ++ [CacheStore t] |}.

(** *** The form decoder: [getSchemaFields] and [parseForm] *)

Definition getSchemaFields (t : reflect.Type_) : M (slice formField * option error) :=
  fields ← cacheRead t;
  if negb (slice_is_nil fields) then mret (fields, None)
  else
    fields ← orPanic (describeFields t);
    cacheWrite t (Slice fields);;
    mret (Slice fields, None).

(** How one iteration of the decoding loop ends: it goes on with the
    instance as updated, it returns an error from [parseForm], or it
    panics. *)
Inductive Flow :=
| Next (val : Value)
| ReturnErr (err : error)
| Panic.

Definition setField (val : Value) (field : formField)
    (set : reflect.Kind -> option Payload) : Flow :=
  match FieldByIndex_Set val (index field) set with
  | Some val' => Next val'
  | None => Panic
  end.

(** The body of [for _, field := range fields]. *)
Definition decodeField (r : http.Request) (val : Value) (field : formField) : Flow :=
  let formval := http.FormValue r (name field) in
  if decide (formval <> "") then
    match reflect.ft_kind (typ field) with
    | reflect.String => setField val field (SetString formval)
    | reflect.Int | reflect.Int8 | reflect.Int16 | reflect.Int32 | reflect.Int64 =>
        match strconv.ParseInt formval with
        | inr err => ReturnErr (NumError "ParseInt" formval err)
        | inl intval => setField val field (SetInt intval)
        end
    | reflect.Uint | reflect.Uint8 | reflect.Uint16 | reflect.Uint32 | reflect.Uint64 =>
        match strconv.ParseUint formval with
        | inr err => ReturnErr (NumError "ParseUint" formval err)
        | inl uintval => setField val field (SetUint uintval)
        end
    | reflect.Float32 | reflect.Float64 =>
        match ParseFloat formval with
        | inr err => ReturnErr (NumError "ParseFloat" formval err)
        | inl floatval => setField val field (SetFloat floatval)
        end
    | reflect.Bool =>
        let boolval := bool_decide (formval = "true") || bool_decide (formval = "1") in
        setField val field (SetBool boolval)
    | _ => Next val
    end
  else Next val.

Fixpoint decodeFields (r : http.Request) (fields : list formField) (val : Value) : Flow :=
  match fields with
  | [] => Next val
  | field :: rest =>
      match decodeField r val field with
      | Next val' => decodeFields r rest val'
      | ReturnErr err => ReturnErr err
      | Panic => Panic
      end
  end.

Definition slice_elems {A} (s : slice A) : list A :=
  match s with nilSlice => [] | Slice l => l end.

Definition parseForm (r : http.Request) (schema : Value) : M (Value * option error) :=
  let t := TypeOf schema in
  '(fields, err) ← getSchemaFields t;
  match err with
  | Some e => mret (VNil, Some e)
  | None =>
      val ← orPanic (New_Elem t);
      match decodeFields r (slice_elems fields) val with
      | Next val' => mret (val', None)
      | ReturnErr e => mret (VNil, Some e)
      | Panic => panic
      end
  end.

(** *** resource.go: the capability interfaces *)

(** A method of a handler: it sees and may change the handler's state. *)
Definition H (A : Type) := HSt -> A * HSt.

Record Getter := { GetResource : string -> H (Value * option error) }.
Record Lister := { ListResource : H (slice Value * option error) }.
Record Creator := { CreateResource : Value -> H (Value * option error) }.
Record Updater := {
  Updater_Getter : Getter;
  UpdateResource : Value -> Value -> H (Value * option error)
}.
Record Deleter := {
  Deleter_Getter : Getter;
  DeleteResource : Value -> H (option error)
}.

(** A value of interface type [ResourceHandler]: [Path], and whichever of
    the five methods its dynamic type happens to have. *)
Record ResourceHandler := {
  Path : string;
  has_GetResource : option (string -> H (Value * option error));
  has_ListResource : option (H (slice Value * option error));
  has_CreateResource : option (Value -> H (Value * option error));
  has_UpdateResource : option (Value -> Value -> H (Value * option error));
  has_DeleteResource : option (Value -> H (option error))
}.

(** The type assertions [handler.(Getter)], ..., [handler.(Deleter)]:
    they succeed when the method set covers the interface, and [Updater]
    and [Deleter] embed [Getter]. *)
Definition asGetter (handler : ResourceHandler) : option Getter :=
  match has_GetResource handler with
  | Some g => Some {| GetResource := g |}
  | None => None
  end.

Definition asLister (handler : ResourceHandler) : option Lister :=
  match has_ListResource handler with
  | Some l => Some {| ListResource := l |}
  | None => None
  end.

Definition asCreator (handler : ResourceHandler) : option Creator :=
  match has_CreateResource handler with
  | Some c => Some {| CreateResource := c |}
  | None => None
  end.

Definition asUpdater (handler : ResourceHandler) : option Updater :=
  match asGetter handler, has_UpdateResource handler with
  | Some g, Some u => Some {| Updater_Getter := g; UpdateResource := u |}
  | _, _ => None
  end.

Definition asDeleter (handler : ResourceHandler) : option Deleter :=
  match asGetter handler, has_DeleteResource handler with
  | Some g, Some d => Some {| Deleter_Getter := g; DeleteResource := d |}
  | _, _ => None
  end.

(** A call into the handler, recorded in the world. *)
Definition call {A} (ev : Event) (m : H A) : M A := fun σ =>
  let (a, h') := m (hstate σ) in
  Returned a {| formCache := formCache σ; w := w σ; hstate := h';
                events := events σ ++ [ev] |}.

(** *** Package [encoding/json] *)

(** [json.Marshal] of one resource is the library's business. *)
Variable json_Marshal : Value -> string + error.

Fixpoint marshalElems (l : list Value) : list string + error :=
  match l with
  | [] => inl []
  | v :: rest =>
      match json_Marshal v with
      | inr err => inr err
      | inl out =>
          match marshalElems rest with
          | inr err => inr err
          | inl outs => inl (out :: outs)
          end
      end
  end.

Fixpoint joinComma (l : list string) : string :=
  match l with
  | [] => ""
  | [x] => x
  | x :: rest => x +:+ "," +:+ joinComma rest
  end.

(** [json.Marshal] of a [[]interface{}]: a nil slice encodes as [null],
    any other slice as the array of the encodings of its elements, in
    order; the first element that fails to encode fails the whole. *)
Definition json_Marshal_list (list_ : slice Value) : string + error :=
  match list_ with
  | nilSlice => inl "null"
  | Slice vs =>
      match marshalElems vs with
      | inr err => inr err
      | inl outs => inl ("[" +:+ joinComma outs +:+ "]")
      end
  end.

(** *** server.go: the writers *)

(** [err == ErrNotFound] compares the two interface values; a nil [err]
    takes neither branch. *)
Definition writeError (err : option error) : M unit :=
  match err with
  | Some e =>
      if decide (e = ErrNotFound) then WriteHeader http.StatusNotFound
      else
        log_Printf "Unhandled error: %v" e;;
        WriteHeader http.StatusInternalServerError
  | None => mret tt
  end.

Definition writeResource (status : Z) (res : Value) : M unit :=
  match json_Marshal res with
  | inr err =>
      log_Printf "Failed to marshal resource to JSON: %v" err;;
      WriteHeader http.StatusInternalServerError
  | inl out =>
      WriteHeader status;;
      Write out
  end.

Definition writeResourceList (status : Z) (list_ : slice Value) : M unit :=
  match json_Marshal_list list_ with
  | inr err =>
      log_Printf "Failed to marshal resource to JSON: %v" err;;
      WriteHeader http.StatusInternalServerError
  | inl out =>
      WriteHeader status;;
      Write out
  end.

(** *** server.go: the five requests *)

Definition getRequest (id : string) (getter : Getter) : M unit :=
  '(res, err) ← call (CallGetResource id) (GetResource getter id);
  match err with
  | Some _ => writeError err
  | None => writeResource http.StatusOK res
  end.

Definition listRequest (lister : Lister) : M unit :=
  '(list_, err) ← call CallListResource (ListResource lister);
  match err with
  | Some _ => writeError err
  | None => writeResourceList http.StatusOK list_
  end.

Definition createRequest (creator : Creator) (data : Value) : M unit :=
  '(response, err) ← call (CallCreateResource data) (CreateResource creator data);
  match err with
  | Some _ => writeError err
  | None => writeResource http.StatusCreated response
  end.

Definition updateRequest (id : string) (updater : Updater) (data : Value) : M unit :=
  '(res, err) ← call (CallGetResource id) (GetResource (Updater_Getter updater) id);
  match err with
  | Some _ => writeError err
  | None =>
      '(response, err) ← call (CallUpdateResource res data)
                              (UpdateResource updater res data);
      match err with
      | Some _ => writeError err
      | None => writeResource http.StatusOK response
      end
  end.

Definition deleteRequest (id : string) (deleter : Deleter) : M unit :=
  '(res, err) ← call (CallGetResource id) (GetResource (Deleter_Getter deleter) id);
  match err with
  | Some _ => writeError err
  | None =>
      err ← call (CallDeleteResource res) (DeleteResource deleter res);
      match err with
      | Some _ => writeError err
      | None => WriteHeader http.StatusOK
      end
  end.

(** *** Package [httprouter]

    The router is a library; what the server relies on is modelled: a
    table of routes keyed by method and pattern, a registration that the
    router either accepts or refuses with a panic, the resolution of a
    request path against the patterns (literal segments, and [:name]
    segments that take one non-empty path segment), the redirect to the
    same path with the trailing slash toggled, the 405 answer when only
    another method has the path, and the [NotFound] handler otherwise.
    Left out of the resolution: a wildcard that starts inside a segment,
    the catch-all [*name], the answer of the router to OPTIONS, the
    redirect to the cleaned or case-corrected path, and the headers and
    body of the router's own redirect and 405 answers. *)

Definition newline : string := String (ascii_of_nat 10) "".

Definition Params := list (string * string).

Fixpoint ByName (ps : Params) (key : string) : string :=
  match ps with
  | [] => ""
  | (k, v) :: rest => if decide (k = key) then v else ByName rest key
  end.

Definition Handle := http.Request -> Params -> M unit.

Record Route := {
  method : http.Method;
  pattern : string;
  handle : Handle
}.

Record Router := {
  routes : list Route;
  NotFound : option (http.Request -> M unit)
}.

Definition httprouter_New : Router := {| routes := []; NotFound := None |}.

Definition routeKey (rt : Route) : http.Method * string := (method rt, pattern rt).

(** [Router.Handle] panics when it refuses a registration: a handle is
    registered already for the method and path, a wildcard of the path
    clashes with the routes the method has, or the path is ill-formed.
    Which registrations it refuses is the library's business:
    [refuses registered m path] is its verdict on the method [m] and the
    pattern [path] for a router on which the methods and patterns
    [registered] were registered, in this order, and none refused. *)
Variable refuses : list (http.Method * string) -> http.Method -> string -> bool.

(** [None] is the panic. *)
Definition Router_Handle (rt : Router) (m : http.Method) (path : string) (h : Handle)
    : option Router :=
  if refuses (routeKey <$> routes rt) m path then None
  else Some {| routes := routes rt ++ [{| method := m; pattern := path; handle := h |}];
               NotFound := NotFound rt |}.

Fixpoint splitSlash (s : string) (cur : string) : list string :=
  match s with
  | EmptyString => [cur]
  | String c rest =>
      if decide (c = "/"%char) then cur :: splitSlash rest ""
      else splitSlash rest (cur +:+ String c "")
  end.

Fixpoint matchSegments (pat path : list string) : option Params :=
  match pat, path with
  | [], [] => Some []
  | p :: pat', seg :: path' =>
      match p with
      | String ":" key =>
          if decide (seg = "") then None
          else
            match matchSegments pat' path' with
            | Some ps => Some ((key, seg) :: ps)
            | None => None
            end
      | _ => if decide (p = seg) then matchSegments pat' path' else None
      end
  | _, _ => None
  end.

Definition matchPath (pat path : string) : option Params :=
  matchSegments (splitSlash pat "") (splitSlash path "").

Fixpoint getValue (rs : list Route) (m : http.Method) (path : string)
    : option (Handle * Params) :=
  match rs with
  | [] => None
  | rt :: rest =>
      if decide (method rt = m) then
        match matchPath (pattern rt) path with
        | Some ps => Some (handle rt, ps)
        | None => getValue rest m path
        end
      else getValue rest m path
  end.

(** The path with its trailing slash removed, or added when it has none. *)
Fixpoint toggleSlash (path : string) : string :=
  match path with
  | EmptyString => "/"
  | String c EmptyString => if decide (c = "/"%char) then "" else String c "/"
  | String c rest => String c (toggleSlash rest)
  end.

Definition allowedElsewhere (rs : list Route) (m : http.Method) (path : string) : bool :=
  existsb (fun rt => negb (bool_decide (method rt = m))
                    && bool_decide (is_Some (matchPath (pattern rt) path))) rs.

Definition StatusMovedPermanently : Z := 301.
Definition StatusTemporaryRedirect : Z := 307.
Definition StatusMethodNotAllowed : Z := 405.

Definition Router_ServeHTTP (rt : Router) (req : http.Request) : M unit :=
  let path := http.URLPath req in
  match getValue (routes rt) (http.Method_ req) path with
  | Some (h, ps) => h req ps
  | None =>
      if negb (bool_decide (path = "/"))
         && bool_decide (is_Some (getValue (routes rt) (http.Method_ req) (toggleSlash path)))
      then
        WriteHeader (if decide (http.Method_ req = http.GET)
                     then StatusMovedPermanently else StatusTemporaryRedirect)
      else if allowedElsewhere (routes rt) (http.Method_ req) path then
        WriteHeader StatusMethodNotAllowed
      else
        match NotFound rt with
        | Some h => h req
        | None => WriteHeader http.StatusNotFound;; Write ("404 page not found" +:+ newline)
        end
  end.

(** *** server.go: [Server], [New], [Add], [ServeHTTP]

    A [*Server] holds the router and the field cache.  The cache is the
    one piece of it that changes while requests are served, and the
    closures in the router reach it through the server pointer they
    capture: it lives in the [World], and the [Server] here is the part
    that is fixed once the routes are registered. *)

Record Server := { router : Router }.

Definition New : Server :=
  let router := httprouter_New in
  {| router := {| routes := routes router;
                  NotFound := Some (fun r => WriteHeader http.StatusNotFound) |} |}.

(** [s.router.GET(path, h)] and the like in the body of [Add]: a panic of
    the router ends [Add], and what follows it is not run. *)
Definition handleOn (s : option Server) (m : http.Method) (path : string) (h : Handle)
    : option Server :=
  match s with
  | Some s =>
      match Router_Handle (router s) m path h with
      | Some router' => Some {| router := router' |}
      | None => None
      end
  | None => None
  end.

(** The closures [fn] that [Add] registers on the write routes. *)
Definition createHandle (resourceSchema : Value) (creator : Creator) : Handle :=
  fun r ps =>
    '(data, err) ← parseForm r resourceSchema;
    match err with
    | Some _ => writeError err
    | None => createRequest creator data
    end.

Definition updateHandle (resourceSchema : Value) (updater : Updater) : Handle :=
  fun r ps =>
    '(data, err) ← parseForm r resourceSchema;
    match err with
    | Some _ => writeError err
    | None => updateRequest (ByName ps "id") updater data
    end.

(** [Add] returns nothing and registers on the server in place: [Some]
    is the server it leaves when it returns, [None] its panic, after which
    the server is not followed. *)
Definition Add (s : Server) (resourceSchema : Value) (handler : ResourceHandler)
    : option Server :=
  let path := Path handler in
  let s := Some s in
  let s :=
    match asGetter handler with
    | Some getter =>
        handleOn s http.GET ("/" +:+ path +:+ "/:id")
          (fun r ps => getRequest (ByName ps "id") getter)
    | None => s
    end in
  let s :=
    match asLister handler with
    | Some lister =>
        handleOn s http.GET ("/" +:+ path) (fun r ps => listRequest lister)
    | None => s
    end in
  let s :=
    match asCreator handler with
    | Some creator =>
        let fn : Handle := createHandle resourceSchema creator in
        let s := handleOn s http.POST ("/" +:+ path) fn in
        handleOn s http.PUT ("/" +:+ path) fn
    | None => s
    end in
  let s :=
    match asUpdater handler with
    | Some updater =>
        let fn : Handle := updateHandle resourceSchema updater in
        handleOn s http.POST ("/" +:+ path +:+ "/:id") fn
    | None => s
    end in
  match asDeleter handler with
  | Some deleter =>
      let fn : Handle := fun r ps => deleteRequest (ByName ps "id") deleter in
      handleOn s http.DELETE ("/" +:+ path +:+ "/:id") fn
  | None => s
  end.

Definition ServeHTTP (s : Server) (r : http.Request) : M unit :=
  Router_ServeHTTP (router s) r.

(** ** The vocabulary of the properties *)

Ltac run := unfold mbind, M_bind, mret, M_ret; simpl.

(** Proves [x ∈ [a; b; ...]] for a listed constructor [x]. *)
Ltac listed := repeat first [apply list_elem_of_here | apply list_elem_of_further].

(** Refutes [H : x ∈ [a; b; ...]] when [x] is a constructor other than
    those listed. *)
Ltac not_listed H :=
  repeat (apply elem_of_cons in H as [H|H]; [discriminate H|]);
  by apply elem_of_nil in H.

(** The descriptor of the [i]-th field, and the list of them. *)
Definition fieldDescriptor (i : nat) (d : reflect.FieldDecl) : formField :=
  describeField {| reflect.sf_decl := d; reflect.sf_Index := [i] |}.

Definition structFields (st : reflect.StructType) : list formField :=
  imap fieldDescriptor (reflect.st_fields st).

(** Every entry the cache holds is what the computation gives. *)
Definition coherent (c : Cache) : Prop :=
  forall t fields, c t = Slice fields -> describeFields t = Some fields.

(** A sequence of calls, one after the other. *)
Fixpoint getSchemaFieldsAll (ts : list reflect.Type_) : M (list (slice formField)) :=
  match ts with
  | [] => mret []
  | t :: rest =>
      '(fields, _) ← getSchemaFields t;
      more ← getSchemaFieldsAll rest;
      mret (fields :: more)
  end.

(** Concurrent calls of [getSchemaFields].  It holds the read lock for
    the look-up and, after a miss, computes the descriptors and takes the write lock for the store.
    Each lock section is one step of a goroutine, and between the two steps
    of one goroutine any other may run.  The computation is pure, so it is
    folded into the step of the store. *)
Inductive Goroutine :=
| Reading (t : reflect.Type_)
| Storing (t : reflect.Type_)
| Finished (fields : slice formField)
| Crashed.

Definition goStep (g : Goroutine) (c : Cache) : Goroutine * Cache :=
  match g with
  | Reading t =>
      let fields := c t in
      if negb (slice_is_nil fields) then (Finished fields, c) else (Storing t, c)
  | Storing t =>
      match describeFields t with
      | Some fields => (Finished (Slice fields), cache_store c t (Slice fields))
      | None => (Crashed, c)
      end
  | Finished _ | Crashed => (g, c)
  end.

(** The goroutines that share the cache; a schedule names, step by step,
    the goroutine that runs. *)
Definition poolStep (p : list Goroutine * Cache) (i : nat) : list Goroutine * Cache :=
  match p.1 !! i with
  | Some g => (<[i := (goStep g p.2).1]> p.1, (goStep g p.2).2)
  | None => p
  end.

Definition runSchedule (sched : list nat) (p : list Goroutine * Cache)
    : list Goroutine * Cache :=
  foldl poolStep p sched.

(** What holds of a pool started on the struct types [sts], one goroutine
    each, at every point of every schedule. *)
Definition poolInv (sts : list reflect.StructType) (p : list Goroutine * Cache) : Prop :=
  coherent p.2
  /\ length p.1 = length sts
  /\ forall i g st, p.1 !! i = Some g -> sts !! i = Some st ->
       match g with
       | Reading t | Storing t => t = reflect.TStruct st
       | Finished fields => fields = Slice (structFields st)
       | Crashed => False
       end.

(** The name under which the form value of a field is looked up. *)
Definition wireName (d : reflect.FieldDecl) : string := name (fieldDescriptor 0 d).

(** The boolean that the [reflect.Bool] case computes for a field. *)
Definition boolval (r : http.Request) (d : reflect.FieldDecl) : bool :=
  bool_decide (http.FormValue r (wireName d) = "true")
  || bool_decide (http.FormValue r (wireName d) = "1").

(** A conversion of the form value of [field] fails with [e]. *)
Definition parseFails (r : http.Request) (field : formField) (e : error) : Prop :=
  let formval := http.FormValue r (name field) in
  formval <> "" /\
  ((reflect.ft_kind (typ field) ∈ [reflect.Int; reflect.Int8; reflect.Int16;
                                    reflect.Int32; reflect.Int64]
    /\ exists k, strconv.ParseInt formval = inr k /\ e = NumError "ParseInt" formval k)
   \/ (reflect.ft_kind (typ field) ∈ [reflect.Uint; reflect.Uint8; reflect.Uint16;
                                       reflect.Uint32; reflect.Uint64]
       /\ exists k, strconv.ParseUint formval = inr k /\ e = NumError "ParseUint" formval k)
   \/ (reflect.ft_kind (typ field) ∈ [reflect.Float32; reflect.Float64]
       /\ exists k, ParseFloat formval = inr k /\ e = NumError "ParseFloat" formval k)).

(** The kinds the decoding switch has a case for. *)
Definition supportedKind (k : reflect.Kind) : bool :=
  match k with
  | reflect.String | reflect.Bool
  | reflect.Int | reflect.Int8 | reflect.Int16 | reflect.Int32 | reflect.Int64
  | reflect.Uint | reflect.Uint8 | reflect.Uint16 | reflect.Uint32 | reflect.Uint64
  | reflect.Float32 | reflect.Float64 => true
  | _ => false
  end.

(** Width in bits of the integer kinds. *)
Definition intBits (k : reflect.Kind) : Z :=
  match k with
  | reflect.Int8 | reflect.Uint8 => 8
  | reflect.Int16 | reflect.Uint16 => 16
  | reflect.Int32 | reflect.Uint32 => 32
  | reflect.Int64 | reflect.Uint64 => 64
  | reflect.Int | reflect.Uint | reflect.Uintptr => strconv.IntSize
  | _ => 0
  end.

(** A payload is a value of a kind: the right sort of content, and for
    the integer kinds a number within the range of the width. *)
Definition hasKind (k : reflect.Kind) (p : Payload) : Prop :=
  match k with
  | reflect.Bool => exists b, p = PBool b
  | reflect.Int | reflect.Int8 | reflect.Int16 | reflect.Int32 | reflect.Int64 =>
      exists n, p = PInt n /\ - 2 ^ (intBits k - 1) <= n < 2 ^ (intBits k - 1)
  | reflect.Uint | reflect.Uint8 | reflect.Uint16 | reflect.Uint32 | reflect.Uint64
  | reflect.Uintptr =>
      exists n, p = PUint n /\ 0 <= n < 2 ^ intBits k
  | reflect.Float32 | reflect.Float64 => exists f, p = PFloat f
  | reflect.String => exists s, p = PString s
  | _ => p = PZero
  end.

(** A struct value whose fields all are values of their declared kinds. *)
Definition wellTyped (v : Value) : Prop :=
  match v with
  | VStruct st ps =>
      Forall2 (fun d p => hasKind (reflect.ft_kind (reflect.Typ d)) p)
              (reflect.st_fields st) ps
  | _ => False
  end.

(** The zero value that [parseForm] starts from for a struct type. *)
Definition zeroStruct (st : reflect.StructType) : Value :=
  VStruct st (map (fun d => zero_of (reflect.ft_kind (reflect.Typ d)))
                  (reflect.st_fields st)).

Definition setW (σ : World) (w' : http.ResponseWriter) : World :=
  {| formCache := formCache σ; w := w'; hstate := hstate σ; events := events σ |}.

Definition addEvents (σ : World) (evs : list Event) : World :=
  {| formCache := formCache σ; w := w σ; hstate := hstate σ;
     events := events σ ++ evs |}.

(** The calls into the handler recorded in a trace. *)
Definition isCall (ev : Event) : bool :=
  match ev with
  | LogPrintf _ _ | CacheStore _ => false
  | _ => true
  end.

Definition calls (evs : list Event) : list Event := List.filter isCall evs.

(** The routes that [Add] asks the router for, in the order in which it
    asks for them. *)
Definition requested (schema : Value) (handler : ResourceHandler) : list Route :=
  match asGetter handler with
  | Some getter =>
      [{| method := http.GET; pattern := "/" +:+ Path handler +:+ "/:id";
          handle := fun r ps => getRequest (ByName ps "id") getter |}]
  | None => []
  end
  ++ match asLister handler with
     | Some lister =>
         [{| method := http.GET; pattern := "/" +:+ Path handler;
             handle := fun r ps => listRequest lister |}]
     | None => []
     end
  ++ match asCreator handler with
     | Some creator =>
         [{| method := http.POST; pattern := "/" +:+ Path handler;
             handle := createHandle schema creator |};
          {| method := http.PUT; pattern := "/" +:+ Path handler;
             handle := createHandle schema creator |}]
     | None => []
     end
  ++ match asUpdater handler with
     | Some updater =>
         [{| method := http.POST; pattern := "/" +:+ Path handler +:+ "/:id";
             handle := updateHandle schema updater |}]
     | None => []
     end
  ++ match asDeleter handler with
     | Some deleter =>
         [{| method := http.DELETE; pattern := "/" +:+ Path handler +:+ "/:id";
             handle := fun r ps => deleteRequest (ByName ps "id") deleter |}]
     | None => []
     end.

(** The router refuses none of the registrations of the methods and
    patterns [asked], made one after the other on a router that holds
    [registered]. *)
Fixpoint accepted (registered asked : list (http.Method * string)) : bool :=
  match asked with
  | [] => true
  | (m, path) :: rest =>
      negb (refuses registered m path) && accepted (registered ++ [(m, path)]) rest
  end.

(** The registrations [rts] made one after the other, as [Add] makes
    them. *)
Definition register (s : option Server) (rts : list Route) : option Server :=
  fold_left (fun s rt => handleOn s (method rt) (pattern rt) (handle rt)) rts s.

(** What the decoding switch leaves in the field declared by [d], given
    the form value under the wire name of the field: the zero value for an
    empty form value or a kind without a case, and otherwise the form value
    itself, the boolean it spells, or the number it parses to, brought to
    the width of the field. *)
Definition decoded (r : http.Request) (d : reflect.FieldDecl) (p : Payload) : Prop :=
  let formval := http.FormValue r (wireName d) in
  let k := reflect.ft_kind (reflect.Typ d) in
  if decide (formval = "") then p = zero_of k
  else
    match k with
    | reflect.String => p = PString formval
    | reflect.Bool =>
        p = PBool (bool_decide (formval = "true") || bool_decide (formval = "1"))
    | reflect.Int | reflect.Int8 | reflect.Int16 | reflect.Int32 | reflect.Int64 =>
        exists n, strconv.ParseInt formval = inl n
                  /\ p = PInt (wrap_signed (intBits k) n)
    | reflect.Uint | reflect.Uint8 | reflect.Uint16 | reflect.Uint32 | reflect.Uint64 =>
        exists n, strconv.ParseUint formval = inl n
                  /\ p = PUint (wrap_unsigned (intBits k) n)
    | reflect.Float32 =>
        exists f, ParseFloat formval = inl f /\ p = PFloat (to_float32 f)
    | reflect.Float64 =>
        exists f, ParseFloat formval = inl f /\ p = PFloat f
    | _ => p = zero_of k
    end.

(** What the client reads off a response: status code and body. *)
Definition answer (w0 : http.ResponseWriter) : Z * string :=
  (http.StatusCode w0, http.body w0).

(** The answer to an error: 404 for the sentinel, 500 for any other, no
    body. *)
Definition errorAnswer (e : error) : Z * string :=
  if decide (e = ErrNotFound) then (404, "") else (500, "").

(** The answer to a resource: the status asked for with the encoding of
    the resource, or 500 without body when it does not encode. *)
Definition resourceAnswer (status : Z) (encoded : string + error) : Z * string :=
  match encoded with
  | inl out => (status, out)
  | inr _ => (500, "")
  end.

(** No comma in a string. *)
Fixpoint commaFree (s : string) : bool :=
  match s with
  | EmptyString => true
  | String c rest => negb (bool_decide (c = ","%char)) && commaFree rest
  end.

(** A run from [σ] returns, with the answer [ans] on the response, the
    calls [cs] made into the handler, in this order, the handler left in
    state [h], and the field cache as it was. *)
Definition responds (m : M unit) (σ : World) (ans : Z * string) (cs : list Event)
    (h : HSt) : Prop :=
  exists σ',
    m σ = Returned tt σ'
    /\ answer (w σ') = ans
    /\ calls (events σ') = calls (events σ) ++ cs
    /\ hstate σ' = h
    /\ formCache σ' = formCache σ.

(** The run [o] from [σ] of a route has returned, with the answer [ans] on
    the response, the calls [cs] made into the handler, in this order, and
    the handler left in state [h]. *)
Definition answers (o : Outcome unit) (σ : World) (ans : Z * string) (cs : list Event)
    (h : HSt) : Prop :=
  exists σ',
    o = Returned tt σ'
    /\ answer (w σ') = ans
    /\ calls (events σ') = calls (events σ) ++ cs
    /\ hstate σ' = h.

(** The servers a program can have: [New()], and one on which [Add] has
    returned. *)
Inductive built : Server -> Prop :=
| built_New : built New
| built_Add s resourceSchema handler s' :
    built s -> Add s resourceSchema handler = Some s' -> built s'.

(** A run that returns, and leaves the field cache as it was. *)
Definition keepsCache (m : M unit) : Prop :=
  forall σ, exists σ', m σ = Returned tt σ' /\ formCache σ' = formCache σ.

(** A schema the decoder can fill without panic: a struct value all of
    whose fields are exported. *)
Definition settable (schema : Value) : Prop :=
  match schema with
  | VStruct st _ => Forall (fun d => reflect.exported d = true) (reflect.st_fields st)
  | _ => False
  end.

(** The servers whose resources all come with such a schema. *)
Inductive builtSettable : Server -> Prop :=
| builtSettable_New : builtSettable New
| builtSettable_Add s resourceSchema handler s' :
    builtSettable s -> settable resourceSchema ->
    Add s resourceSchema handler = Some s' ->
    builtSettable s'.
(** ** The fixtures of the package's tests *)

Definition quote : string := String (ascii_of_nat 34) "".

Definition needsEscape (c : ascii) : bool :=
  let n := nat_of_ascii c in
  (n <? 32)%nat || (126 <? n)%nat
  || bool_decide (n = 34%nat) || bool_decide (n = 92%nat)
  || bool_decide (n = 38%nat) || bool_decide (n = 60%nat) || bool_decide (n = 62%nat).

Fixpoint plain (s : string) : bool :=
  match s with
  | EmptyString => true
  | String c rest => negb (needsEscape c) && plain rest
  end.

(** What [json.Marshal] returns for a channel. *)
Definition unsupported : error :=
  otherError "*json.UnsupportedTypeError" "json: unsupported type: chan int".

Definition marshalPayload (p : Payload) : string + error :=
  match p with
  | PBool b => inl (if b then "true" else "false")
  | PInt n => inl (pretty n)
  | PUint n => inl (pretty n)
  | PString s => if plain s then inl (quote +:+ s +:+ quote) else inr unsupported
  | _ => inr unsupported
  end.

Fixpoint marshalMembers (fs : list formField) (ps : list Payload) : list string + error :=
  match fs, ps with
  | f :: fs', p :: ps' =>
      match marshalPayload p with
      | inr e => inr e
      | inl out =>
          match marshalMembers fs' ps' with
          | inr e => inr e
          | inl outs => inl ((quote +:+ name f +:+ quote +:+ ":" +:+ out) :: outs)
          end
      end
  | _, _ => inl []
  end.

(** The encoder of the fixtures.  It stands for [json.Marshal] on the
    values the fixtures send: nil, structs of exported boolean, integer
    and string fields whose tags have no options and whose strings need no
    escaping, and the channel, which does not encode.  It is not
    [json.Marshal] on other values: it knows nothing of escaping, of tag
    options or of fields that are not exported, and answers [unsupported]
    where it has no case. *)
Definition testMarshal (v : Value) : string + error :=
  match v with
  | VNil => inl "null"
  | VStruct t ps =>
      match describeFields (reflect.TStruct t) with
      | Some fs =>
          match marshalMembers fs ps with
          | inl outs => inl ("{" +:+ joinComma outs +:+ "}")
          | inr e => inr e
          end
      | None => inr unsupported
      end
  | VOther _ _ => inr unsupported
  end.

Definition t_int64 : reflect.FieldType :=
  {| reflect.ft_name := "int64"; reflect.ft_kind := reflect.Int64 |}.
Definition t_string : reflect.FieldType :=
  {| reflect.ft_name := "string"; reflect.ft_kind := reflect.String |}.

(** [type TestResource struct { ID t_int64 `json:"id"`; Name string `json:"name"` }] *)
Definition TestResource : reflect.StructType :=
  {| reflect.st_name := "reason.TestResource";
     reflect.st_fields :=
       [ {| reflect.Name := "ID"; reflect.PkgPath := ""; reflect.Typ := t_int64;
            reflect.Tag := [("json", "id")] |};
         {| reflect.Name := "Name"; reflect.PkgPath := ""; reflect.Typ := t_string;
            reflect.Tag := [("json", "name")] |} ] |}.

Definition mkTestResource (id : Z) (nm : string) : Value :=
  VStruct TestResource [PInt id; PString nm].

Definition testData : list (Z * string) := [(1, "The Test"); (2, "The Other")].

Definition invalidType : error := errors.New 1 "Invalid resource type".

Fixpoint findResource (data : list (Z * string)) (id : string) : Value * option error :=
  match data with
  | [] => (VNil, Some ErrNotFound)
  | (i, n) :: rest =>
      if decide (pretty i = id) then (mkTestResource i n, None)
      else findResource rest id
  end.

(** The methods of [TestResourceHandler]. *)
Definition test_GetResource (id : string) : H (Value * option error) :=
  fun h => (findResource testData id, h).

Definition test_ListResource : H (slice Value * option error) :=
  fun h => ((Slice (map (fun d => mkTestResource (fst d) (snd d)) testData), None), h).

Definition test_CreateResource (resource : Value) : H (Value * option error) :=
  fun h =>
    match resource with
    | VStruct t [_; nm] =>
        if decide (t = TestResource)
        then ((VStruct TestResource [PInt 3; nm], None), h)
        else ((VNil, Some invalidType), h)
    | _ => ((VNil, Some invalidType), h)
    end.

Definition test_UpdateResource (resource data : Value) : H (Value * option error) :=
  fun h =>
    match resource with
    | VStruct t [i; nm] =>
        if decide (t = TestResource) then
          match data with
          | VStruct t' [_; nm'] =>
              if decide (t' = TestResource)
              then ((VStruct TestResource [i; nm'], None), h)
              else ((resource, None), h)
          | _ => ((resource, None), h)
          end
        else ((VNil, Some invalidType), h)
    | _ => ((VNil, Some invalidType), h)
    end.

Definition test_DeleteResource (resource : Value) : H (option error) :=
  fun h => (None, h).

Definition TestResourceHandler : ResourceHandler :=
  {| Path := "test";
     has_GetResource := Some test_GetResource;
     has_ListResource := Some test_ListResource;
     has_CreateResource := Some test_CreateResource;
     has_UpdateResource := Some test_UpdateResource;
     has_DeleteResource := Some test_DeleteResource |}.

(** The handler seen through the interfaces it satisfies. *)
Definition testGetter : Getter := {| GetResource := test_GetResource |}.
Definition testLister : Lister := {| ListResource := test_ListResource |}.
Definition testUpdater : Updater :=
  {| Updater_Getter := testGetter; UpdateResource := test_UpdateResource |}.
Definition testDeleter : Deleter :=
  {| Deleter_Getter := testGetter; DeleteResource := test_DeleteResource |}.

Definition NoHandler : ResourceHandler :=
  {| Path := "no";
     has_GetResource := None; has_ListResource := None; has_CreateResource := None;
     has_UpdateResource := None; has_DeleteResource := None |}.

(** [s := New(); s.Add(TestResource{}, TestResourceHandler{});
    s.Add(TestResource{}, NoHandler{})] *)
Definition testServer : option Server :=
  match Add New (mkTestResource 0 "") TestResourceHandler with
  | Some s => Add s (mkTestResource 0 "") NoHandler
  | None => None
  end.

(** The server after the first of the two [Add]. *)
Definition resourceServer : Server :=
  {| router := {| routes := requested (mkTestResource 0 "") TestResourceHandler;
                  NotFound := NotFound (router New) |} |}.

(** On the routes of the fixtures the router refuses one registration
    only: the second one of a method and pattern. *)
Definition duplicate (registered : list (http.Method * string)) (m : http.Method)
    (path : string) : bool :=
  bool_decide ((m, path) ∈ registered).

(** A fresh response on an empty cache; the handler starts in state [h]. *)
Definition world0 (h : HSt) : World :=
  {| formCache := emptyCache; w := http.newResponse; hstate := h; events := [] |}.

Definition request (m : http.Method) (path : string) (form : list (string * string))
    : http.Request :=
  {| http.Method_ := m; http.URLPath := path;
     http.Form := list_to_map (map (fun kv => (fst kv, [snd kv])) form) |}.

(** What the client reads off a run: status code and body. *)
Definition response {A} (o : Outcome A) : option (Z * string) :=
  match o with
  | Returned _ σ => Some (http.StatusCode (w σ), http.body (w σ))
  | Panicked => None
  end.

Definition serve (h : HSt) (m : http.Method) (path : string)
    (form : list (string * string))
    : option (Z * string) :=
  match testServer with
  | Some s => response (ServeHTTP s (request m path form) (world0 h))
  | None => None
  end.

Definition json_1 : string :=
  "{" +:+ quote +:+ "id" +:+ quote +:+ ":1," +:+ quote +:+ "name" +:+ quote +:+ ":"
      +:+ quote +:+ "The Test" +:+ quote +:+ "}".
Definition json_2 : string :=
  "{" +:+ quote +:+ "id" +:+ quote +:+ ":2," +:+ quote +:+ "name" +:+ quote +:+ ":"
      +:+ quote +:+ "The Other" +:+ quote +:+ "}".

(** Further fixtures, for the decoder and the list writer. *)

Definition t_chan : reflect.FieldType :=
  {| reflect.ft_name := "chan int"; reflect.ft_kind := reflect.Chan |}.
Definition t_bool : reflect.FieldType :=
  {| reflect.ft_name := "bool"; reflect.ft_kind := reflect.Bool |}.
Definition t_int8 : reflect.FieldType :=
  {| reflect.ft_name := "int8"; reflect.ft_kind := reflect.Int8 |}.
Definition t_uint16 : reflect.FieldType :=
  {| reflect.ft_name := "uint16"; reflect.ft_kind := reflect.Uint16 |}.

(** [type Settings struct { Active bool `json:"active,omitempty"`;
    Level t_int8; Port t_uint16 `json:"port"` }] *)
Definition Settings : reflect.StructType :=
  {| reflect.st_name := "reason.Settings";
     reflect.st_fields :=
       [ {| reflect.Name := "Active"; reflect.PkgPath := ""; reflect.Typ := t_bool;
            reflect.Tag := [("json", "active,omitempty")] |};
         {| reflect.Name := "Level"; reflect.PkgPath := ""; reflect.Typ := t_int8;
            reflect.Tag := [] |};
         {| reflect.Name := "Port"; reflect.PkgPath := ""; reflect.Typ := t_uint16;
            reflect.Tag := [("json", "port")] |} ] |}.

Definition settings0 : Value := VStruct Settings [PBool false; PInt 0; PUint 0].

(** [type Account struct { ID t_int64 `json:"id"`; owner string }]: the
    second field is not exported. *)
Definition Account : reflect.StructType :=
  {| reflect.st_name := "reason.Account";
     reflect.st_fields :=
       [ {| reflect.Name := "ID"; reflect.PkgPath := ""; reflect.Typ := t_int64;
            reflect.Tag := [("json", "id")] |};
         {| reflect.Name := "owner"; reflect.PkgPath := "reason"; reflect.Typ := t_string;
            reflect.Tag := [] |} ] |}.

Definition account0 : Value := VStruct Account [PInt 0; PString ""].

(** A lister with nothing to list:
    [func (EmptyHandler) ListResource() ([]interface{}, error)
       { var list []interface{}; return list, nil }] *)
Definition EmptyLister : Lister :=
  {| ListResource := fun h => ((nilSlice, None), h) |}.

(** The world a run leaves behind ([σ0] after a panic). *)
Definition after {A} (σ0 : World) (o : Outcome A) : World :=
  match o with
  | Returned _ σ => σ
  | Panicked => σ0
  end.


(** ** Properties *)

(** *** Running the monad *)

Lemma bind_Returned {A B} (m : M A) (f : A -> M B) σ a σ' :
  m σ = Returned a σ' -> (m ≫= f) σ = f a σ'.
Proof. intros Hm. unfold mbind, M_bind. by rewrite Hm. Qed.

Lemma bind_inv {A B} (m : M A) (f : A -> M B) σ b σ2 :
  (m ≫= f) σ = Returned b σ2 ->
  exists a σ1, m σ = Returned a σ1 /\ f a σ1 = Returned b σ2.
Proof.
  unfold mbind, M_bind. destruct (m σ) as [a σ1|] eqn:Hm; [|done].
  intros Hf. by exists a, σ1.
Qed.

(** *** The field descriptors of a struct type *)

Lemma describeLoop_spec st n : forall i acc,
  (i + n)%nat = length (reflect.st_fields st) ->
  describeLoop (reflect.TStruct st) i n acc
  = Some (acc ++ imap (fun j => fieldDescriptor (i + j)) (drop i (reflect.st_fields st))).
Proof.
  induction n as [|n IH]; intros i acc Hlen; simpl.
  - rewrite drop_ge by lia. simpl. by rewrite app_nil_r.
  - destruct (reflect.st_fields st !! i) as [d|] eqn:Hd.
    + rewrite IH by lia. rewrite (drop_S _ d i Hd), imap_cons, <- app_assoc. simpl.
      do 3 f_equal.
      * unfold fieldDescriptor. by rewrite Nat.add_0_r.
      * apply imap_ext. intros j x _. simpl. f_equal. lia.
    + apply lookup_ge_None in Hd. lia.
Qed.

(** The loop of [getSchemaFields] never panics on a struct type, and
    yields one descriptor per field, in declaration order. *)
Lemma describeFields_struct st :
  describeFields (reflect.TStruct st) = Some (structFields st).
Proof.
  unfold describeFields. simpl.
  rewrite describeLoop_spec by done. by rewrite drop_0.
Qed.

(** *** The field cache *)

Lemma coherent_empty : coherent emptyCache.
Proof. intros t fields. unfold emptyCache. discriminate. Qed.

Lemma coherent_store c t fields :
  coherent c -> describeFields t = Some fields -> coherent (cache_store c t (Slice fields)).
Proof.
  intros Hc Hd t' fields'. unfold cache_store.
  case_decide as Heq; [|apply Hc]. intros [= <-]. by subst.
Qed.

(** One call on a struct type, whatever the coherent cache holds. *)
Lemma getSchemaFields_struct st σ :
  coherent (formCache σ) ->
  exists σ',
    getSchemaFields (reflect.TStruct st) σ = Returned (Slice (structFields st), None) σ'
    /\ coherent (formCache σ')
    /\ formCache σ' (reflect.TStruct st) = Slice (structFields st)
    /\ w σ' = w σ /\ hstate σ' = hstate σ
    /\ (forall t, formCache σ t <> nilSlice -> formCache σ' t = formCache σ t)
    /\ ((formCache σ (reflect.TStruct st) <> nilSlice /\ σ' = σ)
        \/ (formCache σ (reflect.TStruct st) = nilSlice
            /\ events σ' = events σ ++ [CacheStore (reflect.TStruct st)])).
Proof.
  intros Hc. unfold getSchemaFields, cacheRead. run.
  destruct (formCache σ (reflect.TStruct st)) as [|fields] eqn:Hhit; simpl.
  - rewrite describeFields_struct. simpl. unfold cacheWrite. simpl.
    eexists. split; [done|]. simpl. repeat split.
    + by apply coherent_store, describeFields_struct.
    + unfold cache_store. by case_decide.
    + intros t Ht. unfold cache_store. case_decide; [by subst|done].
    + by right.
  - pose proof (Hc _ _ Hhit) as Hd. rewrite describeFields_struct in Hd.
    injection Hd as <-. exists σ. repeat split; try done. by left.
Qed.

(** C8.  On a coherent cache (the empty cache of [New] is one), any
    sequence of [getSchemaFields] calls on struct types returns, at every
    call, the descriptor list that the computation over the type yields,
    hit or miss alike; the cache stays coherent and keeps what it held;
    and over the whole sequence the cache is stored into at most once per
    type, and only for types it did not hold. *)
Theorem getSchemaFields_memoizes (sts : list reflect.StructType) : forall σ,
  coherent (formCache σ) ->
  exists σ' new,
    getSchemaFieldsAll (reflect.TStruct <$> sts) σ
    = Returned ((fun st => Slice (structFields st)) <$> sts) σ'
    /\ Forall (fun st => describeFields (reflect.TStruct st) = Some (structFields st)
                         /\ formCache σ' (reflect.TStruct st) = Slice (structFields st)) sts
    /\ coherent (formCache σ')
    /\ (forall t, formCache σ t <> nilSlice -> formCache σ' t = formCache σ t)
    /\ events σ' = events σ ++ (CacheStore <$> new)
    /\ NoDup new
    /\ (forall t, t ∈ new -> formCache σ t = nilSlice).
Proof.
  induction sts as [|st sts IH]; intros σ Hc.
  - exists σ, []. simpl. rewrite app_nil_r. repeat split; try done.
    + constructor.
    + intros t Ht. by apply elem_of_nil in Ht.
  - destruct (getSchemaFields_struct st σ Hc)
      as (σ1 & Hrun & Hc1 & Hin1 & _ & _ & Hkeep & Hcase).
    destruct (IH σ1 Hc1) as (σ2 & new & Hrest & Hall & Hc2 & Hkeep2 & Hev & Hnd & Hnew).
    assert (Hin2 : formCache σ2 (reflect.TStruct st) = Slice (structFields st)).
    { rewrite Hkeep2; [done|]. by rewrite Hin1. }
    assert (Hkeep02 : forall t, formCache σ t <> nilSlice -> formCache σ2 t = formCache σ t).
    { intros t Ht. rewrite Hkeep2; [by apply Hkeep|]. by rewrite Hkeep. }
    simpl. rewrite (bind_Returned _ _ _ _ _ Hrun). simpl.
    rewrite (bind_Returned _ _ _ _ _ Hrest). run.
    destruct Hcase as [[Hhit ->]|[Hmiss Hev1]].
    + exists σ2, new. repeat split; try done.
      constructor; [split; [apply describeFields_struct|done]|done].
    + exists σ2, (reflect.TStruct st :: new). repeat split; try done.
      * constructor; [split; [apply describeFields_struct|done]|done].
      * rewrite Hev, Hev1, <- app_assoc. done.
      * constructor; [|done]. intros Hin. apply Hnew in Hin. congruence.
      * intros t [->|Hin]%elem_of_cons; [done|].
        destruct (formCache σ t) eqn:Ht; [done|].
        apply Hnew in Hin. rewrite Hkeep in Hin; congruence.
Qed.

(** *** Concurrent calls *)

(** Run alone, a goroutine does in its two steps what [getSchemaFields]
    does. *)
Lemma getSchemaFields_goSteps t σ :
  let p1 := goStep (Reading t) (formCache σ) in
  let p2 := goStep p1.1 p1.2 in
  match getSchemaFields t σ with
  | Returned (fields, _) σ' => p2.1 = Finished fields /\ formCache σ' = p2.2
  | Panicked => p2.1 = Crashed
  end.
Proof.
  unfold getSchemaFields, cacheRead. run.
  destruct (formCache σ t) as [|fields] eqn:Hhit; simpl.
  - destruct (describeFields t); simpl; done.
  - done.
Qed.

Lemma goStep_keeps c g st :
  coherent c ->
  match g with
  | Reading t | Storing t => t = reflect.TStruct st
  | Finished fields => fields = Slice (structFields st)
  | Crashed => False
  end ->
  coherent (goStep g c).2
  /\ (forall t, c t <> nilSlice -> (goStep g c).2 t = c t)
  /\ match (goStep g c).1 with
     | Reading t | Storing t => t = reflect.TStruct st
     | Finished fields => fields = Slice (structFields st)
     | Crashed => False
     end.
Proof.
  intros Hc Hg.
  destruct g as [t|t|fields|]; simpl; [| |done|done]; subst t.
  - destruct (c (reflect.TStruct st)) as [|fields] eqn:Hhit; simpl; [done|].
    repeat split; try done.
    apply Hc in Hhit. rewrite describeFields_struct in Hhit. congruence.
  - rewrite describeFields_struct. simpl. repeat split.
    + by apply coherent_store, describeFields_struct.
    + intros t Ht. unfold cache_store. case_decide as Heq; [|done]. subst t.
      destruct (c (reflect.TStruct st)) as [|fields] eqn:Hhit; [done|].
      apply Hc in Hhit. rewrite describeFields_struct in Hhit. congruence.
Qed.

Lemma poolStep_inv sts p i :
  poolInv sts p ->
  poolInv sts (poolStep p i)
  /\ forall t, p.2 t <> nilSlice -> (poolStep p i).2 t = p.2 t.
Proof.
  destruct p as [gs c]. intros (Hc & Hlen & Hgs). unfold poolStep. simpl.
  destruct (gs !! i) as [g|] eqn:Hg; [|done].
  destruct (lookup_lt_is_Some_2 sts i) as [st Hst].
  { rewrite <- Hlen. by eapply lookup_lt_Some. }
  destruct (goStep_keeps c g st Hc (Hgs i g st Hg Hst)) as (Hc' & Hkeep' & Hg').
  split; [|done]. split; [done|]. split; simpl.
  - by rewrite length_insert.
  - intros j g' st' Hj Hst'. destruct (decide (j = i)) as [->|Hne].
    + rewrite list_lookup_insert_eq in Hj by by eapply lookup_lt_Some.
      injection Hj as <-. rewrite Hst in Hst'. by injection Hst' as <-.
    + rewrite list_lookup_insert_ne in Hj by done. by eapply Hgs.
Qed.

Lemma runSchedule_inv sts sched : forall p,
  poolInv sts p ->
  poolInv sts (runSchedule sched p)
  /\ forall t, p.2 t <> nilSlice -> (runSchedule sched p).2 t = p.2 t.
Proof.
  unfold runSchedule.
  induction sched as [|i sched IH]; intros p Hp; simpl; [done|].
  destruct (poolStep_inv sts p i Hp) as [Hp1 Hkeep1].
  destruct (IH _ Hp1) as [Hp2 Hkeep2]. split; [done|].
  intros t Ht. rewrite Hkeep2; [by apply Hkeep1|]. by rewrite Hkeep1.
Qed.

(** Races on the first access are harmless.  Goroutines call
    [getSchemaFields] on struct types over a coherent cache; at every point
    [s1] of every schedule and at every later point [s1 ++ s2]: the cache
    is coherent; an entry that was filled at the earlier point is the same
    at the later one, so that the entry of a type is filled once and never
    changed, however many goroutines store into it; no goroutine has
    panicked; and every goroutine that has returned has returned the
    computed descriptor list of its type. *)
Theorem getSchemaFields_races_harmless sts c0 s1 s2 :
  coherent c0 ->
  let p0 := ((fun st => Reading (reflect.TStruct st)) <$> sts, c0) in
  poolInv sts (runSchedule (s1 ++ s2) p0)
  /\ forall t, (runSchedule s1 p0).2 t <> nilSlice ->
       (runSchedule (s1 ++ s2) p0).2 t = (runSchedule s1 p0).2 t.
Proof.
  intros Hc p0.
  assert (Hinit : poolInv sts p0).
  { split; [done|]. split; [simpl; by rewrite length_fmap|].
    intros i g st Hg Hst. simpl in Hg. rewrite list_lookup_fmap, Hst in Hg.
    by injection Hg as <-. }
  unfold runSchedule. rewrite foldl_app. fold (runSchedule s1 p0).
  fold (runSchedule s2 (runSchedule s1 p0)).
  destruct (runSchedule_inv sts s1 p0 Hinit) as [Hp1 _].
  apply (runSchedule_inv sts s2 _ Hp1).
Qed.

(** *** The decoding loop *)

Lemma name_fieldDescriptor i d : name (fieldDescriptor i d) = wireName d.
Proof. reflexivity. Qed.

Lemma setField_not_ReturnErr val field set e : setField val field set <> ReturnErr e.
Proof. unfold setField. by destruct (FieldByIndex_Set _ _ _). Qed.

(** An iteration returns an error exactly when a numeric conversion of
    its form value fails; the instance under construction plays no part. *)
Lemma decodeField_ReturnErr r val field e :
  decodeField r val field = ReturnErr e <-> parseFails r field e.
Proof.
  unfold decodeField, parseFails. simpl. split.
  - case_decide as Hne; [|done]. intros Hret. split; [done|].
    destruct (reflect.ft_kind (typ field)); try done;
      try (by apply setField_not_ReturnErr in Hret);
      try (destruct (strconv.ParseInt _) as [?|k] eqn:Hp;
           [by apply setField_not_ReturnErr in Hret|];
           injection Hret as <-; left; split; [listed|by exists k]);
      try (destruct (strconv.ParseUint _) as [?|k] eqn:Hp;
           [by apply setField_not_ReturnErr in Hret|];
           injection Hret as <-; right; left; split; [listed|by exists k]);
      try (destruct (ParseFloat _) as [?|k] eqn:Hp;
           [by apply setField_not_ReturnErr in Hret|];
           injection Hret as <-; right; right; split; [listed|by exists k]).
  - intros [Hne Hcases]. case_decide; [|done].
    destruct Hcases as [(Hk & k & Hp & ->)|[(Hk & k & Hp & ->)|(Hk & k & Hp & ->)]];
      destruct (reflect.ft_kind (typ field)); try (by rewrite Hp);
      exfalso; not_listed Hk.
Qed.

(** The loop returns the error of the first field, in the order of the
    list, whose conversion fails. *)
Lemma decodeFields_ReturnErr r fields : forall val e,
  decodeFields r fields val = ReturnErr e ->
  exists pre field post,
    fields = pre ++ field :: post
    /\ (forall g e', g ∈ pre -> ~ parseFails r g e')
    /\ parseFails r field e.
Proof.
  induction fields as [|f fields IH]; intros val e; simpl; [done|].
  destruct (decodeField r val f) as [val'|e0|] eqn:Hstep; [| |done].
  - intros (pre & field & post & -> & Hpre & Hfail)%IH.
    exists (f :: pre), field, post. split; [done|]. split; [|done].
    intros g e' [->|Hg]%elem_of_cons; [|by apply Hpre].
    intros Hf. apply (decodeField_ReturnErr r val) in Hf. congruence.
  - intros [= ->]. exists [], f, fields. split; [done|]. split.
    + intros g e' Hg. by apply elem_of_nil in Hg.
    + by apply (decodeField_ReturnErr r val).
Qed.

(** An iteration that goes on leaves the type of the instance alone. *)
Lemma decodeField_TypeOf r val field val' :
  decodeField r val field = Next val' -> TypeOf val' = TypeOf val.
Proof.
  assert (Hset : forall set, setField val field set = Next val' -> TypeOf val' = TypeOf val).
  { intros set. unfold setField, FieldByIndex_Set.
    destruct val as [|st fs|]; try done.
    destruct (index field) as [|i [|]]; try done.
    destruct (reflect.st_fields st !! i) as [d|]; [|done].
    destruct (reflect.exported d); [|done].
    destruct (set _); [|done]. by intros [= <-]. }
  unfold decodeField. simpl. case_decide; [|by intros [= <-]].
  destruct (reflect.ft_kind (typ field)); try (by intros [= <-]); try apply Hset.
  - destruct (strconv.ParseInt _); [apply Hset|done].
  - destruct (strconv.ParseInt _); [apply Hset|done].
  - destruct (strconv.ParseInt _); [apply Hset|done].
  - destruct (strconv.ParseInt _); [apply Hset|done].
  - destruct (strconv.ParseInt _); [apply Hset|done].
  - destruct (strconv.ParseUint _); [apply Hset|done].
  - destruct (strconv.ParseUint _); [apply Hset|done].
  - destruct (strconv.ParseUint _); [apply Hset|done].
  - destruct (strconv.ParseUint _); [apply Hset|done].
  - destruct (strconv.ParseUint _); [apply Hset|done].
  - destruct (ParseFloat _); [apply Hset|done].
  - destruct (ParseFloat _); [apply Hset|done].
Qed.

Lemma decodeFields_TypeOf r fields : forall val val',
  decodeFields r fields val = Next val' -> TypeOf val' = TypeOf val.
Proof.
  induction fields as [|f fields IH]; intros val val'; simpl; [by intros [= <-]|].
  destruct (decodeField r val f) as [val1| |] eqn:Hstep; [|done|done].
  intros Hrest%IH. rewrite Hrest. by eapply decodeField_TypeOf.
Qed.

(** *** Decoding into a struct *)

Lemma setField_struct st fs i d set :
  reflect.st_fields st !! i = Some d ->
  setField (VStruct st fs) (fieldDescriptor i d) set
  = if reflect.exported d then
      match set (reflect.ft_kind (reflect.Typ d)) with
      | Some p => Next (VStruct st (<[i := p]> fs))
      | None => Panic
      end
    else Panic.
Proof.
  intros Hd. unfold setField, FieldByIndex_Set. simpl. rewrite Hd.
  destruct (reflect.exported d); [|done]. by destruct (set _).
Qed.

Lemma wrap_signed_range b x :
  0 < b -> - 2 ^ (b - 1) <= wrap_signed b x < 2 ^ (b - 1).
Proof.
  intros Hb. unfold wrap_signed.
  assert (H2 : 2 ^ b = 2 * 2 ^ (b - 1)).
  { rewrite <- Z.pow_succ_r by lia. f_equal. lia. }
  assert (Hpos : 0 < 2 ^ (b - 1)) by (apply Z.pow_pos_nonneg; lia).
  pose proof (Z.mod_pos_bound (x + 2 ^ (b - 1)) (2 ^ b)) as Hm. lia.
Qed.

Lemma wrap_unsigned_range b x : 0 <= b -> 0 <= wrap_unsigned b x < 2 ^ b.
Proof.
  intros Hb. unfold wrap_unsigned. apply Z.mod_pos_bound.
  apply Z.pow_pos_nonneg; lia.
Qed.

Lemma zero_of_hasKind k : hasKind k (zero_of k).
Proof.
  destruct k; simpl; eauto;
    (exists 0; split; [done|]; unfold strconv.IntSize; lia).
Qed.

Lemma SetString_hasKind x k p : SetString x k = Some p -> hasKind k p.
Proof. destruct k; try done. intros [= <-]. simpl. eauto. Qed.

Lemma SetBool_hasKind x k p : SetBool x k = Some p -> hasKind k p.
Proof. destruct k; try done. intros [= <-]. simpl. eauto. Qed.

Lemma SetFloat_hasKind x k p : SetFloat x k = Some p -> hasKind k p.
Proof. destruct k; try done; intros [= <-]; simpl; eauto. Qed.

Lemma SetInt_hasKind x k p : SetInt x k = Some p -> hasKind k p.
Proof.
  destruct k; try done; intros [= <-]; simpl; eexists; (split; [done|]);
    apply wrap_signed_range; unfold strconv.IntSize; lia.
Qed.

Lemma SetUint_hasKind x k p : SetUint x k = Some p -> hasKind k p.
Proof.
  destruct k; try done; intros [= <-]; simpl; eexists; (split; [done|]);
    apply wrap_unsigned_range; unfold strconv.IntSize; lia.
Qed.

(** What an iteration that goes on has done to the fields: it kept them
    all, or it replaced the one of its own index by a value of the kind of
    the field. *)
Lemma decodeField_struct_Next r st fs i d val' :
  reflect.st_fields st !! i = Some d ->
  decodeField r (VStruct st fs) (fieldDescriptor i d) = Next val' ->
  exists fs',
    val' = VStruct st fs'
    /\ (fs' = fs
        \/ exists p, fs' = <[i := p]> fs /\ hasKind (reflect.ft_kind (reflect.Typ d)) p)
    /\ (http.FormValue r (wireName d) = "" -> fs' = fs)
    /\ (reflect.ft_kind (reflect.Typ d) = reflect.Bool ->
        http.FormValue r (wireName d) <> "" ->
        fs' = <[i := PBool (boolval r d)]> fs).
Proof.
  intros Hd. unfold decodeField. rewrite name_fieldDescriptor. simpl.
  assert (Hset : forall set,
    (forall k p, set k = Some p -> hasKind k p) ->
    (reflect.ft_kind (reflect.Typ d) = reflect.Bool ->
     set reflect.Bool = Some (PBool (boolval r d))) ->
    http.FormValue r (wireName d) <> "" ->
    setField (VStruct st fs) (fieldDescriptor i d) set = Next val' ->
    exists fs',
      val' = VStruct st fs'
      /\ (fs' = fs
          \/ exists p, fs' = <[i := p]> fs /\ hasKind (reflect.ft_kind (reflect.Typ d)) p)
      /\ (http.FormValue r (wireName d) = "" -> fs' = fs)
      /\ (reflect.ft_kind (reflect.Typ d) = reflect.Bool ->
          http.FormValue r (wireName d) <> "" ->
          fs' = <[i := PBool (boolval r d)]> fs)).
  { intros set Hkind Hbool Hne. rewrite (setField_struct _ _ _ _ _ Hd).
    destruct (reflect.exported d); [|done].
    destruct (set (reflect.ft_kind (reflect.Typ d))) as [p|] eqn:Hp; [|done].
    intros [= <-].
    eexists. split; [done|]. split; [right; exists p; by auto|]. split; [by intros ?|].
    intros Hk _. rewrite Hk in Hp. rewrite (Hbool Hk) in Hp. by injection Hp as <-. }
  case_decide as Hne.
  - destruct (reflect.ft_kind (reflect.Typ d)) eqn:Hk;
      try (intros [= <-]; exists fs; repeat split; by auto);
      try (destruct (strconv.ParseInt _); [|done]);
      try (destruct (strconv.ParseUint _); [|done]);
      try (destruct (ParseFloat _); [|done]);
      apply Hset;
      eauto using SetString_hasKind, SetBool_hasKind, SetFloat_hasKind,
        SetInt_hasKind, SetUint_hasKind; done.
  - intros [= <-]. exists fs. split; [done|]. split; [by left|]. split; [done|].
    intros _ Hne'. destruct Hne. done.
Qed.

(** On an exported field an iteration does not panic. *)
Lemma decodeField_struct_exported r st fs i d :
  reflect.st_fields st !! i = Some d ->
  reflect.exported d = true ->
  decodeField r (VStruct st fs) (fieldDescriptor i d) <> Panic.
Proof.
  intros Hd Hex. unfold decodeField. simpl. case_decide; [|done].
  destruct (reflect.ft_kind (reflect.Typ d)) eqn:Hk; try done;
    try (destruct (strconv.ParseInt _); [|done]);
    try (destruct (strconv.ParseUint _); [|done]);
    try (destruct (ParseFloat _); [|done]);
    rewrite (setField_struct _ _ _ _ _ Hd), Hex, Hk; done.
Qed.

(** On a field that is not exported, of a kind the switch has a case for,
    an iteration with a form value never goes on: the setter panics,
    unless the conversion has failed before it. *)
Lemma decodeField_struct_unexported r st fs i d :
  reflect.st_fields st !! i = Some d ->
  reflect.exported d = false ->
  supportedKind (reflect.ft_kind (reflect.Typ d)) = true ->
  http.FormValue r (wireName d) <> "" ->
  decodeField r (VStruct st fs) (fieldDescriptor i d) = Panic
  \/ exists e, parseFails r (fieldDescriptor i d) e.
Proof.
  intros Hd Hex Hk Hne.
  destruct (decodeField r (VStruct st fs) (fieldDescriptor i d)) as [val'|e|] eqn:Hstep.
  - exfalso. revert Hstep. unfold decodeField. rewrite name_fieldDescriptor. simpl.
    case_decide; [|done].
    destruct (reflect.ft_kind (reflect.Typ d)); try done;
      try (destruct (strconv.ParseInt _); [|done]);
      try (destruct (strconv.ParseUint _); [|done]);
      try (destruct (ParseFloat _); [|done]);
      by rewrite (setField_struct _ _ _ _ _ Hd), Hex.
  - right. exists e. by eapply decodeField_ReturnErr.
  - by left.
Qed.

(** The loop over the descriptors of the fields from index [k] on. *)
Lemma decodeFields_struct_exported r st : forall l k fs,
  drop k (reflect.st_fields st) = l ->
  Forall (fun d => reflect.exported d = true) l ->
  decodeFields r (imap (fun j => fieldDescriptor (k + j)) l) (VStruct st fs) <> Panic.
Proof.
  induction l as [|d l IH]; intros k fs Hdrop Hex; simpl; [done|].
  assert (Hd : reflect.st_fields st !! k = Some d).
  { rewrite <- (Nat.add_0_r k), <- lookup_drop, Hdrop. done. }
  apply Forall_cons in Hex as [Hexd Hex]. rewrite Nat.add_0_r.
  destruct (decodeField r (VStruct st fs) (fieldDescriptor k d)) as [val'| |] eqn:Hstep;
    [|done|by apply decodeField_struct_exported in Hstep].
  destruct (decodeField_struct_Next _ _ _ _ _ _ Hd Hstep) as (fs' & -> & _).
  rewrite (imap_ext _ (fun j => fieldDescriptor (S k + j))).
  - apply IH; [|done]. rewrite (drop_S _ _ _ Hd) in Hdrop. by injection Hdrop.
  - intros j x _. simpl. f_equal. lia.
Qed.

(** What the loop has done when it runs to its end: it kept the fields
    below [k]; above, every field is a value of its kind if it was, and a
    boolean field that was [false] holds the boolean computed from its
    form value. *)
Lemma decodeFields_struct_Next r st : forall l k fs val',
  drop k (reflect.st_fields st) = l ->
  decodeFields r (imap (fun j => fieldDescriptor (k + j)) l) (VStruct st fs) = Next val' ->
  exists fs',
    val' = VStruct st fs'
    /\ length fs' = length fs
    /\ (forall j, (j < k)%nat -> fs' !! j = fs !! j)
    /\ (forall j d p, reflect.st_fields st !! j = Some d -> fs !! j = Some p ->
        hasKind (reflect.ft_kind (reflect.Typ d)) p ->
        exists p', fs' !! j = Some p' /\ hasKind (reflect.ft_kind (reflect.Typ d)) p')
    /\ (forall j d, (k <= j)%nat -> reflect.st_fields st !! j = Some d ->
        reflect.ft_kind (reflect.Typ d) = reflect.Bool ->
        fs !! j = Some (PBool false) ->
        fs' !! j = Some (PBool (boolval r d))).
Proof.
  induction l as [|d l IH]; intros k fs val' Hdrop; simpl.
  - intros [= <-]. exists fs. repeat split; try done.
    + intros j d0 p _ Hp Hk. by exists p.
    + intros j d0 Hj Hd. apply lookup_lt_Some in Hd.
      assert (Hlen : length (drop k (reflect.st_fields st)) = 0%nat) by by rewrite Hdrop.
      rewrite length_drop in Hlen. lia.
  - assert (Hd : reflect.st_fields st !! k = Some d).
    { rewrite <- (Nat.add_0_r k), <- lookup_drop, Hdrop. done. }
    rewrite Nat.add_0_r.
    destruct (decodeField r (VStruct st fs) (fieldDescriptor k d)) as [val1| |] eqn:Hstep;
      [|done|done].
    destruct (decodeField_struct_Next _ _ _ _ _ _ Hd Hstep)
      as (fs1 & -> & Hshape & Hempty & Hbool).
    rewrite (imap_ext _ (fun j => fieldDescriptor (S k + j)));
      [|intros j x _; simpl; f_equal; lia].
    intros Hrest. apply IH in Hrest as (fs' & -> & Hlen & Hlow & Htyped & Hhigh);
      [|rewrite (drop_S _ _ _ Hd) in Hdrop; by injection Hdrop].
    assert (Hlen1 : length fs1 = length fs).
    { destruct Hshape as [->|(p & -> & _)]; [done|apply length_insert]. }
    assert (Hother : forall j, j <> k -> fs1 !! j = fs !! j).
    { intros j Hj. destruct Hshape as [->|(p & -> & _)]; [done|].
      by apply list_lookup_insert_ne. }
    exists fs'. split; [done|]. split; [congruence|]. split; [|split].
    + intros j Hj. rewrite Hlow by lia. apply Hother. lia.
    + intros j d0 p Hd0 Hp Hk.
      destruct (decide (j = k)) as [->|Hj].
      * destruct Hshape as [->|(p1 & -> & Hk1)]; [by eapply Htyped|].
        rewrite Hd in Hd0. injection Hd0 as <-.
        apply (Htyped k d p1); [done| |done].
        apply list_lookup_insert_eq. by apply lookup_lt_Some in Hp.
      * eapply Htyped; [done| |done]. by rewrite Hother.
    + intros j d0 Hj Hd0 Hk Hz.
      destruct (decide (j = k)) as [->|Hne].
      * rewrite Hd in Hd0. injection Hd0 as <-. rewrite Hlow by lia.
        destruct (decide (http.FormValue r (wireName d) = "")) as [He|He].
        -- rewrite (Hempty He), Hz. unfold boolval. by rewrite He.
        -- rewrite (Hbool Hk He). apply list_lookup_insert_eq.
           by apply lookup_lt_Some in Hz.
      * apply Hhigh; [lia|done|done|]. by rewrite Hother.
Qed.

Lemma decodeFields_Next_no_failure r fields : forall val val',
  decodeFields r fields val = Next val' ->
  forall g e, g ∈ fields -> ~ parseFails r g e.
Proof.
  induction fields as [|f fields IH]; intros val val'; simpl.
  - intros _ g e Hg. by apply elem_of_nil in Hg.
  - destruct (decodeField r val f) as [val1| |] eqn:Hstep; [|done|done].
    intros Hrest g e [->|Hg]%elem_of_cons; [|by eapply IH].
    intros Hf. apply (decodeField_ReturnErr r val) in Hf. congruence.
Qed.

(** *** [parseForm] *)

Lemma wellTyped_zeroStruct st : wellTyped (zeroStruct st).
Proof.
  simpl. induction (reflect.st_fields st) as [|d l IH]; simpl; constructor;
    [apply zero_of_hasKind|done].
Qed.

(** [parseForm] is [getSchemaFields], then the loop over its result
    from the zero value of the type. *)
Lemma parseForm_inv r schema σ v err σ' :
  parseForm r schema σ = Returned (v, err) σ' ->
  exists fields val0,
    getSchemaFields (TypeOf schema) σ = Returned (fields, None) σ'
    /\ New_Elem (TypeOf schema) = Some val0
    /\ match decodeFields r (slice_elems fields) val0 with
       | Next val' => v = val' /\ err = None
       | ReturnErr e => v = VNil /\ err = Some e
       | Panic => False
       end.
Proof.
  unfold parseForm. intros ([fields e] & σ1 & Hget & Hrest)%bind_inv.
  assert (e = None) as ->.
  { revert Hget. unfold getSchemaFields, cacheRead. run.
    destruct (slice_is_nil _); simpl; [|by intros [= _ <- _]].
    destruct (describeFields _); simpl; [|done]. by intros [= _ <- _]. }
  apply bind_inv in Hrest as (val0 & σ2 & Hnew & Hrest).
  destruct (New_Elem (TypeOf schema)) as [val0'|] eqn:Hzero; [|done].
  injection Hnew as -> ->. exists fields, val0.
  destruct (decodeFields _ _ _); [| |done]; by injection Hrest as <- <- <-.
Qed.

Lemma parseForm_struct r st fs0 σ :
  coherent (formCache σ) ->
  exists σ',
    getSchemaFields (reflect.TStruct st) σ = Returned (Slice (structFields st), None) σ'
    /\ parseForm r (VStruct st fs0) σ
       = match decodeFields r (structFields st) (zeroStruct st) with
         | Next val' => Returned (val', None) σ'
         | ReturnErr e => Returned (VNil, Some e) σ'
         | Panic => Panicked
         end.
Proof.
  intros Hc. destruct (getSchemaFields_struct st σ Hc) as (σ' & Hget & _).
  exists σ'. split; [done|]. unfold parseForm. simpl.
  rewrite (bind_Returned _ _ _ _ _ Hget). run. fold (zeroStruct st).
  by destruct (decodeFields _ _ _).
Qed.

(** On a coherent cache only a struct schema lets [parseForm] return. *)
Lemma parseForm_Returned_struct r schema σ v err σ' :
  coherent (formCache σ) ->
  parseForm r schema σ = Returned (v, err) σ' ->
  exists st fs0, schema = VStruct st fs0.
Proof.
  intros Hc (fields & val0 & Hget & _)%parseForm_inv.
  destruct schema as [|st fs0|ft id]; [|by eauto|]; exfalso;
    revert Hget; unfold getSchemaFields, cacheRead; run;
    (destruct (formCache σ _) as [|fs] eqn:Hhit; simpl; [done|]);
    by apply Hc in Hhit.
Qed.

(** The type of what [parseForm] returns is the type of the schema. *)
Lemma parseForm_TypeOf r schema σ v σ' :
  parseForm r schema σ = Returned (v, None) σ' -> TypeOf v = TypeOf schema.
Proof.
  intros (fields & val0 & _ & Hzero & Hloop)%parseForm_inv.
  destruct (decodeFields _ _ _) as [val'| |] eqn:Hdec; [|by destruct Hloop|done].
  destruct Hloop as [-> _]. rewrite (decodeFields_TypeOf _ _ _ _ Hdec).
  destruct (TypeOf schema); simpl in Hzero; [done| |]; by injection Hzero as <-.
Qed.

Lemma structFields_imap st :
  structFields st = imap (fun j => fieldDescriptor (0 + j)) (reflect.st_fields st).
Proof. reflexivity. Qed.

Lemma FormValue_absent (r : http.Request) key :
  http.Form r !! key = None -> http.FormValue r key = "".
Proof. unfold http.FormValue. by intros ->. Qed.

(** C5.  When [parseForm] returns an instance, each of its boolean
    fields is [true] exactly when the form value of the field is "true"
    or "1"; with an empty form value (an absent one reads as empty) the
    loop leaves the instance as it is, and the field holds the zero value
    [false]. *)
Theorem parseForm_bool r schema σ v σ' st i d :
  coherent (formCache σ) ->
  parseForm r schema σ = Returned (v, None) σ' ->
  TypeOf schema = reflect.TStruct st ->
  reflect.st_fields st !! i = Some d ->
  reflect.ft_kind (reflect.Typ d) = reflect.Bool ->
  exists ps b,
    v = VStruct st ps
    /\ ps !! i = Some (PBool b)
    /\ (b = true <->
        http.FormValue r (wireName d) = "true" \/ http.FormValue r (wireName d) = "1")
    /\ (http.FormValue r (wireName d) = "" ->
        PBool b = zero_of reflect.Bool
        /\ forall val, decodeField r val (fieldDescriptor i d) = Next val)
    /\ (http.Form r !! wireName d = None -> http.FormValue r (wireName d) = "").
Proof.
  intros Hc Hrun Hty Hd Hk.
  destruct schema as [|st' fs0|]; try done. injection Hty as ->.
  destruct (parseForm_struct r st fs0 σ Hc) as (σ1 & _ & Hpf).
  rewrite Hpf in Hrun.
  destruct (decodeFields r (structFields st) (zeroStruct st)) as [val'| |] eqn:Hdec;
    [|done|done].
  injection Hrun as -> <-.
  rewrite structFields_imap in Hdec.
  apply decodeFields_struct_Next in Hdec as (ps & -> & _ & _ & _ & Hbool); [|done].
  exists ps, (boolval r d). split; [done|]. split; [|split; [|split]].
  - apply Hbool; [lia|done|done|].
    rewrite list_lookup_fmap, Hd. simpl. by rewrite Hk.
  - unfold boolval. rewrite orb_true_iff, !bool_decide_eq_true. done.
  - intros He. split.
    + unfold boolval. by rewrite He.
    + intros val. unfold decodeField. rewrite name_fieldDescriptor. simpl.
      case_decide; [done|done].
  - apply FormValue_absent.
Qed.

(** C6, as the code has it.  On a coherent cache, for a struct schema
    whose fields all are exported, [parseForm] returns for every form: either
    an instance of the schema type, every field of which is a value of its
    declared kind (for the fixed-width integers a number within the width:
    the stores wrap around instead of panicking) and no conversion failed,
    or the error of the first field, in descriptor order, whose conversion
    fails.  (A field that is not exported makes the store panic: see the
    counterexample.) *)
Theorem parseForm_total_exported r st fs0 σ :
  coherent (formCache σ) ->
  Forall (fun d => reflect.exported d = true) (reflect.st_fields st) ->
  exists σ',
    (exists v,
        parseForm r (VStruct st fs0) σ = Returned (v, None) σ'
        /\ TypeOf v = reflect.TStruct st
        /\ wellTyped v
        /\ forall g e, g ∈ structFields st -> ~ parseFails r g e)
    \/ (exists e pre field post,
           parseForm r (VStruct st fs0) σ = Returned (VNil, Some e) σ'
           /\ structFields st = pre ++ field :: post
           /\ (forall g e', g ∈ pre -> ~ parseFails r g e')
           /\ parseFails r field e).
Proof.
  intros Hc Hex. destruct (parseForm_struct r st fs0 σ Hc) as (σ' & _ & ->).
  exists σ'.
  destruct (decodeFields r (structFields st) (zeroStruct st)) as [v|e|] eqn:Hdec.
  - left. exists v. split; [done|].
    pose proof (decodeFields_Next_no_failure _ _ _ _ Hdec) as Hnofail.
    rewrite structFields_imap in Hdec.
    apply decodeFields_struct_Next in Hdec as (ps & -> & Hlen & _ & Htyped & _); [|done].
    split; [done|]. split; [|done]. simpl.
    rewrite length_map in Hlen.
    apply Forall2_same_length_lookup_2; [done|].
    intros i d p Hd Hp.
    destruct (Htyped i d (zero_of (reflect.ft_kind (reflect.Typ d)))) as (p' & Hp' & Hk);
      [done|by rewrite list_lookup_fmap, Hd|apply zero_of_hasKind|].
    congruence.
  - right. apply decodeFields_ReturnErr in Hdec as (pre & f & post & Hsplit & Hpre & Hf).
    by exists e, pre, f, post.
  - exfalso. rewrite structFields_imap in Hdec.
    by apply decodeFields_struct_exported in Hdec.
Qed.

(** C9.  [parseForm] looks at the type of the schema only: two schema
    values of one type give the same run, whatever their fields hold.  The
    instance it returns has the type of the schema and is built by the
    decoding loop from the fresh zero value of that type.  (The schema is
    passed by value and is no part of what a run returns: there is nothing
    through which it could change.) *)
Theorem parseForm_schema_type_only r schema schema' σ :
  TypeOf schema' = TypeOf schema ->
  parseForm r schema' σ = parseForm r schema σ
  /\ forall v σ',
      parseForm r schema σ = Returned (v, None) σ' ->
      TypeOf v = TypeOf schema
      /\ exists fields val0,
          New_Elem (TypeOf schema) = Some val0
          /\ decodeFields r fields val0 = Next v.
Proof.
  intros Hty. split.
  - unfold parseForm. by rewrite Hty.
  - intros v σ' Hrun. split; [by eapply parseForm_TypeOf|].
    apply parseForm_inv in Hrun as (fields & val0 & _ & Hzero & Hloop).
    exists (slice_elems fields), val0. split; [done|].
    destruct (decodeFields _ _ _); [|by destruct Hloop|done].
    by destruct Hloop as [-> _].
Qed.

(** *** The writers *)

Lemma writeError_run e σ :
  writeError (Some e) σ
  = Returned tt
      (if decide (e = ErrNotFound)
       then setW σ (http.WriteHeader http.StatusNotFound (w σ))
       else setW (addEvents σ [LogPrintf "Unhandled error: %v" e])
                 (http.WriteHeader http.StatusInternalServerError (w σ))).
Proof. unfold writeError. by case_decide. Qed.

(** C2.  [writeError] on the sentinel writes status 404 and logs
    nothing; on any other error it writes status 500 and logs the error;
    a failure of [json.Marshal] in [writeResource] or [writeResourceList]
    is logged and answered with status 500.  None of them writes a byte
    of body: on a response not yet written to, the body stays empty. *)
Theorem error_responses (e : error) (status : Z) (res : Value) (list_ : slice Value) σ :
  w σ = http.newResponse ->
  (exists σ',
      writeError (Some e) σ = Returned tt σ'
      /\ http.body (w σ') = ""
      /\ hstate σ' = hstate σ
      /\ (e = ErrNotFound ->
          http.StatusCode (w σ') = 404 /\ events σ' = events σ)
      /\ (e <> ErrNotFound ->
          http.StatusCode (w σ') = 500
          /\ events σ' = events σ ++ [LogPrintf "Unhandled error: %v" e]))
  /\ (json_Marshal res = inr e ->
      exists σ',
        writeResource status res σ = Returned tt σ'
        /\ http.StatusCode (w σ') = 500 /\ http.body (w σ') = ""
        /\ events σ' = events σ ++ [LogPrintf "Failed to marshal resource to JSON: %v" e])
  /\ (json_Marshal_list list_ = inr e ->
      exists σ',
        writeResourceList status list_ σ = Returned tt σ'
        /\ http.StatusCode (w σ') = 500 /\ http.body (w σ') = ""
        /\ events σ' = events σ ++ [LogPrintf "Failed to marshal resource to JSON: %v" e]).
Proof.
  intros Hw. split; [|split].
  - rewrite writeError_run. eexists. split; [done|].
    case_decide as He; simpl; rewrite Hw; repeat split; try done.
  - intros Hm. unfold writeResource. rewrite Hm. run. unfold log_Printf, emit. simpl.
    eexists. split; [done|]. simpl. by rewrite Hw.
  - intros Hm. unfold writeResourceList. rewrite Hm. run. unfold log_Printf, emit. simpl.
    eexists. split; [done|]. simpl. by rewrite Hw.
Qed.

(** C10.  The status is 404 exactly for the sentinel itself: any other
    error value is answered with 500, and so is a second error made by
    [errors.New] with the very message of the sentinel. *)
Theorem not_found_by_identity (e : error) (addr : nat) σ :
  w σ = http.newResponse ->
  addr <> 0%nat ->
  (exists σ',
      writeError (Some e) σ = Returned tt σ'
      /\ (http.StatusCode (w σ') = 404 <-> e = ErrNotFound)
      /\ (e <> ErrNotFound -> http.StatusCode (w σ') = 500))
  /\ error_text (errors.New addr "Resource not found") = error_text ErrNotFound
  /\ errors.New addr "Resource not found" <> ErrNotFound
  /\ exists σ',
      writeError (Some (errors.New addr "Resource not found")) σ = Returned tt σ'
      /\ http.StatusCode (w σ') = 500.
Proof.
  intros Hw Haddr.
  assert (Hne : errors.New addr "Resource not found" <> ErrNotFound).
  { intros [= ?]. done. }
  split; [|split; [done|split; [done|]]].
  - rewrite writeError_run. eexists. split; [done|].
    case_decide as He; simpl; rewrite Hw; simpl; split; try done.
  - rewrite writeError_run. eexists. split; [done|].
    case_decide; [done|]. simpl. by rewrite Hw.
Qed.

(** *** The requests *)

Lemma call_run {A} ev (m : H A) σ :
  call ev m σ
  = Returned (m (hstate σ)).1
      {| formCache := formCache σ; w := w σ; hstate := (m (hstate σ)).2;
         events := events σ ++ [ev] |}.
Proof. unfold call. by destruct (m (hstate σ)). Qed.

Lemma marshalElems_Forall2 vs : forall outs,
  marshalElems vs = inl outs ->
  Forall2 (fun v out => json_Marshal v = inl out) vs outs.
Proof.
  induction vs as [|v vs IH]; intros outs; simpl.
  - intros [= <-]. constructor.
  - destruct (json_Marshal v) as [out|] eqn:Hv; [|done].
    destruct (marshalElems vs) as [outs'|]; [|done].
    intros [= <-]. constructor; [done|by apply IH].
Qed.

(** C7, as the code has it.  When [ListResource] returns a slice that is
    not nil, without error, and its elements encode, the answer is 200 and
    the body is the bracketed, comma-separated sequence of the encodings
    of the elements in the order of the slice; for the empty slice that is
    the two characters of the empty array.  When it returns the nil slice
    the body is [null]. *)
Theorem list_response (lister : Lister) (vs : list Value) (outs : list string)
    (h1 : HSt) σ :
  w σ = http.newResponse ->
  (ListResource lister (hstate σ) = ((Slice vs, None), h1) ->
   marshalElems vs = inl outs ->
   exists σ',
     listRequest lister σ = Returned tt σ'
     /\ http.StatusCode (w σ') = 200
     /\ http.body (w σ') = "[" +:+ joinComma outs +:+ "]"
     /\ Forall2 (fun v out => json_Marshal v = inl out) vs outs
     /\ (vs = [] -> http.body (w σ') = "[]"))
  /\ (ListResource lister (hstate σ) = ((nilSlice, None), h1) ->
      exists σ',
        listRequest lister σ = Returned tt σ'
        /\ http.StatusCode (w σ') = 200
        /\ http.body (w σ') = "null").
Proof.
  intros Hw. split.
  - intros Hlist Hm. unfold listRequest. run. rewrite call_run, Hlist. simpl.
    unfold writeResourceList, json_Marshal_list. rewrite Hm. run.
    eexists. split; [done|]. simpl. rewrite Hw. simpl.
    repeat split; [by apply marshalElems_Forall2|].
    intros ->. simpl in Hm. by injection Hm as <-.
  - intros Hlist. unfold listRequest. run. rewrite call_run, Hlist. simpl.
    eexists. split; [done|]. simpl. by rewrite Hw.
Qed.

(** *** Registration *)

(** [Add] makes the registrations of [requested], one after the other. *)
Lemma Add_register s schema handler :
  Add s schema handler = register (Some s) (requested schema handler).
Proof.
  unfold Add, requested, register.
  by destruct (asGetter handler), (asLister handler), (asCreator handler),
    (asUpdater handler), (asDeleter handler).
Qed.

Lemma register_None rts : register None rts = None.
Proof. by induction rts. Qed.

(** Registrations go through when the router accepts each of them on top
    of those before it, and panic otherwise. *)
Lemma register_accepted rts : forall s,
  register (Some s) rts
  = if accepted (routeKey <$> routes (router s)) (routeKey <$> rts)
    then Some {| router := {| routes := routes (router s) ++ rts;
                              NotFound := NotFound (router s) |} |}
    else None.
Proof.
  induction rts as [|rt rts IH]; intros [[rs nf]]; simpl.
  - by rewrite app_nil_r.
  - unfold Router_Handle. simpl.
    destruct (refuses (routeKey <$> rs) (method rt) (pattern rt)); simpl.
    + apply register_None.
    + fold (register
              (Some {| router := {| routes := rs ++ [{| method := method rt;
                                                        pattern := pattern rt;
                                                        handle := handle rt |}];
                                    NotFound := nf |} |}) rts).
      rewrite IH. simpl. rewrite fmap_app, <- app_assoc. by destruct rt.
Qed.

Lemma Add_accepted s schema handler :
  Add s schema handler
  = if accepted (routeKey <$> routes (router s)) (routeKey <$> requested schema handler)
    then Some {| router := {| routes := routes (router s) ++ requested schema handler;
                              NotFound := NotFound (router s) |} |}
    else None.
Proof. rewrite Add_register. apply register_accepted. Qed.

(** The routes of the server on which [Add] has returned: those it had,
    then those of the handler. *)
Lemma Add_routes s schema handler s' :
  Add s schema handler = Some s' ->
  routes (router s') = routes (router s) ++ requested schema handler.
Proof.
  rewrite Add_accepted. destruct (accepted _ _); [|done]. by intros [= <-].
Qed.

Lemma Add_NotFound s schema handler s' :
  Add s schema handler = Some s' ->
  NotFound (router s') = NotFound (router s).
Proof.
  rewrite Add_accepted. destruct (accepted _ _); [|done]. by intros [= <-].
Qed.

(** C1.  [Add] asks the router for these routes, in this order and for
    nothing else: [GET /P/:id] for a [Getter], wired to [getRequest];
    [GET /P] for a [Lister], wired to [listRequest]; [POST /P] and [PUT /P]
    for a [Creator], both wired to the one create handle; [POST /P/:id] for
    an [Updater], wired to the update handle; [DELETE /P/:id] for a
    [Deleter], wired to [deleteRequest].  When the router accepts each of
    them, [Add] returns, and the server holds the routes it had followed by
    these, with its not-found handler in place; when the router refuses one
    of them, [Add] panics.  For a handler that is none of the five there is
    nothing to refuse: [Add] returns and leaves the server as it was; on a
    new server every request then gets what the not-found handler answers,
    404 without a body. *)
Theorem Add_registers s schema handler :
  let P := Path handler in
  exists asked,
    routeKey <$> asked
    = (if asGetter handler is Some _ then [(http.GET, "/" +:+ P +:+ "/:id")] else [])
      ++ (if asLister handler is Some _ then [(http.GET, "/" +:+ P)] else [])
      ++ (if asCreator handler is Some _
          then [(http.POST, "/" +:+ P); (http.PUT, "/" +:+ P)] else [])
      ++ (if asUpdater handler is Some _ then [(http.POST, "/" +:+ P +:+ "/:id")] else [])
      ++ (if asDeleter handler is Some _ then [(http.DELETE, "/" +:+ P +:+ "/:id")] else [])
    /\ (forall getter, asGetter handler = Some getter ->
        {| method := http.GET; pattern := "/" +:+ P +:+ "/:id";
           handle := fun r ps => getRequest (ByName ps "id") getter |} ∈ asked)
    /\ (forall lister, asLister handler = Some lister ->
        {| method := http.GET; pattern := "/" +:+ P;
           handle := fun r ps => listRequest lister |} ∈ asked)
    /\ (forall creator, asCreator handler = Some creator ->
        {| method := http.POST; pattern := "/" +:+ P;
           handle := createHandle schema creator |} ∈ asked
        /\ {| method := http.PUT; pattern := "/" +:+ P;
              handle := createHandle schema creator |} ∈ asked)
    /\ (forall updater, asUpdater handler = Some updater ->
        {| method := http.POST; pattern := "/" +:+ P +:+ "/:id";
           handle := updateHandle schema updater |} ∈ asked)
    /\ (forall deleter, asDeleter handler = Some deleter ->
        {| method := http.DELETE; pattern := "/" +:+ P +:+ "/:id";
           handle := fun r ps => deleteRequest (ByName ps "id") deleter |} ∈ asked)
    /\ (accepted (routeKey <$> routes (router s)) (routeKey <$> asked) = true ->
        Add s schema handler
        = Some {| router := {| routes := routes (router s) ++ asked;
                               NotFound := NotFound (router s) |} |})
    /\ (accepted (routeKey <$> routes (router s)) (routeKey <$> asked) = false ->
        Add s schema handler = None)
    /\ (asGetter handler = None -> asLister handler = None ->
        asCreator handler = None -> asUpdater handler = None ->
        asDeleter handler = None ->
        asked = []
        /\ Add s schema handler = Some s
        /\ Add New schema handler = Some New
        /\ routes (router New) = []
        /\ forall r σ,
            ServeHTTP New r σ
            = Returned tt (setW σ (http.WriteHeader http.StatusNotFound (w σ)))).
Proof.
  intros P. exists (requested schema handler). split.
  { unfold requested.
    by destruct (asGetter handler), (asLister handler), (asCreator handler),
      (asUpdater handler), (asDeleter handler). }
  unfold requested at 1 2 3 4 5 6.
  split; [|split; [|split; [|split; [|split; [|split; [|split]]]]]].
  - intros getter ->. apply elem_of_app. left. listed.
  - intros lister ->. apply elem_of_app. right. apply elem_of_app. left. listed.
  - intros creator ->.
    split; do 2 (apply elem_of_app; right); apply elem_of_app; left; listed.
  - intros updater ->. do 3 (apply elem_of_app; right). apply elem_of_app. left. listed.
  - intros deleter ->. do 4 (apply elem_of_app; right). listed.
  - intros Hacc. by rewrite Add_accepted, Hacc.
  - intros Hacc. by rewrite Add_accepted, Hacc.
  - intros Hg Hl Hc Hu Hd.
    assert (Hnone : requested schema handler = []).
    { unfold requested. by rewrite Hg, Hl, Hc, Hu, Hd. }
    assert (Hsame : forall s0, Add s0 schema handler = Some s0).
    { intros [[rs nf]]. rewrite Add_accepted, Hnone. simpl. by rewrite app_nil_r. }
    split; [done|]. split; [done|]. split; [done|]. split; [done|].
    intros r σ. unfold ServeHTTP, Router_ServeHTTP. simpl. by rewrite andb_false_r.
Qed.

Lemma write_routes schema handler s rt :
  Add New schema handler = Some s ->
  rt ∈ routes (router s) ->
  method rt = http.POST \/ method rt = http.PUT ->
  (exists creator, asCreator handler = Some creator
                   /\ pattern rt = "/" +:+ Path handler
                   /\ handle rt = createHandle schema creator)
  \/ (exists updater, asUpdater handler = Some updater
                      /\ method rt = http.POST
                      /\ pattern rt = "/" +:+ Path handler +:+ "/:id"
                      /\ handle rt = updateHandle schema updater).
Proof.
  intros Hadd. rewrite (Add_routes _ _ _ _ Hadd). unfold requested. simpl.
  intros Hin Hm.
  repeat (apply elem_of_app in Hin as [Hin|Hin]).
  - destruct (asGetter handler); [|by apply elem_of_nil in Hin].
    apply list_elem_of_singleton in Hin as ->. simpl in Hm. by destruct Hm.
  - destruct (asLister handler); [|by apply elem_of_nil in Hin].
    apply list_elem_of_singleton in Hin as ->. simpl in Hm. by destruct Hm.
  - destruct (asCreator handler) as [creator|]; [|by apply elem_of_nil in Hin].
    left. exists creator.
    apply elem_of_cons in Hin as [->|Hin]; [done|].
    by apply list_elem_of_singleton in Hin as ->.
  - destruct (asUpdater handler) as [updater|]; [|by apply elem_of_nil in Hin].
    right. exists updater. by apply list_elem_of_singleton in Hin as ->.
  - destruct (asDeleter handler); [|by apply elem_of_nil in Hin].
    apply list_elem_of_singleton in Hin as ->. simpl in Hm. by destruct Hm.
Qed.

(** C3.  On every route that [Add] registers for POST or PUT (the create
    routes [POST /P] and [PUT /P] and the update route [POST /P/:id]): when
    [parseForm] returns an error, the error is that of the first field, in
    descriptor order, whose numeric conversion fails; it is not the
    sentinel; the route does what [writeError] does with it, which is to
    log it and answer 500; and no call is made into the handler, whose
    state is left as it was. *)
Theorem decode_error_500 schema handler s rt r ps σ v e σ1 :
  coherent (formCache σ) ->
  Add New schema handler = Some s ->
  rt ∈ routes (router s) ->
  method rt = http.POST \/ method rt = http.PUT ->
  parseForm r schema σ = Returned (v, Some e) σ1 ->
  (exists st pre field post,
      TypeOf schema = reflect.TStruct st
      /\ structFields st = pre ++ field :: post
      /\ (forall g e', g ∈ pre -> ~ parseFails r g e')
      /\ parseFails r field e)
  /\ e <> ErrNotFound
  /\ handle rt r ps σ = writeError (Some e) σ1
  /\ exists σ2,
      handle rt r ps σ = Returned tt σ2
      /\ w σ2 = http.WriteHeader http.StatusInternalServerError (w σ)
      /\ hstate σ2 = hstate σ
      /\ events σ2 = events σ1 ++ [LogPrintf "Unhandled error: %v" e]
      /\ calls (events σ2) = calls (events σ)
      /\ (w σ = http.newResponse ->
          http.StatusCode (w σ2) = 500 /\ http.body (w σ2) = "").
Proof.
  intros Hc Hadd Hin Hm Hpf.
  destruct (parseForm_Returned_struct _ _ _ _ _ _ Hc Hpf) as (st & fs0 & ->).
  destruct (getSchemaFields_struct st σ Hc) as (σ' & Hget & _ & _ & Hw & Hh & _ & Hev).
  destruct (parseForm_struct r st fs0 σ Hc) as (σ'' & Hget' & Hpf').
  rewrite Hget in Hget'. injection Hget' as <-.
  rewrite Hpf in Hpf'.
  destruct (decodeFields r (structFields st) (zeroStruct st)) as [|e0|] eqn:Hdec;
    [done| |done].
  injection Hpf' as -> ->. subst σ1.
  apply decodeFields_ReturnErr in Hdec as (pre & f & post & Hsplit & Hpre & Hf).
  assert (Hne : e0 <> ErrNotFound).
  { destruct Hf as [_ [(_ & k & _ & ->)|[(_ & k & _ & ->)|(_ & k & _ & ->)]]]; done. }
  assert (Hrun : handle rt r ps σ = writeError (Some e0) σ').
  { destruct (write_routes _ _ _ _ Hadd Hin Hm)
      as [(creator & _ & _ & ->)|(updater & _ & _ & _ & ->)].
    - unfold createHandle. by rewrite (bind_Returned _ _ _ _ _ Hpf).
    - unfold updateHandle. by rewrite (bind_Returned _ _ _ _ _ Hpf). }
  split; [by exists st, pre, f, post|]. split; [done|]. split; [done|].
  rewrite Hrun, writeError_run. eexists. split; [done|].
  case_decide; [done|]. simpl. rewrite Hw, Hh.
  split; [done|]. split; [done|]. split; [done|]. split.
  - unfold calls. rewrite List.filter_app. simpl. rewrite app_nil_r.
    destruct Hev as [[_ ->]|[_ ->]]; [done|].
    rewrite List.filter_app. simpl. by rewrite app_nil_r.
  - by intros ->.
Qed.

(** ** Further properties *)

(** *** The numbers that the parsers return *)

Lemma uintLoop_bounds s : forall n0 n,
  0 <= n0 <= strconv.maxUint64 ->
  strconv.uintLoop s n0 = inl n ->
  0 <= n <= strconv.maxUint64.
Proof.
  induction s as [|c s IH]; intros n0 n Hn0; simpl.
  - by intros [= <-].
  - destruct (negb (strconv.is_digit c)); [done|].
    destruct (strconv.cutoff10 <=? n0); [done|].
    destruct (_ || _) eqn:Hover; [done|].
    apply orb_false_iff in Hover as [_ Hmax]. apply Z.ltb_ge in Hmax.
    apply IH. split; [|done].
    apply Z.mod_pos_bound. done.
Qed.

Lemma ParseUint_bounds s n : strconv.ParseUint s = inl n -> 0 <= n < 2 ^ 64.
Proof.
  unfold strconv.ParseUint. case_decide; [done|].
  intros Hloop. apply uintLoop_bounds in Hloop; [|done].
  unfold strconv.maxUint64 in Hloop. lia.
Qed.

Lemma ParseInt_bounds s n : strconv.ParseInt s = inl n -> - 2 ^ 63 <= n < 2 ^ 63.
Proof.
  unfold strconv.ParseInt. destruct s as [|c s]; [done|].
  destruct (strconv.ParseUint _) as [un|[]] eqn:Hun; [|done|done].
  apply ParseUint_bounds in Hun.
  destruct (bool_decide (c = "-"%char)); simpl.
  - destruct (2 ^ 63 <? un) eqn:Hcut; [done|]. apply Z.ltb_ge in Hcut.
    intros [= <-]. lia.
  - destruct (2 ^ 63 <=? un) eqn:Hcut; [done|]. apply Z.leb_gt in Hcut.
    intros [= <-]. lia.
Qed.

Lemma wrap_signed_fits b x :
  0 < b -> - 2 ^ (b - 1) <= x < 2 ^ (b - 1) -> wrap_signed b x = x.
Proof.
  intros Hb Hx. unfold wrap_signed.
  assert (H2 : 2 ^ b = 2 * 2 ^ (b - 1)).
  { rewrite <- Z.pow_succ_r by lia. f_equal. lia. }
  rewrite Z.mod_small by lia. lia.
Qed.

Lemma wrap_unsigned_fits b x : 0 <= x < 2 ^ b -> wrap_unsigned b x = x.
Proof. intros Hx. unfold wrap_unsigned. by apply Z.mod_small. Qed.

(** *** What the decoder leaves in every field *)

Lemma decodeField_struct_decoded r st fs i d val' :
  reflect.st_fields st !! i = Some d ->
  fs !! i = Some (zero_of (reflect.ft_kind (reflect.Typ d))) ->
  decodeField r (VStruct st fs) (fieldDescriptor i d) = Next val' ->
  exists p, val' = VStruct st (<[i := p]> fs) /\ decoded r d p.
Proof.
  intros Hd Hz. unfold decodeField, decoded. rewrite name_fieldDescriptor. simpl.
  assert (Hset : forall set p0 k,
    reflect.ft_kind (reflect.Typ d) = k ->
    set k = Some p0 ->
    setField (VStruct st fs) (fieldDescriptor i d) set = Next val' ->
    val' = VStruct st (<[i := p0]> fs)).
  { intros set p0 k <- Hp. rewrite (setField_struct _ _ _ _ _ Hd).
    destruct (reflect.exported d); [|done]. rewrite Hp. by intros [= <-]. }
  destruct (decide (http.FormValue r (wireName d) = "")) as [He|Hne].
  - case_decide; [done|]. intros [= <-]. eexists. split; [|done].
    by rewrite list_insert_id.
  - case_decide; [|done].
    destruct (reflect.ft_kind (reflect.Typ d)) eqn:Hk;
      try (intros [= <-]; eexists; split; [by rewrite list_insert_id|done]);
      try (destruct (strconv.ParseInt _) as [n|] eqn:Hp; [|done]);
      try (destruct (strconv.ParseUint _) as [n|] eqn:Hp; [|done]);
      try (destruct (ParseFloat _) as [n|] eqn:Hp; [|done]);
      intros Hstep;
      (eexists; split; [apply (Hset _ _ _ eq_refl eq_refl Hstep)|]; by eauto).
Qed.

Lemma decodeFields_struct_decoded r st : forall l k fs val',
  drop k (reflect.st_fields st) = l ->
  (forall j d, (k <= j)%nat -> reflect.st_fields st !! j = Some d ->
               fs !! j = Some (zero_of (reflect.ft_kind (reflect.Typ d)))) ->
  decodeFields r (imap (fun j => fieldDescriptor (k + j)) l) (VStruct st fs) = Next val' ->
  exists fs',
    val' = VStruct st fs'
    /\ length fs' = length fs
    /\ (forall j, (j < k)%nat -> fs' !! j = fs !! j)
    /\ (forall j d, (k <= j)%nat -> reflect.st_fields st !! j = Some d ->
        exists p, fs' !! j = Some p /\ decoded r d p).
Proof.
  induction l as [|d l IH]; intros k fs val' Hdrop Hzero; simpl.
  - intros [= <-]. exists fs. repeat split; try done.
    intros j d0 Hj Hd. apply lookup_lt_Some in Hd.
    assert (Hlen : length (drop k (reflect.st_fields st)) = 0%nat) by by rewrite Hdrop.
    rewrite length_drop in Hlen. lia.
  - assert (Hd : reflect.st_fields st !! k = Some d).
    { rewrite <- (Nat.add_0_r k), <- lookup_drop, Hdrop. done. }
    rewrite Nat.add_0_r.
    destruct (decodeField r (VStruct st fs) (fieldDescriptor k d)) as [val1| |] eqn:Hstep;
      [|done|done].
    destruct (decodeField_struct_decoded _ _ _ _ _ _ Hd (Hzero k d (le_n k) Hd) Hstep)
      as (p & -> & Hp).
    rewrite (imap_ext _ (fun j => fieldDescriptor (S k + j)));
      [|intros j x _; simpl; f_equal; lia].
    intros Hrest. apply IH in Hrest as (fs' & -> & Hlen & Hlow & Hhigh).
    + exists fs'. split; [done|]. split; [by rewrite Hlen, length_insert|]. split.
      * intros j Hj. rewrite Hlow by lia. apply list_lookup_insert_ne. lia.
      * intros j d0 Hj Hd0. destruct (decide (j = k)) as [->|Hne].
        -- rewrite Hd in Hd0. injection Hd0 as <-. exists p. split; [|done].
           rewrite Hlow by lia. apply list_lookup_insert_eq.
           eapply lookup_lt_Some, Hzero; done.
        -- apply Hhigh; [lia|done].
    + rewrite (drop_S _ _ _ Hd) in Hdrop. by injection Hdrop.
    + intros j d0 Hj Hd0. rewrite list_lookup_insert_ne by lia. apply Hzero; [lia|done].
Qed.

(** The fields of the instance that the loop of [parseForm] has filled. *)
Lemma parseForm_fields r schema σ v σ' st :
  coherent (formCache σ) ->
  parseForm r schema σ = Returned (v, None) σ' ->
  TypeOf schema = reflect.TStruct st ->
  exists ps,
    v = VStruct st ps
    /\ length ps = length (reflect.st_fields st)
    /\ forall i d, reflect.st_fields st !! i = Some d ->
         exists p, ps !! i = Some p /\ decoded r d p.
Proof.
  intros Hc Hrun Hty.
  destruct schema as [|st' fs0|]; try done. injection Hty as ->.
  destruct (parseForm_struct r st fs0 σ Hc) as (σ1 & _ & Hpf).
  rewrite Hpf in Hrun.
  destruct (decodeFields r (structFields st) (zeroStruct st)) as [val'| |] eqn:Hdec;
    [|done|done].
  injection Hrun as -> <-.
  rewrite structFields_imap in Hdec.
  apply decodeFields_struct_decoded in Hdec as (ps & -> & Hlen & _ & Hall); [|done|].
  - exists ps. split; [done|]. split; [by rewrite Hlen, length_map|].
    intros i d Hd. apply Hall; [lia|done].
  - intros j d _ Hd. by rewrite list_lookup_fmap, Hd.
Qed.

(** X1.  The instance that [parseForm] returns has one field per declared
    field, and each holds what the switch makes of the form value under the
    wire name of that field and of nothing else: fields do not disturb each
    other, and a field without form value or without a case in the switch
    holds its zero value. *)
Theorem parseForm_decodes r schema σ v σ' st :
  coherent (formCache σ) ->
  parseForm r schema σ = Returned (v, None) σ' ->
  TypeOf schema = reflect.TStruct st ->
  exists ps,
    v = VStruct st ps
    /\ length ps = length (reflect.st_fields st)
    /\ forall i d, reflect.st_fields st !! i = Some d ->
         exists p, ps !! i = Some p /\ decoded r d p.
Proof. exact (parseForm_fields r schema σ v σ' st). Qed.

(** X2.  An integer field with a form value holds the number the form
    value parses to, brought to the width of the field: a number that fits
    the width is stored as it is, which every parsed number does for the
    64-bit kinds; one that does not fit is stored wrapped around, and no
    error is returned for it. *)
Theorem parseForm_integer_field r schema σ v σ' st i d :
  coherent (formCache σ) ->
  parseForm r schema σ = Returned (v, None) σ' ->
  TypeOf schema = reflect.TStruct st ->
  reflect.st_fields st !! i = Some d ->
  http.FormValue r (wireName d) <> "" ->
  let k := reflect.ft_kind (reflect.Typ d) in
  exists ps,
    v = VStruct st ps
    /\ (k ∈ [reflect.Int; reflect.Int8; reflect.Int16; reflect.Int32; reflect.Int64] ->
        exists n m,
          strconv.ParseInt (http.FormValue r (wireName d)) = inl n
          /\ ps !! i = Some (PInt m)
          /\ m = wrap_signed (intBits k) n
          /\ - 2 ^ (intBits k - 1) <= m < 2 ^ (intBits k - 1)
          /\ (- 2 ^ (intBits k - 1) <= n < 2 ^ (intBits k - 1) -> m = n)
          /\ (intBits k = 64 -> m = n))
    /\ (k ∈ [reflect.Uint; reflect.Uint8; reflect.Uint16; reflect.Uint32; reflect.Uint64] ->
        exists n m,
          strconv.ParseUint (http.FormValue r (wireName d)) = inl n
          /\ ps !! i = Some (PUint m)
          /\ m = wrap_unsigned (intBits k) n
          /\ 0 <= m < 2 ^ intBits k
          /\ (0 <= n < 2 ^ intBits k -> m = n)
          /\ (intBits k = 64 -> m = n)).
Proof.
  intros Hc Hrun Hty Hd Hne k.
  destruct (parseForm_fields _ _ _ _ _ _ Hc Hrun Hty) as (ps & -> & _ & Hall).
  destruct (Hall i d Hd) as (p & Hp & Hdec).
  unfold decoded in Hdec. case_decide; [done|].
  exists ps. split; [done|]. fold k in Hdec. split; intros Hk.
  - assert (Hb : 0 < intBits k).
    { destruct k; try not_listed Hk; simpl; unfold strconv.IntSize; lia. }
    assert (exists n, strconv.ParseInt (http.FormValue r (wireName d)) = inl n
                      /\ p = PInt (wrap_signed (intBits k) n)) as (n & Hn & ->).
    { destruct k; try not_listed Hk; done. }
    exists n, (wrap_signed (intBits k) n).
    split; [done|]. split; [done|]. split; [done|].
    split; [by apply wrap_signed_range|]. split.
    + by apply wrap_signed_fits.
    + intros H64. apply wrap_signed_fits; [done|]. rewrite H64.
      by apply ParseInt_bounds in Hn.
  - assert (Hb : 0 <= intBits k).
    { destruct k; try not_listed Hk; simpl; unfold strconv.IntSize; lia. }
    assert (exists n, strconv.ParseUint (http.FormValue r (wireName d)) = inl n
                      /\ p = PUint (wrap_unsigned (intBits k) n)) as (n & Hn & ->).
    { destruct k; try not_listed Hk; done. }
    exists n, (wrap_unsigned (intBits k) n).
    split; [done|]. split; [done|]. split; [done|].
    split; [by apply wrap_unsigned_range|]. split.
    + by apply wrap_unsigned_fits.
    + intros H64. apply wrap_unsigned_fits. rewrite H64.
      by apply ParseUint_bounds in Hn.
Qed.

Lemma decodeFields_no_values r fields : forall val,
  Forall (fun f => http.FormValue r (name f) = "") fields ->
  decodeFields r fields val = Next val.
Proof.
  induction fields as [|f fields IH]; intros val Hall; simpl; [done|].
  apply Forall_cons in Hall as [Hf Hall].
  unfold decodeField. simpl. case_decide; [done|]. by apply IH.
Qed.

(** X3.  When the form has no value under any wire name of the schema,
    [parseForm] returns the zero value of the schema type, whatever the
    kinds of the fields and whether they are exported or not: it does not
    panic and returns no error. *)
Theorem parseForm_no_values r st fs0 σ :
  coherent (formCache σ) ->
  (forall d, d ∈ reflect.st_fields st -> http.FormValue r (wireName d) = "") ->
  exists σ', parseForm r (VStruct st fs0) σ = Returned (zeroStruct st, None) σ'.
Proof.
  intros Hc Hall. destruct (parseForm_struct r st fs0 σ Hc) as (σ' & _ & ->).
  exists σ'. rewrite decodeFields_no_values; [done|].
  apply Forall_forall. intros f Hf. unfold structFields in Hf.
  apply elem_of_lookup_imap_1 in Hf as (i & d & -> & Hd).
  rewrite name_fieldDescriptor. apply Hall. by eapply list_elem_of_lookup_2.
Qed.

(** *** What [getSchemaFields] and [parseForm] touch *)

Lemma getSchemaFields_frame t σ fields err σ' :
  getSchemaFields t σ = Returned (fields, err) σ' ->
  err = None
  /\ fields <> nilSlice
  /\ formCache σ' t = fields
  /\ w σ' = w σ /\ hstate σ' = hstate σ
  /\ ((formCache σ t <> nilSlice /\ σ' = σ)
      \/ (formCache σ t = nilSlice
          /\ describeFields t = Some (slice_elems fields)
          /\ events σ' = events σ ++ [CacheStore t]
          /\ forall t', t' <> t -> formCache σ' t' = formCache σ t')).
Proof.
  unfold getSchemaFields, cacheRead. run.
  destruct (formCache σ t) as [|cached] eqn:Hhit; simpl.
  - destruct (describeFields t) as [computed|]; simpl; [|done].
    unfold cacheWrite. simpl. intros [= <- <- <-]. simpl.
    split; [done|]. split; [done|]. split.
    { unfold cache_store. by case_decide. }
    split; [done|]. split; [done|]. right. repeat split.
    intros t' Hne. unfold cache_store. by case_decide.
  - intros [= <- <- <-]. rewrite Hhit. repeat split; try done. by left.
Qed.

(** X4.  [getSchemaFields] never returns an error, and never the nil
    slice: what it returns is what the cache holds for the type when it has
    returned.  It panics exactly when the cache holds nothing for the type
    and the type is not a struct type. *)
Theorem getSchemaFields_outcome t σ :
  (forall fields err σ',
      getSchemaFields t σ = Returned (fields, err) σ' ->
      err = None /\ fields <> nilSlice /\ formCache σ' t = fields)
  /\ (getSchemaFields t σ = Panicked <->
      formCache σ t = nilSlice /\ forall st, t <> reflect.TStruct st).
Proof.
  split.
  - intros fields err σ' Hrun.
    by destruct (getSchemaFields_frame _ _ _ _ _ Hrun) as (? & ? & ? & _).
  - unfold getSchemaFields, cacheRead. run.
    destruct (formCache σ t) as [|cached] eqn:Hhit; simpl.
    + destruct t as [|st|ft]; simpl.
      * split; [by intros _|done].
      * rewrite describeFields_struct. simpl. split; [done|].
        intros [_ Hst]. by destruct (Hst st).
      * split; [by intros _|done].
    + split; [done|]. by intros [? _].
Qed.

(** What a run of [parseForm] returns and what it leaves of the world. *)
Lemma parseForm_effects r schema σ v err σ' :
  parseForm r schema σ = Returned (v, err) σ' ->
  ((err = None /\ v <> VNil) \/ (v = VNil /\ exists e, err = Some e))
  /\ w σ' = w σ
  /\ hstate σ' = hstate σ
  /\ (forall t, t <> TypeOf schema -> formCache σ' t = formCache σ t)
  /\ ((formCache σ' = formCache σ /\ events σ' = events σ)
      \/ (formCache σ (TypeOf schema) = nilSlice
          /\ events σ' = events σ ++ [CacheStore (TypeOf schema)])).
Proof.
  intros Hrun.
  assert (Hshape : (err = None /\ v <> VNil) \/ (v = VNil /\ exists e, err = Some e)).
  { destruct err as [e|].
    - right. apply parseForm_inv in Hrun as (fields & val0 & _ & _ & Hloop).
      destruct (decodeFields _ _ _); [by destruct Hloop| |done].
      destruct Hloop as [-> _]. eauto.
    - left. split; [done|]. intros ->.
      pose proof (parseForm_TypeOf _ _ _ _ _ Hrun) as Hty.
      apply parseForm_inv in Hrun as (fields & val0 & _ & Hzero & _).
      rewrite <- Hty in Hzero. done. }
  apply parseForm_inv in Hrun as (fields & val0 & Hget & _ & _).
  destruct (getSchemaFields_frame _ _ _ _ _ Hget)
    as (_ & _ & _ & Hw & Hh & [[_ ->]|(Hmiss & _ & Hev & Hother)]).
  - repeat split; try done. by left.
  - repeat split; try done. by right.
Qed.

(** X5.  [parseForm] returns an instance without error or the nil value
    with an error, never both and never neither.  It writes nothing to the
    response, leaves the state of the handler alone, makes no call into
    the handler and logs nothing; all it changes is the cache entry of the
    type of the schema, which it stores at most once, when the cache held
    nothing for the type. *)
Theorem parseForm_frame r schema σ v err σ' :
  parseForm r schema σ = Returned (v, err) σ' ->
  ((err = None /\ v <> VNil) \/ (v = VNil /\ exists e, err = Some e))
  /\ w σ' = w σ
  /\ hstate σ' = hstate σ
  /\ (forall t, t <> TypeOf schema -> formCache σ' t = formCache σ t)
  /\ ((formCache σ' = formCache σ /\ events σ' = events σ)
      \/ (formCache σ (TypeOf schema) = nilSlice
          /\ events σ' = events σ ++ [CacheStore (TypeOf schema)])).
Proof. exact (parseForm_effects r schema σ v err σ'). Qed.

(** X6.  With a schema that is not a struct value (nil, a pointer, a
    number), on a coherent cache, [parseForm] panics for every request, and
    so do the handles of the create and update routes, before any call into
    the handler. *)
Theorem non_struct_schema_panics r ps schema (creator : Creator) (updater : Updater) σ :
  coherent (formCache σ) ->
  (forall st, TypeOf schema <> reflect.TStruct st) ->
  parseForm r schema σ = Panicked
  /\ createHandle schema creator r ps σ = Panicked
  /\ updateHandle schema updater r ps σ = Panicked.
Proof.
  intros Hc Hns.
  assert (Hpf : parseForm r schema σ = Panicked).
  { destruct (parseForm r schema σ) as [[v err] σ'|] eqn:Hrun; [|done].
    destruct (parseForm_Returned_struct _ _ _ _ _ _ Hc Hrun) as (st & fs0 & ->).
    by destruct (Hns st). }
  split; [done|]. unfold createHandle, updateHandle. run. by rewrite Hpf.
Qed.

(** X7.  A second [parseForm] with the schema of an earlier one finds the
    descriptors in the cache: whatever the request, it leaves the world
    exactly as it found it; and for the same request it returns what the
    first call returned. *)
Theorem parseForm_again r schema σ v err σ1 :
  coherent (formCache σ) ->
  parseForm r schema σ = Returned (v, err) σ1 ->
  parseForm r schema σ1 = Returned (v, err) σ1
  /\ forall r2 v2 err2 σ2,
      parseForm r2 schema σ1 = Returned (v2, err2) σ2 -> σ2 = σ1.
Proof.
  intros Hc Hrun.
  destruct (parseForm_Returned_struct _ _ _ _ _ _ Hc Hrun) as (st & fs0 & ->).
  destruct (parseForm_struct r st fs0 σ Hc) as (σ' & Hget & Hpf).
  assert (σ' = σ1) as ->.
  { rewrite Hpf in Hrun. destruct (decodeFields _ _ _); [| |done]; by injection Hrun. }
  destruct (getSchemaFields_struct st σ Hc) as (σ'' & Hget' & Hc1 & Hin & _).
  rewrite Hget in Hget'. injection Hget' as <-.
  assert (Hhit : forall σ2 fields,
    getSchemaFields (reflect.TStruct st) σ1 = Returned (fields, None) σ2 -> σ2 = σ1).
  { intros σ2 fields Hg. apply getSchemaFields_frame in Hg
      as (_ & _ & _ & _ & _ & [[_ ->]|(Hmiss & _)]); [done|].
    rewrite Hin in Hmiss. done. }
  split.
  - destruct (parseForm_struct r st fs0 σ1 Hc1) as (σ2 & Hget2 & ->).
    rewrite (Hhit _ _ Hget2). by rewrite <- Hpf.
  - intros r2 v2 err2 σ2 Hrun2.
    apply parseForm_inv in Hrun2 as (fields & val0 & Hget2 & _). by eapply Hhit.
Qed.

(** *** The descriptors and their wire names *)

(** X8.  On a coherent cache [getSchemaFields] returns, for a struct type,
    one descriptor per declared field, in declaration order and with none
    left out, whatever its kind and whether it is exported or not; the
    [i]-th descriptor carries the type of the [i]-th field and the index
    path that leads to that very field: a store through it replaces the
    [i]-th field and no other, and panics when the field is not exported. *)
Theorem getSchemaFields_descriptors st σ :
  coherent (formCache σ) ->
  exists fields σ',
    getSchemaFields (reflect.TStruct st) σ = Returned (Slice fields, None) σ'
    /\ length fields = length (reflect.st_fields st)
    /\ forall i d, reflect.st_fields st !! i = Some d ->
         exists f,
           fields !! i = Some f
           /\ index f = [i]
           /\ typ f = reflect.Typ d
           /\ name f = wireName d
           /\ forall fs p,
               FieldByIndex_Set (VStruct st fs) (index f) (fun _ => Some p)
               = if reflect.exported d then Some (VStruct st (<[i := p]> fs)) else None.
Proof.
  intros Hc. destruct (getSchemaFields_struct st σ Hc) as (σ' & Hget & _).
  exists (structFields st), σ'. split; [done|]. unfold structFields.
  split; [apply length_imap|].
  intros i d Hd. exists (fieldDescriptor i d).
  split; [by rewrite list_lookup_imap, Hd|]. repeat split.
  intros fs p. unfold FieldByIndex_Set. simpl. rewrite Hd.
  by destruct (reflect.exported d).
Qed.

Lemma index_comma_cons c s :
  String.index 0 "," (String c s)
  = if decide (c = ","%char) then Some 0%nat
    else match String.index 0 "," s with Some n => Some (S n) | None => None end.
Proof.
  change (String.index 0 "," (String c s))
    with (if String.prefix "," (String c s) then Some 0%nat
          else match String.index 0 "," s with Some n => Some (S n) | None => None end).
  change (String.prefix "," (String c s))
    with (match ascii_dec "," c with
          | left _ => String.prefix "" s
          | right _ => false
          end).
  destruct (ascii_dec "," c) as [Heq|Hne]; case_decide; try congruence.
  by destruct s.
Qed.

Lemma index_comma_free s : commaFree s = true -> String.index 0 "," s = None.
Proof.
  induction s as [|c s IH]; [done|].
  intros [Hc Hs]%andb_true_iff. apply negb_true_iff, bool_decide_eq_false in Hc.
  rewrite index_comma_cons. case_decide; [done|]. by rewrite IH.
Qed.

Lemma index_first_comma pre rest :
  commaFree pre = true ->
  String.index 0 "," (pre +:+ "," +:+ rest) = Some (String.length pre)
  /\ String.substring 0 (String.length pre) (pre +:+ "," +:+ rest) = pre.
Proof.
  induction pre as [|c pre IH].
  - intros _. split; [|by destruct rest].
    change ("" +:+ "," +:+ rest) with (String "," rest).
    rewrite index_comma_cons. by case_decide.
  - intros [Hc Hs]%andb_true_iff. apply negb_true_iff, bool_decide_eq_false in Hc.
    destruct (IH Hs) as [Hi Hsub].
    change (String c pre +:+ "," +:+ rest) with (String c (pre +:+ "," +:+ rest)).
    rewrite index_comma_cons. case_decide; [done|].
    rewrite Hi. split; [done|]. simpl. by rewrite Hsub.
Qed.

(** X9.  The wire name of a field is its declared name when it has no
    [json] tag (or an empty one); the tag itself when the tag has no comma;
    and otherwise the part of the tag before its first comma, which is the
    empty name when the tag starts with a comma. *)
Theorem wireName_cases d :
  let tag := reflect.Tag_Get (reflect.Tag d) "json" in
  (tag = "" -> wireName d = reflect.Name d)
  /\ (tag <> "" -> commaFree tag = true -> wireName d = tag)
  /\ (forall pre rest,
        tag = pre +:+ "," +:+ rest -> commaFree pre = true -> wireName d = pre).
Proof.
  intros tag. subst tag. unfold wireName, fieldDescriptor, describeField. simpl.
  split; [|split].
  - intros ->. by case_decide.
  - intros Hne Hfree. case_decide; [|done]. by rewrite index_comma_free.
  - intros pre rest Htag Hfree. case_decide as Hne.
    + destruct (index_first_comma pre rest Hfree) as [Hi Hsub].
      by rewrite Htag, Hi, Hsub.
    + rewrite Htag in Hne. by destruct pre.
Qed.

(** *** The routes of one resource *)

Lemma append_longer (s t : string) : t <> "" -> s +:+ t <> s.
Proof.
  intros Ht. induction s as [|c s IH]; simpl; [done|].
  intros [= Heq]. by apply IH.
Qed.

(** X10.  Every route that [Add] registers on the pattern [/P/:id], for
    whichever method, belongs to a handler that is a [Getter], so that
    [GET /P/:id] is registered beside it: a handler cannot expose update or
    delete of a resource without exposing the fetch of it, and one without
    [GetResource] gets no route on [/P/:id] at all. *)
Theorem id_routes_need_Getter schema handler s rt :
  Add New schema handler = Some s ->
  rt ∈ routes (router s) ->
  pattern rt = "/" +:+ Path handler +:+ "/:id" ->
  exists getter,
    asGetter handler = Some getter
    /\ has_GetResource handler = Some (GetResource getter)
    /\ {| method := http.GET; pattern := "/" +:+ Path handler +:+ "/:id";
          handle := fun r ps => getRequest (ByName ps "id") getter |}
       ∈ routes (router s).
Proof.
  intros Hadd. rewrite (Add_routes _ _ _ _ Hadd). unfold requested. simpl.
  intros Hin Hpat.
  assert (Hlong : "/" +:+ Path handler <> "/" +:+ Path handler +:+ "/:id").
  { intros Heq. apply (append_longer ("/" +:+ Path handler) "/:id"); [done|].
    symmetry. exact Heq. }
  assert (Hgetter : exists getter, asGetter handler = Some getter).
  { repeat (apply elem_of_app in Hin as [Hin|Hin]).
    - destruct (asGetter handler); [by eauto|by apply elem_of_nil in Hin].
    - destruct (asLister handler); [|by apply elem_of_nil in Hin].
      apply list_elem_of_singleton in Hin as ->. by destruct Hlong.
    - destruct (asCreator handler); [|by apply elem_of_nil in Hin].
      apply elem_of_cons in Hin as [->|Hin]; [by destruct Hlong|].
      apply list_elem_of_singleton in Hin as ->. by destruct Hlong.
    - unfold asUpdater in Hin. destruct (asGetter handler); [by eauto|].
      by apply elem_of_nil in Hin.
    - unfold asDeleter in Hin. destruct (asGetter handler); [by eauto|].
      by apply elem_of_nil in Hin. }
  destruct Hgetter as [getter Hg]. exists getter. split; [done|]. split.
  - unfold asGetter in Hg. destruct (has_GetResource handler); [|done].
    by injection Hg as <-.
  - rewrite Hg. apply elem_of_app. left. listed.
Qed.

(** *** The answers of the five requests *)

Lemma responds_writeError e σ :
  w σ = http.newResponse ->
  responds (writeError (Some e)) σ (errorAnswer e) [] (hstate σ).
Proof.
  intros Hw. unfold responds. rewrite writeError_run. eexists. split; [done|].
  unfold errorAnswer, answer, calls.
  case_decide; simpl; rewrite Hw; simpl; rewrite ?app_nil_r; repeat split.
  rewrite List.filter_app. simpl. by rewrite app_nil_r.
Qed.

Lemma responds_writeResource status res σ :
  w σ = http.newResponse ->
  responds (writeResource status res) σ (resourceAnswer status (json_Marshal res)) []
    (hstate σ).
Proof.
  intros Hw. unfold responds, writeResource, resourceAnswer, answer, calls.
  destruct (json_Marshal res) as [out|err]; run; unfold log_Printf, emit; simpl;
    (eexists; split; [done|]); simpl; rewrite Hw; simpl; rewrite ?app_nil_r;
    repeat split.
  rewrite List.filter_app. simpl. by rewrite app_nil_r.
Qed.

Lemma responds_writeResourceList status list_ σ :
  w σ = http.newResponse ->
  responds (writeResourceList status list_) σ
    (resourceAnswer status (json_Marshal_list list_)) [] (hstate σ).
Proof.
  intros Hw. unfold responds, writeResourceList, resourceAnswer, answer, calls.
  destruct (json_Marshal_list list_) as [out|err]; run; unfold log_Printf, emit; simpl;
    (eexists; split; [done|]); simpl; rewrite Hw; simpl; rewrite ?app_nil_r;
    repeat split.
  rewrite List.filter_app. simpl. by rewrite app_nil_r.
Qed.

(** A call into the handler, then the rest of the request. *)
Lemma responds_call {A} ev (m : H A) (f : A -> M unit) σ ans cs h :
  isCall ev = true ->
  responds (f (m (hstate σ)).1)
    {| formCache := formCache σ; w := w σ; hstate := (m (hstate σ)).2;
       events := events σ ++ [ev] |} ans cs h ->
  responds (call ev m ≫= f) σ ans (ev :: cs) h.
Proof.
  intros Hev (σ' & Hrun & Hans & Hcalls & Hh & Hcache). exists σ'.
  split; [by rewrite (bind_Returned _ _ _ _ _ (call_run ev m σ))|].
  split; [done|]. split; [|done].
  rewrite Hcalls. simpl. unfold calls. rewrite List.filter_app. simpl. rewrite Hev.
  by rewrite <- app_assoc.
Qed.

(** X11.  [getRequest] on a fresh response calls [GetResource] once and
    nothing else, and answers: 200 with the encoding of the resource; 500
    without body when the resource does not encode; 404 without body when
    the handler returned the sentinel; 500 without body for any other
    error. *)
Theorem getRequest_answer (id : string) (getter : Getter) σ :
  w σ = http.newResponse ->
  responds (getRequest id getter) σ
    (match (GetResource getter id (hstate σ)).1 with
     | (res, None) => resourceAnswer 200 (json_Marshal res)
     | (_, Some e) => errorAnswer e
     end)
    [CallGetResource id]
    (GetResource getter id (hstate σ)).2.
Proof.
  intros Hw. unfold getRequest. apply responds_call; [done|].
  destruct (GetResource getter id (hstate σ)) as [[res [e|]] h1]; simpl.
  - by apply (responds_writeError e).
  - by apply (responds_writeResource 200 res).
Qed.

(** X12.  [listRequest] on a fresh response calls [ListResource] once and
    answers: 200 with the encoding of the slice; 500 without body when an
    element does not encode, so that no part of an array is ever sent; 404
    or 500 without body when the handler returned an error. *)
Theorem listRequest_answer (lister : Lister) σ :
  w σ = http.newResponse ->
  responds (listRequest lister) σ
    (match (ListResource lister (hstate σ)).1 with
     | (list_, None) => resourceAnswer 200 (json_Marshal_list list_)
     | (_, Some e) => errorAnswer e
     end)
    [CallListResource]
    (ListResource lister (hstate σ)).2.
Proof.
  intros Hw. unfold listRequest. apply responds_call; [done|].
  destruct (ListResource lister (hstate σ)) as [[list_ [e|]] h1]; simpl.
  - by apply (responds_writeError e).
  - by apply (responds_writeResourceList 200 list_).
Qed.

(** X13.  On the create routes, once [parseForm] has returned an
    instance, [CreateResource] is called once, with that instance, and the
    answer is 201 with the encoding of what it returned; an error from the
    handler is answered like any other, so that the sentinel gives 404 on
    create as well. *)
Theorem create_route_answer schema (creator : Creator) r ps σ data σ1 :
  w σ = http.newResponse ->
  parseForm r schema σ = Returned (data, None) σ1 ->
  let result := CreateResource creator data (hstate σ) in
  exists σ',
    createHandle schema creator r ps σ = Returned tt σ'
    /\ answer (w σ')
       = match result.1 with
         | (response, None) => resourceAnswer 201 (json_Marshal response)
         | (_, Some e) => errorAnswer e
         end
    /\ calls (events σ') = calls (events σ) ++ [CallCreateResource data]
    /\ hstate σ' = result.2
    /\ formCache σ' = formCache σ1.
Proof.
  intros Hw Hpf result.
  destruct (parseForm_effects _ _ _ _ _ _ Hpf) as (_ & Hw1 & Hh1 & _ & Hev).
  assert (Hcalls1 : calls (events σ1) = calls (events σ)).
  { destruct Hev as [[_ ->]|[_ ->]]; [done|].
    unfold calls. rewrite List.filter_app. simpl. by rewrite app_nil_r. }
  assert (Hresp : responds (createRequest creator data) σ1
            (match (CreateResource creator data (hstate σ1)).1 with
             | (response, None) => resourceAnswer 201 (json_Marshal response)
             | (_, Some e) => errorAnswer e
             end)
            [CallCreateResource data]
            (CreateResource creator data (hstate σ1)).2).
  { unfold createRequest. apply responds_call; [done|].
    destruct (CreateResource creator data (hstate σ1)) as [[response [e|]] h1]; simpl.
    - apply (responds_writeError e). simpl. by rewrite Hw1.
    - apply (responds_writeResource 201 response). simpl. by rewrite Hw1. }
  destruct Hresp as (σ' & Hrun & Hans & Hcalls & Hh & Hcache).
  exists σ'. unfold createHandle. rewrite (bind_Returned _ _ _ _ _ Hpf). simpl.
  unfold result. rewrite <- Hh1, <- Hcalls1. done.
Qed.

(** X14.  [updateRequest] on a fresh response: when [GetResource] returns
    an error, whichever, the error is answered (404 for the sentinel, 500
    otherwise) and [UpdateResource] is not called; otherwise
    [UpdateResource] is called once, with the fetched resource and the
    data, in the state [GetResource] left, and the answer is 200 with the
    encoding of what it returned, 500 when that does not encode, or the
    answer to its error. *)
Theorem updateRequest_answer (id : string) (updater : Updater) (data : Value) σ :
  w σ = http.newResponse ->
  let fetched := GetResource (Updater_Getter updater) id (hstate σ) in
  match fetched.1 with
  | (_, Some e) =>
      responds (updateRequest id updater data) σ (errorAnswer e)
        [CallGetResource id] fetched.2
  | (res, None) =>
      let updated := UpdateResource updater res data fetched.2 in
      responds (updateRequest id updater data) σ
        (match updated.1 with
         | (response, None) => resourceAnswer 200 (json_Marshal response)
         | (_, Some e) => errorAnswer e
         end)
        [CallGetResource id; CallUpdateResource res data]
        updated.2
  end.
Proof.
  intros Hw fetched. unfold updateRequest. subst fetched.
  destruct (GetResource (Updater_Getter updater) id (hstate σ)) as [[res [e|]] h1] eqn:Hget;
    simpl.
  - apply responds_call; [done|]. rewrite Hget. simpl. by apply (responds_writeError e).
  - apply responds_call; [done|]. rewrite Hget. simpl.
    apply responds_call; [done|]. simpl.
    destruct (UpdateResource updater res data h1) as [[response [e|]] h2]; simpl.
    + by apply (responds_writeError e).
    + by apply (responds_writeResource 200 response).
Qed.

(** X15.  [deleteRequest] on a fresh response: when [GetResource] returns
    an error, whichever, the error is answered and [DeleteResource] is not
    called; otherwise [DeleteResource] is called once, with the fetched
    resource, and the answer is 200 without body, or the answer to its
    error.  No body is written in any case. *)
Theorem deleteRequest_answer (id : string) (deleter : Deleter) σ :
  w σ = http.newResponse ->
  let fetched := GetResource (Deleter_Getter deleter) id (hstate σ) in
  match fetched.1 with
  | (_, Some e) =>
      responds (deleteRequest id deleter) σ (errorAnswer e)
        [CallGetResource id] fetched.2
  | (res, None) =>
      let deleted := DeleteResource deleter res fetched.2 in
      responds (deleteRequest id deleter) σ
        (match deleted.1 with
         | None => (200, "")
         | Some e => errorAnswer e
         end)
        [CallGetResource id; CallDeleteResource res]
        deleted.2
  end.
Proof.
  intros Hw fetched. unfold deleteRequest. subst fetched.
  destruct (GetResource (Deleter_Getter deleter) id (hstate σ)) as [[res [e|]] h1] eqn:Hget;
    simpl.
  - apply responds_call; [done|]. rewrite Hget. simpl. by apply (responds_writeError e).
  - apply responds_call; [done|]. rewrite Hget. simpl.
    apply responds_call; [done|]. simpl.
    destruct (DeleteResource deleter res h1) as [[e|] h2]; simpl.
    + by apply (responds_writeError e).
    + unfold responds, WriteHeader, answer. simpl. eexists. split; [done|].
      simpl. rewrite Hw. simpl. by rewrite app_nil_r.
Qed.

(** *** Serving keeps the cache coherent *)

Lemma keepsCache_writeError err : keepsCache (writeError err).
Proof.
  intros σ. destruct err as [e|]; [|by exists σ].
  rewrite writeError_run. eexists. split; [done|]. by case_decide.
Qed.

Lemma keepsCache_writeResource status res : keepsCache (writeResource status res).
Proof.
  intros σ. unfold writeResource.
  destruct (json_Marshal res); run; unfold log_Printf, emit; simpl; by eexists.
Qed.

Lemma keepsCache_writeResourceList status list_ :
  keepsCache (writeResourceList status list_).
Proof.
  intros σ. unfold writeResourceList.
  destruct (json_Marshal_list list_); run; unfold log_Printf, emit; simpl; by eexists.
Qed.

Lemma keepsCache_call {A} ev (m : H A) (f : A -> M unit) :
  (forall a, keepsCache (f a)) -> keepsCache (call ev m ≫= f).
Proof.
  intros Hf σ. rewrite (bind_Returned _ _ _ _ _ (call_run ev m σ)).
  destruct (Hf (m (hstate σ)).1
              {| formCache := formCache σ; w := w σ; hstate := (m (hstate σ)).2;
                 events := events σ ++ [ev] |}) as (σ' & Hrun & Hcache).
  by exists σ'.
Qed.

Lemma keepsCache_getRequest id getter : keepsCache (getRequest id getter).
Proof.
  apply keepsCache_call. intros [res [e|]];
    [apply keepsCache_writeError|apply keepsCache_writeResource].
Qed.

Lemma keepsCache_listRequest lister : keepsCache (listRequest lister).
Proof.
  apply keepsCache_call. intros [list_ [e|]];
    [apply keepsCache_writeError|apply keepsCache_writeResourceList].
Qed.

Lemma keepsCache_createRequest creator data : keepsCache (createRequest creator data).
Proof.
  apply keepsCache_call. intros [response [e|]];
    [apply keepsCache_writeError|apply keepsCache_writeResource].
Qed.

Lemma keepsCache_updateRequest id updater data :
  keepsCache (updateRequest id updater data).
Proof.
  apply keepsCache_call. intros [res [e|]]; [apply keepsCache_writeError|].
  apply keepsCache_call. intros [response [e|]];
    [apply keepsCache_writeError|apply keepsCache_writeResource].
Qed.

Lemma keepsCache_deleteRequest id deleter : keepsCache (deleteRequest id deleter).
Proof.
  apply keepsCache_call. intros [res [e|]]; [apply keepsCache_writeError|].
  apply keepsCache_call. intros [e|]; [apply keepsCache_writeError|].
  intros σ. by eexists.
Qed.

Lemma parseForm_coherent r schema σ v err σ' :
  coherent (formCache σ) ->
  parseForm r schema σ = Returned (v, err) σ' ->
  coherent (formCache σ').
Proof.
  intros Hc (fields & val0 & Hget & _)%parseForm_inv.
  apply getSchemaFields_frame in Hget
    as (_ & _ & Hin & _ & _ & [[_ ->]|(_ & Hd & _ & Hother)]); [done|].
  intros t fs Ht. destruct (decide (t = TypeOf schema)) as [->|Hne].
  - rewrite Hin in Ht. rewrite Ht in Hd. done.
  - rewrite Hother in Ht by done. by apply Hc.
Qed.

Lemma keepsCache_coherent (m : M unit) σ σ' :
  keepsCache m -> coherent (formCache σ) -> m σ = Returned tt σ' ->
  coherent (formCache σ').
Proof.
  intros Hm Hc Hrun. destruct (Hm σ) as (σ1 & Hrun1 & Hcache).
  rewrite Hrun in Hrun1. injection Hrun1 as <-. by rewrite Hcache.
Qed.

(** Every handle in the routes of a built server keeps the cache
    coherent. *)
Lemma built_handles s :
  built s ->
  NotFound (router s) = Some (fun r => WriteHeader http.StatusNotFound)
  /\ forall rt r ps σ σ',
      rt ∈ routes (router s) ->
      coherent (formCache σ) ->
      handle rt r ps σ = Returned tt σ' ->
      coherent (formCache σ').
Proof.
  induction 1 as [|s schema handler s' Hs [IHnf IH] Hadd].
  - split; [done|]. intros rt r ps σ σ' Hin. by apply elem_of_nil in Hin.
  - split; [by rewrite (Add_NotFound _ _ _ _ Hadd)|].
    intros rt r ps σ σ' Hin Hc Hrun. rewrite (Add_routes _ _ _ _ Hadd) in Hin.
    unfold requested in Hin.
    assert (Hwrite : forall fn (schema0 : Value),
      (forall data, keepsCache (fn data)) ->
      ('(data, err) ← parseForm r schema0;
       match err with
       | Some _ => writeError err
       | None => fn data
       end) σ = Returned tt σ' ->
      coherent (formCache σ')).
    { intros fn schema0 Hfn ([data err] & σ1 & Hpf & Hrest)%bind_inv.
      pose proof (parseForm_coherent _ _ _ _ _ _ Hc Hpf) as Hc1.
      destruct err as [e|].
      - by eapply (keepsCache_coherent _ _ _ (keepsCache_writeError (Some e))).
      - by eapply (keepsCache_coherent _ _ _ (Hfn data)). }
    repeat (apply elem_of_app in Hin as [Hin|Hin]).
    + by eapply IH.
    + destruct (asGetter handler) as [getter|]; [|by apply elem_of_nil in Hin].
      apply list_elem_of_singleton in Hin as ->. simpl in Hrun.
      by eapply keepsCache_coherent; [apply keepsCache_getRequest| |].
    + destruct (asLister handler) as [lister|]; [|by apply elem_of_nil in Hin].
      apply list_elem_of_singleton in Hin as ->. simpl in Hrun.
      by eapply keepsCache_coherent; [apply keepsCache_listRequest| |].
    + destruct (asCreator handler) as [creator|]; [|by apply elem_of_nil in Hin].
      assert (handle rt = createHandle schema creator) as Hh.
      { apply elem_of_cons in Hin as [->|Hin]; [done|].
        by apply list_elem_of_singleton in Hin as ->. }
      rewrite Hh in Hrun. unfold createHandle in Hrun.
      eapply (Hwrite (createRequest creator)); [|done].
      intros data. apply keepsCache_createRequest.
    + destruct (asUpdater handler) as [updater|]; [|by apply elem_of_nil in Hin].
      apply list_elem_of_singleton in Hin as ->. simpl in Hrun.
      unfold updateHandle in Hrun.
      eapply (Hwrite (updateRequest (ByName ps "id") updater)); [|done].
      intros data. apply keepsCache_updateRequest.
    + destruct (asDeleter handler) as [deleter|]; [|by apply elem_of_nil in Hin].
      apply list_elem_of_singleton in Hin as ->. simpl in Hrun.
      by eapply keepsCache_coherent; [apply keepsCache_deleteRequest| |].
Qed.

Lemma getValue_route rs m path h ps :
  getValue rs m path = Some (h, ps) -> exists rt, rt ∈ rs /\ handle rt = h.
Proof.
  induction rs as [|rt rs IH]; simpl; [done|].
  case_decide.
  - destruct (matchPath (pattern rt) path).
    + intros [= <- _]. exists rt. split; [listed|done].
    + intros (rt' & Hin & Hh)%IH. exists rt'. split; [by right|done].
  - intros (rt' & Hin & Hh)%IH. exists rt'. split; [by right|done].
Qed.

(** X16.  Serving keeps the field cache coherent: on a server made by
    [New] and any number of [Add], from a coherent cache (the empty one of
    [New] at first), whatever the request and whatever the handlers do, a
    request that returns leaves a coherent cache for the next one. *)
Theorem ServeHTTP_keeps_coherent s r σ σ' :
  built s ->
  coherent (formCache σ) ->
  ServeHTTP s r σ = Returned tt σ' ->
  coherent (formCache σ').
Proof.
  intros Hs Hc. destruct (built_handles s Hs) as [Hnf Hroutes].
  unfold ServeHTTP, Router_ServeHTTP.
  destruct (getValue _ _ _) as [[h ps]|] eqn:Hv.
  - apply getValue_route in Hv as (rt & Hin & <-). by apply Hroutes.
  - rewrite Hnf. unfold WriteHeader.
    destruct (_ && _); [by intros [= <-]|].
    destruct (allowedElsewhere _ _ _); by intros [= <-].
Qed.

Lemma parseForm_settable r schema σ :
  settable schema -> coherent (formCache σ) ->
  exists x σ', parseForm r schema σ = Returned x σ'.
Proof.
  intros Hset Hc. destruct schema as [|st fs0|]; try done. simpl in Hset.
  destruct (parseForm_struct r st fs0 σ Hc) as (σ' & _ & ->).
  destruct (decodeFields r (structFields st) (zeroStruct st)) eqn:Hdec; [by eauto..|].
  rewrite structFields_imap in Hdec. by apply decodeFields_struct_exported in Hdec.
Qed.

Lemma builtSettable_handles s :
  builtSettable s ->
  NotFound (router s) = Some (fun r => WriteHeader http.StatusNotFound)
  /\ forall rt r ps σ,
      rt ∈ routes (router s) ->
      coherent (formCache σ) ->
      exists σ', handle rt r ps σ = Returned tt σ'.
Proof.
  induction 1 as [|s schema handler s' Hs [IHnf IH] Hset Hadd].
  - split; [done|]. intros rt r ps σ Hin. by apply elem_of_nil in Hin.
  - split; [by rewrite (Add_NotFound _ _ _ _ Hadd)|].
    intros rt r ps σ Hin Hc. rewrite (Add_routes _ _ _ _ Hadd) in Hin.
    unfold requested in Hin.
    assert (Hwrite : forall fn,
      (forall data, keepsCache (fn data)) ->
      exists σ',
        ('(data, err) ← parseForm r schema;
         match err with
         | Some _ => writeError err
         | None => fn data
         end) σ = Returned tt σ').
    { intros fn Hfn.
      destruct (parseForm_settable r schema σ Hset Hc) as ([data err] & σ1 & Hpf).
      rewrite (bind_Returned _ _ _ _ _ Hpf). simpl. destruct err as [e|].
      - destruct (keepsCache_writeError (Some e) σ1) as (σ' & Hrun & _). by exists σ'.
      - destruct (Hfn data σ1) as (σ' & Hrun & _). by exists σ'. }
    repeat (apply elem_of_app in Hin as [Hin|Hin]).
    + by apply IH.
    + destruct (asGetter handler) as [getter|]; [|by apply elem_of_nil in Hin].
      apply list_elem_of_singleton in Hin as ->. simpl.
      destruct (keepsCache_getRequest (ByName ps "id") getter σ) as (σ' & Hrun & _).
      by exists σ'.
    + destruct (asLister handler) as [lister|]; [|by apply elem_of_nil in Hin].
      apply list_elem_of_singleton in Hin as ->. simpl.
      destruct (keepsCache_listRequest lister σ) as (σ' & Hrun & _). by exists σ'.
    + destruct (asCreator handler) as [creator|]; [|by apply elem_of_nil in Hin].
      assert (handle rt = createHandle schema creator) as ->.
      { apply elem_of_cons in Hin as [->|Hin]; [done|].
        by apply list_elem_of_singleton in Hin as ->. }
      apply (Hwrite (createRequest creator)). intros data.
      apply keepsCache_createRequest.
    + destruct (asUpdater handler) as [updater|]; [|by apply elem_of_nil in Hin].
      apply list_elem_of_singleton in Hin as ->. simpl.
      apply (Hwrite (updateRequest (ByName ps "id") updater)). intros data.
      apply keepsCache_updateRequest.
    + destruct (asDeleter handler) as [deleter|]; [|by apply elem_of_nil in Hin].
      apply list_elem_of_singleton in Hin as ->. simpl.
      destruct (keepsCache_deleteRequest (ByName ps "id") deleter σ) as (σ' & Hrun & _).
      by exists σ'.
Qed.

(** X17.  A server whose resources all were added with a struct schema of
    exported fields never panics: from a coherent cache every request,
    whatever its method, path and form and whatever the handlers return,
    is served to its end. *)
Theorem ServeHTTP_returns s r σ :
  builtSettable s ->
  coherent (formCache σ) ->
  exists σ', ServeHTTP s r σ = Returned tt σ'.
Proof.
  intros Hs Hc. destruct (builtSettable_handles s Hs) as [Hnf Hroutes].
  unfold ServeHTTP, Router_ServeHTTP.
  destruct (getValue _ _ _) as [[h ps]|] eqn:Hv.
  - apply getValue_route in Hv as (rt & Hin & <-). by apply Hroutes.
  - rewrite Hnf. unfold WriteHeader.
    destruct (_ && _); [by eexists|].
    destruct (allowedElsewhere _ _ _); by eexists.
Qed.


(** *** The update and delete routes *)

Lemma responds_answers (m : M unit) σ ans cs h :
  responds m σ ans cs h -> answers (m σ) σ ans cs h.
Proof. intros (σ' & Hrun & Hans & Hcalls & Hh & _). by exists σ'. Qed.

(** The answer of a request function entered in the world [σ1] that
    [parseForm] has left of [σ]. *)
Lemma answers_after_parseForm r schema σ v err σ1 (m : M unit) ans cs h :
  parseForm r schema σ = Returned (v, err) σ1 ->
  responds m σ1 ans cs h ->
  answers (m σ1) σ ans cs h.
Proof.
  intros Hpf (σ' & Hrun & Hans & Hcalls & Hh & _).
  destruct (parseForm_effects _ _ _ _ _ _ Hpf) as (_ & _ & _ & _ & Hev).
  exists σ'. split; [done|]. split; [done|]. split; [|done].
  rewrite Hcalls. f_equal.
  destruct Hev as [[_ ->]|[_ ->]]; [done|].
  unfold calls. rewrite List.filter_app. simpl. by rewrite app_nil_r.
Qed.

(** The error that [parseForm] returns is one of [strconv], not the
    sentinel. *)
Lemma parseForm_error_not_sentinel r schema σ v e σ1 :
  parseForm r schema σ = Returned (v, Some e) σ1 -> e <> ErrNotFound.
Proof.
  intros (fields & val0 & _ & _ & Hloop)%parseForm_inv.
  destruct (decodeFields r (slice_elems fields) val0) as [|e0|] eqn:Hdec;
    [by destruct Hloop| |done].
  destruct Hloop as [_ [= ->]].
  apply decodeFields_ReturnErr in Hdec as (pre & f & post & _ & _ & Hf).
  destruct Hf as [_ [(_ & k & _ & ->)|[(_ & k & _ & ->)|(_ & k & _ & ->)]]]; done.
Qed.

(** The routes of a handler on [/P/:id]. *)
Lemma id_routes schema handler rt :
  rt ∈ requested schema handler ->
  pattern rt = "/" +:+ Path handler +:+ "/:id" ->
  exists getter,
    asGetter handler = Some getter
    /\ (method rt = http.GET
        \/ (exists updater,
              asUpdater handler = Some updater
              /\ Updater_Getter updater = getter
              /\ method rt = http.POST
              /\ handle rt = updateHandle schema updater)
        \/ (exists deleter,
              asDeleter handler = Some deleter
              /\ Deleter_Getter deleter = getter
              /\ method rt = http.DELETE
              /\ handle rt = fun r ps => deleteRequest (ByName ps "id") deleter)).
Proof.
  unfold requested. intros Hin Hpat.
  assert (Hlong : "/" +:+ Path handler <> "/" +:+ Path handler +:+ "/:id").
  { intros Heq. apply (append_longer ("/" +:+ Path handler) "/:id"); [done|].
    symmetry. exact Heq. }
  repeat (apply elem_of_app in Hin as [Hin|Hin]).
  - destruct (asGetter handler) as [getter|]; [|by apply elem_of_nil in Hin].
    apply list_elem_of_singleton in Hin as ->. exists getter. split; [done|]. by left.
  - destruct (asLister handler); [|by apply elem_of_nil in Hin].
    apply list_elem_of_singleton in Hin as ->. by destruct Hlong.
  - destruct (asCreator handler); [|by apply elem_of_nil in Hin].
    apply elem_of_cons in Hin as [->|Hin]; [by destruct Hlong|].
    apply list_elem_of_singleton in Hin as ->. by destruct Hlong.
  - unfold asUpdater in Hin |- *.
    destruct (asGetter handler) as [getter|]; [|by apply elem_of_nil in Hin].
    destruct (has_UpdateResource handler) as [u|]; [|by apply elem_of_nil in Hin].
    apply list_elem_of_singleton in Hin as ->. exists getter. split; [done|].
    right. left. by eexists.
  - unfold asDeleter in Hin |- *.
    destruct (asGetter handler) as [getter|]; [|by apply elem_of_nil in Hin].
    destruct (has_DeleteResource handler) as [d|]; [|by apply elem_of_nil in Hin].
    apply list_elem_of_singleton in Hin as ->. exists getter. split; [done|].
    right. right. by eexists.
Qed.

(** C4, as the code has it.  On a server on which [Add] has returned, the
    route [DELETE /P/:id] runs [deleteRequest], which calls [GetResource]
    first.  The route [POST /P/:id] runs [parseForm] first: when that
    panics the request panics; when it returns an error the answer is 500
    with an empty body and no call is made into the handler, for a known
    and for an unknown id alike; when it returns an instance the route goes
    on as [updateRequest] with this data, which calls [GetResource] first.
    On both routes, when [GetResource] returns the sentinel the answer is
    404 with an empty body and the only call made into the handler is that
    [GetResource]; when every step succeeds, update answers 200 with the
    encoding of what [UpdateResource] returned for the fetched resource
    and the decoded data, and delete answers 200 with an empty body. *)
Theorem update_delete_fetch_first schema handler s rt r ps σ :
  Add New schema handler = Some s ->
  rt ∈ routes (router s) ->
  pattern rt = "/" +:+ Path handler +:+ "/:id" ->
  w σ = http.newResponse ->
  let id := ByName ps "id" in
  exists getter,
    asGetter handler = Some getter
    /\ (method rt = http.DELETE ->
        exists deleter,
          asDeleter handler = Some deleter
          /\ Deleter_Getter deleter = getter
          /\ handle rt r ps = deleteRequest id deleter
          /\ (forall res h1,
                GetResource getter id (hstate σ) = ((res, Some ErrNotFound), h1) ->
                answers (handle rt r ps σ) σ (404, "") [CallGetResource id] h1)
          /\ (forall res h1 h2,
                GetResource getter id (hstate σ) = ((res, None), h1) ->
                DeleteResource deleter res h1 = (None, h2) ->
                answers (handle rt r ps σ) σ (200, "")
                  [CallGetResource id; CallDeleteResource res] h2))
    /\ (method rt = http.POST ->
        exists updater,
          asUpdater handler = Some updater
          /\ Updater_Getter updater = getter
          /\ (parseForm r schema σ = Panicked -> handle rt r ps σ = Panicked)
          /\ (forall v e σ1,
                parseForm r schema σ = Returned (v, Some e) σ1 ->
                answers (handle rt r ps σ) σ (500, "") [] (hstate σ))
          /\ (forall data σ1,
                parseForm r schema σ = Returned (data, None) σ1 ->
                handle rt r ps σ = updateRequest id updater data σ1
                /\ (forall res h1,
                      GetResource getter id (hstate σ) = ((res, Some ErrNotFound), h1) ->
                      answers (handle rt r ps σ) σ (404, "") [CallGetResource id] h1)
                /\ (forall res h1 response h2 out,
                      GetResource getter id (hstate σ) = ((res, None), h1) ->
                      UpdateResource updater res data h1 = ((response, None), h2) ->
                      json_Marshal response = inl out ->
                      answers (handle rt r ps σ) σ (200, out)
                        [CallGetResource id; CallUpdateResource res data] h2))).
Proof.
  intros Hadd Hin Hpat Hw id.
  rewrite (Add_routes _ _ _ _ Hadd) in Hin. simpl in Hin.
  destruct (id_routes _ _ _ Hin Hpat) as (getter & Hg & Hcases).
  exists getter. split; [done|]. split.
  - intros Hm.
    destruct Hcases as [Hget|[(u & _ & _ & Hpost & _)|(deleter & Hd & Hdg & _ & Hh)]];
      [congruence|congruence|].
    exists deleter. split; [done|]. split; [done|]. rewrite Hh.
    split; [done|]. split.
    + intros res h1 Hget. apply responds_answers. unfold deleteRequest.
      apply responds_call; [done|]. rewrite Hdg. fold id. rewrite Hget. simpl.
      pose proof (responds_writeError ErrNotFound
                    {| formCache := formCache σ; w := w σ; hstate := h1;
                       events := events σ ++ [CallGetResource id] |} Hw) as Hresp.
      unfold errorAnswer in Hresp. by rewrite decide_True in Hresp.
    + intros res h1 h2 Hget Hdel. apply responds_answers. unfold deleteRequest.
      apply responds_call; [done|]. rewrite Hdg. fold id. rewrite Hget. simpl.
      apply responds_call; [done|]. simpl. rewrite Hdel. simpl.
      unfold responds, WriteHeader, answer. simpl. eexists. split; [done|].
      simpl. rewrite Hw. simpl. by rewrite app_nil_r.
  - intros Hm.
    destruct Hcases as [Hget|[(updater & Hu & Hug & _ & Hh)|(d & _ & _ & Hdel & _)]];
      [congruence| |congruence].
    exists updater. split; [done|]. split; [done|]. rewrite Hh. unfold updateHandle.
    split; [|split].
    + intros Hpf. unfold mbind, M_bind. by rewrite Hpf.
    + intros v e σ1 Hpf. rewrite (bind_Returned _ _ _ _ _ Hpf). simpl.
      destruct (parseForm_effects _ _ _ _ _ _ Hpf) as (_ & Hw1 & Hh1 & _).
      rewrite <- Hh1.
      apply (answers_after_parseForm _ _ _ _ _ _ (writeError (Some e)) _ _ _ Hpf).
      pose proof (responds_writeError e σ1) as Hresp.
      unfold errorAnswer in Hresp.
      rewrite decide_False in Hresp by by eapply parseForm_error_not_sentinel.
      apply Hresp. by rewrite Hw1.
    + intros data σ1 Hpf. rewrite (bind_Returned _ _ _ _ _ Hpf). simpl.
      destruct (parseForm_effects _ _ _ _ _ _ Hpf) as (_ & Hw1 & Hh1 & _).
      split; [done|]. split.
      * intros res h1 Hget.
        apply (answers_after_parseForm _ _ _ _ _ _
                 (updateRequest (ByName ps "id") updater data) _ _ _ Hpf).
        unfold updateRequest. apply responds_call; [done|].
        rewrite Hug, Hh1. fold id. rewrite Hget. simpl.
        pose proof (responds_writeError ErrNotFound
                      {| formCache := formCache σ1; w := w σ1; hstate := h1;
                         events := events σ1 ++ [CallGetResource id] |}) as Hresp.
        unfold errorAnswer in Hresp. rewrite decide_True in Hresp by done.
        apply Hresp. simpl. by rewrite Hw1.
      * intros res h1 response h2 out Hget Hupd Hout.
        apply (answers_after_parseForm _ _ _ _ _ _
                 (updateRequest (ByName ps "id") updater data) _ _ _ Hpf).
        unfold updateRequest. apply responds_call; [done|].
        rewrite Hug, Hh1. fold id. rewrite Hget. simpl.
        apply responds_call; [done|]. simpl. rewrite Hupd. simpl.
        pose proof (responds_writeResource 200 response
                      {| formCache := formCache σ1; w := w σ1; hstate := h2;
                         events := (events σ1 ++ [CallGetResource id])
                                   ++ [CallUpdateResource res data] |}) as Hresp.
        rewrite Hout in Hresp. apply Hresp. simpl. by rewrite Hw1.
Qed.
End Reason.

Arguments PBool {float64} b.
Arguments PInt {float64} n.
Arguments PUint {float64} n.
Arguments PFloat {float64} f.
Arguments PString {float64} s.
Arguments PZero {float64}.
Arguments VNil {float64}.
Arguments VStruct {float64} t fields.
Arguments VOther {float64} ft id.
Arguments Returned {float64 HSt A} a σ.
Arguments Panicked {float64 HSt A}.
Arguments formCache {float64 HSt} _ _.
Arguments w {float64 HSt} _.
Arguments hstate {float64 HSt} _.
Arguments events {float64 HSt} _.
Arguments TypeOf {float64} v.
Arguments wellTyped {float64} v.
Arguments calls {float64} evs.
Arguments CallGetResource {float64} resourceID.
Arguments CacheStore {float64} t.

(** ** The properties on the fixtures

    The fixtures have no floating-point field and their handlers keep no
    state: below, the floats are instantiated by the unit type with a
    parser that accepts nothing, the state of the handler by the unit
    type, and [json.Marshal] by the encoder of the fixtures. *)

Module Fixture.
Abbreviation float64 := unit.
Abbreviation float_zero := tt.
Abbreviation ParseFloat := (fun _ : string => @inr unit strconv.ErrKind strconv.ErrSyntax).
Abbreviation to_float32 := (fun x : unit => x).
Abbreviation HSt := unit.
Abbreviation json_Marshal := (testMarshal unit).
Abbreviation refuses := duplicate.
Abbreviation Add := (Add unit tt ParseFloat to_float32 unit json_Marshal refuses).
Abbreviation resourceServer := (resourceServer unit tt ParseFloat to_float32 unit json_Marshal).
Abbreviation testServer := (testServer unit tt ParseFloat to_float32 unit json_Marshal refuses).
Abbreviation parseForm := (parseForm unit tt ParseFloat to_float32 unit).
Abbreviation TestResource := TestResource.
Abbreviation Settings := Settings.
Abbreviation Account := Account.
Abbreviation int64 := t_int64.
Abbreviation bool_ := t_bool.
Abbreviation chan_ := t_chan.
Abbreviation mkTestResource := (mkTestResource unit).
Abbreviation settings0 := (settings0 unit).
Abbreviation account0 := (account0 unit).
Abbreviation TestResourceHandler := (TestResourceHandler unit unit).
Abbreviation NoHandler := (NoHandler unit unit).
Abbreviation lister := (testLister unit unit).
Abbreviation updater := (testUpdater unit unit).
Abbreviation deleter := (testDeleter unit unit).
Abbreviation EmptyLister := (EmptyLister unit unit).
Abbreviation unsupported := unsupported.
Abbreviation json_1 := json_1.
Abbreviation json_2 := json_2.
Abbreviation request := request.
Abbreviation world0 := (world0 unit unit tt).
Abbreviation response := (response unit unit).
Abbreviation serve := (serve unit tt ParseFloat to_float32 unit json_Marshal refuses tt).
Abbreviation after := (after unit unit world0).
End Fixture.

(** ** [strconv] on sample inputs *)

Example ParseInt_42 : strconv.ParseInt "42" = inl 42.
Proof. reflexivity. Qed.

Example ParseInt_neg : strconv.ParseInt "-9223372036854775808" = inl (- 2 ^ 63).
Proof. reflexivity. Qed.

Example ParseInt_range : strconv.ParseInt "9223372036854775808" = inr strconv.ErrRange.
Proof. reflexivity. Qed.

Example ParseInt_syntax : strconv.ParseInt "12a" = inr strconv.ErrSyntax.
Proof. reflexivity. Qed.

Example ParseUint_max : strconv.ParseUint "18446744073709551615" = inl strconv.maxUint64.
Proof. reflexivity. Qed.

Example ParseUint_over : strconv.ParseUint "18446744073709551616" = inr strconv.ErrRange.
Proof. reflexivity. Qed.

Example ParseUint_sign : strconv.ParseUint "+1" = inr strconv.ErrSyntax.
Proof. reflexivity. Qed.

(** ** The tables of the package's tests, run on the model *)

Example TestGetter_found : Fixture.serve http.GET "/test/1" [] = Some (200, Fixture.json_1).
Proof. vm_compute. reflexivity. Qed.

Example TestGetter_unknown :
  Fixture.serve http.GET "/test/3" [] = Some (404, "")
  /\ Fixture.serve http.GET "/other/1" [] = Some (404, "")
  /\ Fixture.serve http.GET "/no/1" [] = Some (404, "").
Proof. vm_compute. repeat split. Qed.

Example TestLister_list :
  Fixture.serve http.GET "/test" [] = Some (200, "[" +:+ Fixture.json_1 +:+ "," +:+ Fixture.json_2 +:+ "]")
  /\ Fixture.serve http.GET "/other" [] = Some (404, "")
  /\ Fixture.serve http.GET "/no" [] = Some (404, "").
Proof. vm_compute. repeat split. Qed.

Example TestCreator_table :
  (exists body, Fixture.serve http.POST "/test" [("name", "New Test")] = Some (201, body))
  /\ Fixture.serve http.POST "/test/" [("name", "New Test")] = Some (307, "")
  /\ Fixture.serve http.POST "/other" [] = Some (404, "")
  /\ Fixture.serve http.POST "/no" [] = Some (404, "").
Proof. vm_compute. repeat split. eexists. reflexivity. Qed.

Example TestUpdater_table :
  (exists body, Fixture.serve http.POST "/test/1" [("name", "Updated Test")] = Some (200, body))
  /\ Fixture.serve http.POST "/test/3" [("name", "Updated Test")] = Some (404, "")
  /\ Fixture.serve http.POST "/other" [] = Some (404, "")
  /\ Fixture.serve http.POST "/no" [] = Some (404, "").
Proof. vm_compute. repeat split. eexists. reflexivity. Qed.

Example TestDeleter_table :
  Fixture.serve http.DELETE "/test/1" [] = Some (200, "")
  /\ Fixture.serve http.DELETE "/test/3" [] = Some (404, "")
  /\ Fixture.serve http.DELETE "/other" [] = Some (404, "")
  /\ Fixture.serve http.DELETE "/no" [] = Some (404, "").
Proof. vm_compute. repeat split. Qed.

(** A malformed integer on the update route is answered with 500. *)
Example update_malformed_id :
  Fixture.serve http.POST "/test/1" [("id", "x")] = Some (500, "").
Proof. vm_compute. reflexivity. Qed.

(** Storing 300 into an [int8] field wraps to 44; 65536 into a [uint16]
    field wraps to 0; "yes" is not a true boolean. *)
Example decode_settings :
  Fixture.response
    (Fixture.parseForm (Fixture.request http.POST "/settings"
                       [("active", "yes"); ("Level", "300"); ("port", "65536")])
                    Fixture.settings0 Fixture.world0)
  = Some (200, "")
  /\ (exists σ,
        Fixture.parseForm (Fixture.request http.POST "/settings"
                          [("active", "1"); ("Level", "300"); ("port", "65536")])
                       Fixture.settings0 Fixture.world0
        = Returned (VStruct Fixture.Settings [PBool true; PInt 44; PUint 0], None) σ).
Proof. split; [vm_compute; reflexivity|]. eexists. vm_compute. reflexivity. Qed.

(** The wire names: the part of the [json] tag before the first comma, or
    the name of the field when it has no such tag. *)
Example Settings_wire_names :
  name <$> structFields Fixture.Settings = ["active"; "Level"; "port"]
  /\ index <$> structFields Fixture.Settings = [[0]; [1]; [2]]%nat.
Proof. split; reflexivity. Qed.

(** Two goroutines on one type, each scheduled once: both have missed and
    both are about to store.  After both have run again, both have returned
    the same list. *)
Example two_first_calls :
  (runSchedule [0; 1]%nat
     ([Reading (reflect.TStruct Fixture.TestResource);
       Reading (reflect.TStruct Fixture.TestResource)], emptyCache)).1
  = [Storing (reflect.TStruct Fixture.TestResource);
     Storing (reflect.TStruct Fixture.TestResource)]
  /\ (runSchedule [0; 1; 0; 1]%nat
        ([Reading (reflect.TStruct Fixture.TestResource);
          Reading (reflect.TStruct Fixture.TestResource)], emptyCache)).1
     = [Finished (Slice (structFields Fixture.TestResource));
        Finished (Slice (structFields Fixture.TestResource))].
Proof. split; reflexivity. Qed.

(** ** The claimed properties at the fixtures *)

Lemma Add_registers_witness :
  (exists s,
      Fixture.Add (New _ _) (Fixture.mkTestResource 0 "") Fixture.TestResourceHandler = Some s
      /\ routeKey _ _ <$> routes _ _ (router _ _ s)
         = [(http.GET, "/test/:id"); (http.GET, "/test"); (http.POST, "/test");
            (http.PUT, "/test"); (http.POST, "/test/:id"); (http.DELETE, "/test/:id")]
      /\ Fixture.Add s (Fixture.mkTestResource 0 "") Fixture.TestResourceHandler = None)
  /\ Fixture.Add (New _ _) (Fixture.mkTestResource 0 "") Fixture.NoHandler = Some (New _ _)
  /\ Fixture.response
       (ServeHTTP _ _ (New _ _) (Fixture.request http.GET "/no/1" []) Fixture.world0)
     = Some (404, "").
Proof.
  destruct (Add_registers Fixture.float64 Fixture.float_zero Fixture.ParseFloat Fixture.to_float32
              Fixture.HSt Fixture.json_Marshal Fixture.refuses
              (New _ _) (Fixture.mkTestResource 0 "") Fixture.TestResourceHandler)
    as (asked & Hkeys & _ & _ & _ & _ & _ & Hacc & _ & _).
  change (routeKey _ _ <$> asked
          = [(http.GET, "/test/:id"); (http.GET, "/test"); (http.POST, "/test");
             (http.PUT, "/test"); (http.POST, "/test/:id"); (http.DELETE, "/test/:id")])
    in Hkeys.
  split.
  - eexists. split; [apply Hacc; rewrite Hkeys; reflexivity|].
    split; [exact Hkeys|].
    destruct (Add_registers Fixture.float64 Fixture.float_zero Fixture.ParseFloat Fixture.to_float32
              Fixture.HSt Fixture.json_Marshal Fixture.refuses
                {| router := {| routes := routes _ _ (router _ _ (New _ _)) ++ asked;
                                NotFound := NotFound _ _ (router _ _ (New _ _)) |} |}
                (Fixture.mkTestResource 0 "") Fixture.TestResourceHandler)
      as (asked' & Hkeys' & _ & _ & _ & _ & _ & _ & Hrefused & _).
    apply Hrefused.
    change (routeKey _ _ <$> asked'
            = [(http.GET, "/test/:id"); (http.GET, "/test"); (http.POST, "/test");
               (http.PUT, "/test"); (http.POST, "/test/:id"); (http.DELETE, "/test/:id")])
      in Hkeys'.
    rewrite Hkeys'. simpl. rewrite Hkeys. reflexivity.
  - destruct (Add_registers Fixture.float64 Fixture.float_zero Fixture.ParseFloat Fixture.to_float32
              Fixture.HSt Fixture.json_Marshal Fixture.refuses
                (New _ _) (Fixture.mkTestResource 0 "") Fixture.NoHandler)
      as (nothing & _ & _ & _ & _ & _ & _ & _ & _ & Hnone).
    destruct (Hnone eq_refl eq_refl eq_refl eq_refl eq_refl) as (_ & _ & Hnew & _ & Hserve).
    split; [exact Hnew|]. rewrite Hserve. reflexivity.
Defined.

Lemma error_responses_witness :
  w Fixture.world0 = http.newResponse
  /\ Fixture.json_Marshal (VOther Fixture.chan_ 0) = inr Fixture.unsupported
  /\ json_Marshal_list _ Fixture.json_Marshal (Slice [VOther Fixture.chan_ 0]) = inr Fixture.unsupported
  /\ Fixture.response (writeError Fixture.float64 Fixture.HSt (Some Fixture.unsupported) Fixture.world0)
     = Some (500, "")
  /\ Fixture.response (writeResource _ Fixture.HSt Fixture.json_Marshal 200 (VOther Fixture.chan_ 0)
                      Fixture.world0)
     = Some (500, "").
Proof.
  destruct (error_responses Fixture.float64 Fixture.HSt Fixture.json_Marshal Fixture.unsupported 200
              (VOther Fixture.chan_ 0) (Slice [VOther Fixture.chan_ 0]) Fixture.world0 eq_refl)
    as ((σ1 & Hrun1 & Hbody1 & _ & _ & Hother) & Hres & _).
  destruct (Hres eq_refl) as (σ2 & Hrun2 & Hst2 & Hbody2 & _).
  assert (Hne : Fixture.unsupported <> ErrNotFound) by discriminate.
  destruct (Hother Hne) as [Hst1 _].
  split; [reflexivity|]. split; [reflexivity|]. split; [reflexivity|]. split.
  - rewrite Hrun1. simpl. by rewrite Hst1, Hbody1.
  - rewrite Hrun2. simpl. by rewrite Hst2, Hbody2.
Defined.

Lemma not_found_by_identity_witness :
  w Fixture.world0 = http.newResponse
  /\ 1%nat <> 0%nat
  /\ Fixture.response
       (writeError Fixture.float64 Fixture.HSt (Some (errors.New 1 "Resource not found"))
          Fixture.world0)
     = Some (500, "")
  /\ Fixture.response (writeError Fixture.float64 Fixture.HSt (Some ErrNotFound) Fixture.world0)
     = Some (404, "").
Proof.
  assert (H10 : 1%nat <> 0%nat) by discriminate.
  destruct (not_found_by_identity Fixture.float64 Fixture.HSt ErrNotFound 1 Fixture.world0
              eq_refl H10) as ((σ1 & Hrun1 & Hiff & _) & _ & _ & (σ2 & Hrun2 & Hst2)).
  split; [reflexivity|]. split; [exact H10|]. split.
  - rewrite Hrun2. simpl. rewrite Hst2. f_equal. f_equal.
    revert Hrun2. vm_compute. by intros [= <-].
  - rewrite Hrun1. simpl. rewrite (proj2 Hiff eq_refl). f_equal. f_equal.
    revert Hrun1. vm_compute. by intros [= <-].
Defined.

Lemma getSchemaFields_memoizes_witness :
  coherent (formCache Fixture.world0)
  /\ exists σ' new,
      getSchemaFieldsAll Fixture.float64 Fixture.HSt
        (reflect.TStruct <$> [Fixture.TestResource; Fixture.Settings; Fixture.TestResource])
        Fixture.world0
      = Returned ((fun st => Slice (structFields st))
                    <$> [Fixture.TestResource; Fixture.Settings; Fixture.TestResource]) σ'
      /\ events σ' = CacheStore <$> new
      /\ NoDup new.
Proof.
  split; [apply coherent_empty|].
  destruct (getSchemaFields_memoizes Fixture.float64 Fixture.HSt
              [Fixture.TestResource; Fixture.Settings; Fixture.TestResource] Fixture.world0
              coherent_empty) as (σ' & new & Hrun & _ & _ & _ & Hev & Hnd & _).
  exists σ', new. split; [exact Hrun|]. split; [exact Hev|exact Hnd].
Defined.

Lemma parseForm_schema_type_only_witness :
  TypeOf (Fixture.mkTestResource 7 "seven") = TypeOf (Fixture.mkTestResource 0 "")
  /\ Fixture.parseForm (Fixture.request http.POST "/test" [("name", "New Test")])
       (Fixture.mkTestResource 7 "seven") Fixture.world0
     = Fixture.parseForm (Fixture.request http.POST "/test" [("name", "New Test")])
         (Fixture.mkTestResource 0 "") Fixture.world0.
Proof.
  split; [reflexivity|].
  apply (parseForm_schema_type_only Fixture.float64 Fixture.float_zero Fixture.ParseFloat
           Fixture.to_float32 Fixture.HSt
           (Fixture.request http.POST "/test" [("name", "New Test")])
           (Fixture.mkTestResource 0 "") (Fixture.mkTestResource 7 "seven") Fixture.world0 eq_refl).
Defined.

Lemma parseForm_bool_witness :
  exists ps b,
    Fixture.parseForm (Fixture.request http.POST "/settings" [("active", "yes"); ("Level", "7")])
      Fixture.settings0 Fixture.world0
    = Returned (VStruct Fixture.Settings ps, None)
        (Fixture.after (Fixture.parseForm
                       (Fixture.request http.POST "/settings" [("active", "yes"); ("Level", "7")])
                       Fixture.settings0 Fixture.world0))
    /\ ps !! 0%nat = Some (PBool b)
    /\ b = false.
Proof.
  destruct (parseForm_bool Fixture.float64 Fixture.float_zero Fixture.ParseFloat Fixture.to_float32
              Fixture.HSt
              (Fixture.request http.POST "/settings" [("active", "yes"); ("Level", "7")])
              Fixture.settings0 Fixture.world0
              (VStruct Fixture.Settings [PBool false; PInt 7; PUint 0])
              (Fixture.after (Fixture.parseForm
                             (Fixture.request http.POST "/settings"
                                [("active", "yes"); ("Level", "7")])
                             Fixture.settings0 Fixture.world0))
              Fixture.Settings 0
              {| reflect.Name := "Active"; reflect.PkgPath := ""; reflect.Typ := Fixture.bool_;
                 reflect.Tag := [("json", "active,omitempty")] |}
              coherent_empty)
    as (ps & b & Hv & Hps & Hiff & _).
  - vm_compute. reflexivity.
  - reflexivity.
  - reflexivity.
  - reflexivity.
  - exists ps, b. split; [|split; [exact Hps|]].
    + rewrite <- Hv. vm_compute. reflexivity.
    + destruct b; [|reflexivity]. destruct Hiff as [Hiff _].
      destruct (Hiff eq_refl) as [Hyes|Hyes]; vm_compute in Hyes; discriminate Hyes.
Defined.

Lemma parseForm_total_exported_witness :
  Forall (fun d => reflect.exported d = true) (reflect.st_fields Fixture.Settings)
  /\ exists σ',
      (exists v,
          Fixture.parseForm (Fixture.request http.POST "/settings" [("Level", "300")])
            Fixture.settings0 Fixture.world0 = Returned (v, None) σ'
          /\ wellTyped v)
      \/ (exists e,
            Fixture.parseForm (Fixture.request http.POST "/settings" [("Level", "300")])
              Fixture.settings0 Fixture.world0 = Returned (VNil, Some e) σ').
Proof.
  assert (Hex : Forall (fun d => reflect.exported d = true)
                       (reflect.st_fields Fixture.Settings)).
  { repeat constructor. }
  split; [exact Hex|].
  destruct (parseForm_total_exported Fixture.float64 Fixture.float_zero Fixture.ParseFloat
              Fixture.to_float32 Fixture.HSt
              (Fixture.request http.POST "/settings" [("Level", "300")])
              Fixture.Settings [PBool false; PInt 0; PUint 0] Fixture.world0
              coherent_empty Hex)
    as (σ' & [(v & Hrun & _ & Hty & _)|(e & pre & f & post & Hrun & _)]).
  - exists σ'. left. exists v. split; [exact Hrun|exact Hty].
  - exists σ'. right. exists e. exact Hrun.
Defined.

(** C6 as stated fails: all fields of [Account] have supported kinds, and a
    form value for its unexported field makes [parseForm] panic. *)
Lemma parseForm_unexported_panics :
  Forall (fun d => supportedKind (reflect.ft_kind (reflect.Typ d)) = true)
         (reflect.st_fields Fixture.Account)
  /\ Fixture.parseForm (Fixture.request http.POST "/account" [("owner", "eve")])
       Fixture.account0 Fixture.world0
     = Panicked.
Proof. split; [repeat constructor|vm_compute; reflexivity]. Qed.

Lemma list_response_witness :
  w Fixture.world0 = http.newResponse
  /\ ListResource _ _ Fixture.lister (hstate Fixture.world0)
     = ((Slice [Fixture.mkTestResource 1 "The Test"; Fixture.mkTestResource 2 "The Other"], None), tt)
  /\ marshalElems _ Fixture.json_Marshal
       [Fixture.mkTestResource 1 "The Test"; Fixture.mkTestResource 2 "The Other"]
     = inl [Fixture.json_1; Fixture.json_2]
  /\ Fixture.response (listRequest _ _ Fixture.json_Marshal Fixture.lister Fixture.world0)
     = Some (200, "[" +:+ Fixture.json_1 +:+ "," +:+ Fixture.json_2 +:+ "]")
  /\ Fixture.response (listRequest _ _ Fixture.json_Marshal Fixture.EmptyLister Fixture.world0)
     = Some (200, "null").
Proof.
  destruct (list_response Fixture.float64 Fixture.HSt Fixture.json_Marshal Fixture.lister
              [Fixture.mkTestResource 1 "The Test"; Fixture.mkTestResource 2 "The Other"]
              [Fixture.json_1; Fixture.json_2] tt Fixture.world0 eq_refl) as [Hlist _].
  destruct (Hlist eq_refl eq_refl) as (σ1 & Hrun1 & Hst1 & Hbody1 & _).
  destruct (list_response Fixture.float64 Fixture.HSt Fixture.json_Marshal Fixture.EmptyLister
              [] [] tt Fixture.world0 eq_refl) as [_ Hnil].
  destruct (Hnil eq_refl) as (σ2 & Hrun2 & Hst2 & Hbody2).
  split; [reflexivity|]. split; [reflexivity|]. split; [reflexivity|]. split.
  - rewrite Hrun1. simpl. by rewrite Hst1, Hbody1.
  - rewrite Hrun2. simpl. by rewrite Hst2, Hbody2.
Defined.

(** C7 as stated fails: a handler that reports an empty list by returning
    the nil slice gets the body [null], not the empty array. *)
Lemma list_nil_slice_is_null :
  (ListResource _ _ Fixture.EmptyLister tt).1.2 = None
  /\ slice_len (ListResource _ _ Fixture.EmptyLister tt).1.1 = 0%nat
  /\ Fixture.response (listRequest _ _ Fixture.json_Marshal Fixture.EmptyLister Fixture.world0)
     = Some (200, "null")
  /\ "null" <> "[]".
Proof. repeat split. discriminate. Qed.

Lemma update_delete_fetch_first_witness :
  answers _ _
    (updateHandle Fixture.float64 Fixture.float_zero Fixture.ParseFloat Fixture.to_float32
         Fixture.HSt Fixture.json_Marshal (Fixture.mkTestResource 0 "") Fixture.updater
       (Fixture.request http.POST "/test/3" [("name", "Updated Test")]) [("id", "3")]
       Fixture.world0)
    Fixture.world0 (404, "") [CallGetResource "3"] tt
  /\ answers _ _
       (updateHandle Fixture.float64 Fixture.float_zero Fixture.ParseFloat Fixture.to_float32
         Fixture.HSt Fixture.json_Marshal (Fixture.mkTestResource 0 "") Fixture.updater
          (Fixture.request http.POST "/test/1" [("name", "Updated Test")]) [("id", "1")]
          Fixture.world0)
       Fixture.world0
       (resourceAnswer 200 (Fixture.json_Marshal (Fixture.mkTestResource 1 "Updated Test")))
       [CallGetResource "1";
        CallUpdateResource _ (Fixture.mkTestResource 1 "The Test")
          (Fixture.mkTestResource 0 "Updated Test")]
       tt
  /\ answers _ _
       (updateHandle Fixture.float64 Fixture.float_zero Fixture.ParseFloat Fixture.to_float32
         Fixture.HSt Fixture.json_Marshal (Fixture.mkTestResource 0 "") Fixture.updater
          (Fixture.request http.POST "/test/3" [("id", "x")]) [("id", "3")] Fixture.world0)
       Fixture.world0 (500, "") [] tt
  /\ answers _ _ (deleteRequest _ _ "3" Fixture.deleter Fixture.world0)
       Fixture.world0 (404, "") [CallGetResource "3"] tt
  /\ answers _ _ (deleteRequest _ _ "1" Fixture.deleter Fixture.world0)
       Fixture.world0 (200, "")
       [CallGetResource "1"; CallDeleteResource _ (Fixture.mkTestResource 1 "The Test")] tt.
Proof.
  assert (Hadd : Fixture.Add (New _ _) (Fixture.mkTestResource 0 "") Fixture.TestResourceHandler
                 = Some Fixture.resourceServer) by reflexivity.
  assert (Hupdate : forall r ps,
    exists updater,
      asUpdater _ _ Fixture.TestResourceHandler = Some updater
      /\ (forall v e σ1,
            Fixture.parseForm r (Fixture.mkTestResource 0 "") Fixture.world0
            = Returned (v, Some e) σ1 ->
            answers _ _
              (updateHandle Fixture.float64 Fixture.float_zero Fixture.ParseFloat Fixture.to_float32
         Fixture.HSt Fixture.json_Marshal (Fixture.mkTestResource 0 "") Fixture.updater r ps Fixture.world0)
              Fixture.world0 (500, "") [] tt)
      /\ (forall data σ1,
            Fixture.parseForm r (Fixture.mkTestResource 0 "") Fixture.world0
            = Returned (data, None) σ1 ->
            (forall res h1,
                GetResource _ _ (testGetter Fixture.float64 Fixture.HSt) (ByName ps "id") tt
                = ((res, Some ErrNotFound), h1) ->
                answers _ _
                  (updateHandle Fixture.float64 Fixture.float_zero Fixture.ParseFloat Fixture.to_float32
         Fixture.HSt Fixture.json_Marshal (Fixture.mkTestResource 0 "") Fixture.updater r ps Fixture.world0)
                  Fixture.world0 (404, "") [CallGetResource (ByName ps "id")] h1)
            /\ (forall res h1 response h2 out,
                  GetResource _ _ (testGetter Fixture.float64 Fixture.HSt) (ByName ps "id") tt = ((res, None), h1) ->
                  UpdateResource _ _ updater res data h1 = ((response, None), h2) ->
                  Fixture.json_Marshal response = inl out ->
                  answers _ _
                    (updateHandle Fixture.float64 Fixture.float_zero Fixture.ParseFloat Fixture.to_float32
         Fixture.HSt Fixture.json_Marshal (Fixture.mkTestResource 0 "") Fixture.updater r ps Fixture.world0)
                    Fixture.world0 (200, out)
                    [CallGetResource (ByName ps "id"); CallUpdateResource _ res data] h2))).
  { intros r ps.
    destruct (update_delete_fetch_first Fixture.float64 Fixture.float_zero Fixture.ParseFloat Fixture.to_float32
              Fixture.HSt Fixture.json_Marshal Fixture.refuses
                (Fixture.mkTestResource 0 "") Fixture.TestResourceHandler Fixture.resourceServer
                {| method := http.POST; pattern := "/test/:id";
                   handle := updateHandle Fixture.float64 Fixture.float_zero Fixture.ParseFloat Fixture.to_float32
         Fixture.HSt Fixture.json_Marshal (Fixture.mkTestResource 0 "") Fixture.updater |}
                r ps Fixture.world0 Hadd)
      as (getter & [= <-] & _ & Hpost).
    - do 4 apply list_elem_of_further. apply list_elem_of_here.
    - reflexivity.
    - reflexivity.
    - destruct (Hpost eq_refl) as (updater & Hu & _ & _ & Herr & Hok).
      exists updater. split; [exact Hu|]. split; [exact Herr|].
      intros data σ1 Hpf. destruct (Hok data σ1 Hpf) as (_ & Hnf & Hfound). by split. }
  assert (Hdelete : forall ps,
    (forall res h1,
        GetResource _ _ (testGetter Fixture.float64 Fixture.HSt) (ByName ps "id") tt = ((res, Some ErrNotFound), h1) ->
        answers _ _ (deleteRequest _ _ (ByName ps "id") Fixture.deleter Fixture.world0)
          Fixture.world0 (404, "") [CallGetResource (ByName ps "id")] h1)
    /\ (forall res h1 h2,
          GetResource _ _ (testGetter Fixture.float64 Fixture.HSt) (ByName ps "id") tt = ((res, None), h1) ->
          DeleteResource _ _ Fixture.deleter res h1 = (None, h2) ->
          answers _ _ (deleteRequest _ _ (ByName ps "id") Fixture.deleter Fixture.world0)
            Fixture.world0 (200, "")
            [CallGetResource (ByName ps "id"); CallDeleteResource _ res] h2)).
  { intros ps.
    destruct (update_delete_fetch_first Fixture.float64 Fixture.float_zero Fixture.ParseFloat Fixture.to_float32
              Fixture.HSt Fixture.json_Marshal Fixture.refuses
                (Fixture.mkTestResource 0 "") Fixture.TestResourceHandler Fixture.resourceServer
                {| method := http.DELETE; pattern := "/test/:id";
                   handle := fun r ps =>
                               deleteRequest Fixture.float64 Fixture.HSt
                                 (ByName ps "id") Fixture.deleter |}
                (Fixture.request http.DELETE "/test" []) ps Fixture.world0 Hadd)
      as (getter & [= <-] & Hdel & _).
    - do 5 apply list_elem_of_further. apply list_elem_of_here.
    - reflexivity.
    - reflexivity.
    - destruct (Hdel eq_refl) as (deleter & [= <-] & _ & _ & Hnf & Hfound). by split. }
  split; [|split; [|split; [|split]]].
  - destruct (Hupdate (Fixture.request http.POST "/test/3" [("name", "Updated Test")])
                [("id", "3")]) as (updater & _ & _ & Hok).
    eapply Hok; [vm_compute|]; reflexivity.
  - destruct (Hupdate (Fixture.request http.POST "/test/1" [("name", "Updated Test")])
                [("id", "1")]) as (updater & [= <-] & _ & Hok).
    eapply Hok; [vm_compute|..]; reflexivity.
  - destruct (Hupdate (Fixture.request http.POST "/test/3" [("id", "x")])
                [("id", "3")]) as (updater & _ & Herr & _).
    eapply Herr. vm_compute. reflexivity.
  - destruct (Hdelete [("id", "3")]) as [Hnf _]. eapply Hnf. reflexivity.
  - destruct (Hdelete [("id", "1")]) as [_ Hfound]. eapply Hfound; reflexivity.
Defined.

(** C4 as stated fails: on the update route of the fixtures the id 3 is
    unknown, and [GetResource] would return the sentinel for it, but a
    form that does not decode is answered with 500 and [GetResource] is
    not called. *)
Lemma update_route_decodes_first :
  Fixture.Add (New _ _) (Fixture.mkTestResource 0 "") Fixture.TestResourceHandler
  = Some Fixture.resourceServer
  /\ {| method := http.POST; pattern := "/test/:id";
        handle := updateHandle Fixture.float64 Fixture.float_zero Fixture.ParseFloat Fixture.to_float32
         Fixture.HSt Fixture.json_Marshal (Fixture.mkTestResource 0 "") Fixture.updater |}
     ∈ routes _ _ (router _ _ Fixture.resourceServer)
  /\ GetResource _ _ (testGetter Fixture.float64 Fixture.HSt) "3" tt
     = ((VNil, Some ErrNotFound), tt)
  /\ Fixture.response
       (updateHandle Fixture.float64 Fixture.float_zero Fixture.ParseFloat Fixture.to_float32
         Fixture.HSt Fixture.json_Marshal (Fixture.mkTestResource 0 "") Fixture.updater
          (Fixture.request http.POST "/test/3" [("id", "x")]) [("id", "3")] Fixture.world0)
     = Some (500, "")
  /\ calls (events
              (Fixture.after
                 (updateHandle Fixture.float64 Fixture.float_zero Fixture.ParseFloat Fixture.to_float32
         Fixture.HSt Fixture.json_Marshal (Fixture.mkTestResource 0 "") Fixture.updater
                    (Fixture.request http.POST "/test/3" [("id", "x")]) [("id", "3")]
                    Fixture.world0)))
     = []
  /\ Fixture.serve http.POST "/test/3" [("id", "x")] = Some (500, "").
Proof.
  split; [reflexivity|]. split.
  { do 4 apply list_elem_of_further. apply list_elem_of_here. }
  repeat split; vm_compute; reflexivity.
Qed.

Lemma decode_error_500_witness :
  exists σ2,
    updateHandle Fixture.float64 Fixture.float_zero Fixture.ParseFloat Fixture.to_float32 Fixture.HSt
      Fixture.json_Marshal (Fixture.mkTestResource 0 "") Fixture.updater
      (Fixture.request http.POST "/test/1" [("id", "x")]) [("id", "1")] Fixture.world0
    = Returned tt σ2
    /\ w σ2 = http.WriteHeader 500 http.newResponse
    /\ calls (events σ2) = [].
Proof.
  destruct (decode_error_500 Fixture.float64 Fixture.float_zero Fixture.ParseFloat Fixture.to_float32
              Fixture.HSt Fixture.json_Marshal Fixture.refuses
              (Fixture.mkTestResource 0 "") Fixture.TestResourceHandler Fixture.resourceServer
              {| method := http.POST; pattern := "/test/:id";
                 handle := updateHandle Fixture.float64 Fixture.float_zero Fixture.ParseFloat
                             Fixture.to_float32 Fixture.HSt Fixture.json_Marshal
                             (Fixture.mkTestResource 0 "") Fixture.updater |}
              (Fixture.request http.POST "/test/1" [("id", "x")]) [("id", "1")] Fixture.world0
              VNil (NumError "ParseInt" "x" strconv.ErrSyntax)
              (Fixture.after (Fixture.parseForm (Fixture.request http.POST "/test/1" [("id", "x")])
                             (Fixture.mkTestResource 0 "") Fixture.world0))
              coherent_empty)
    as (_ & _ & _ & σ2 & Hrun & Hw & _ & _ & Hcalls & _).
  - reflexivity.
  - do 4 apply list_elem_of_further. apply list_elem_of_here.
  - left. reflexivity.
  - vm_compute. reflexivity.
  - exists σ2. split; [exact Hrun|]. split; [exact Hw|exact Hcalls].
Defined.

(** ** The further properties on the fixtures *)

Lemma parseForm_decodes_witness :
  exists ps : list (Payload Fixture.float64),
    VStruct Fixture.Settings [PBool true; PInt 7; PUint 0] = VStruct Fixture.Settings ps
    /\ length ps = 3%nat
    /\ ps !! 2%nat = Some (PUint 0).
Proof.
  destruct (parseForm_decodes Fixture.float64 Fixture.float_zero Fixture.ParseFloat
              Fixture.to_float32 Fixture.HSt
              (Fixture.request http.POST "/settings" [("active", "1"); ("Level", "7")])
              Fixture.settings0 Fixture.world0
              (VStruct Fixture.Settings [PBool true; PInt 7; PUint 0])
              (Fixture.after (Fixture.parseForm
                             (Fixture.request http.POST "/settings"
                                [("active", "1"); ("Level", "7")])
                             Fixture.settings0 Fixture.world0))
              Fixture.Settings coherent_empty)
    as (ps & Hv & Hlen & Hall).
  - vm_compute. reflexivity.
  - reflexivity.
  - exists ps. split; [exact Hv|]. split; [exact Hlen|].
    destruct (Hall 2%nat _ eq_refl) as (p & Hp & Hd).
    vm_compute in Hd. rewrite Hp, Hd. reflexivity.
Defined.

Lemma parseForm_integer_field_witness :
  exists (ps : list (Payload Fixture.float64)) n m,
    VStruct Fixture.Settings [PBool false; PInt 44; PUint 0] = VStruct Fixture.Settings ps
    /\ strconv.ParseInt "300" = inl n
    /\ ps !! 1%nat = Some (PInt m)
    /\ m = wrap_signed 8 n
    /\ -128 <= m < 128.
Proof.
  destruct (parseForm_integer_field Fixture.float64 Fixture.float_zero Fixture.ParseFloat
              Fixture.to_float32 Fixture.HSt
              (Fixture.request http.POST "/settings" [("Level", "300")])
              Fixture.settings0 Fixture.world0
              (VStruct Fixture.Settings [PBool false; PInt 44; PUint 0])
              (Fixture.after (Fixture.parseForm
                             (Fixture.request http.POST "/settings" [("Level", "300")])
                             Fixture.settings0 Fixture.world0))
              Fixture.Settings 1%nat
              {| reflect.Name := "Level"; reflect.PkgPath := ""; reflect.Typ := t_int8;
                 reflect.Tag := [] |}
              coherent_empty)
    as (ps & Hv & Hsigned & _).
  - vm_compute. reflexivity.
  - reflexivity.
  - reflexivity.
  - vm_compute. discriminate.
  - destruct Hsigned as (n & m & Hn & Hps & Hm & Hrange & _).
    { apply list_elem_of_further, list_elem_of_here. }
    exists ps, n, m. split; [exact Hv|]. split; [exact Hn|]. split; [exact Hps|].
    split; [exact Hm|exact Hrange].
Defined.

Lemma parseForm_no_values_witness :
  exists σ',
    Fixture.parseForm (Fixture.request http.POST "/account" [("name", "eve")])
      Fixture.account0 Fixture.world0
    = Returned (VStruct Fixture.Account [PInt 0; PString ""], None) σ'.
Proof.
  apply (parseForm_no_values Fixture.float64 Fixture.float_zero Fixture.ParseFloat
           Fixture.to_float32 Fixture.HSt
           (Fixture.request http.POST "/account" [("name", "eve")])
           Fixture.Account [PInt 0; PString ""] Fixture.world0 coherent_empty).
  intros d Hd.
  apply elem_of_cons in Hd as [->|Hd]; [reflexivity|].
  apply elem_of_cons in Hd as [->|Hd]; [reflexivity|].
  by apply elem_of_nil in Hd.
Defined.

Lemma getSchemaFields_outcome_witness :
  getSchemaFields Fixture.float64 Fixture.HSt reflect.TNil Fixture.world0 = Panicked
  /\ formCache (Fixture.after
                  (getSchemaFields Fixture.float64 Fixture.HSt
                     (reflect.TStruct Fixture.TestResource) Fixture.world0))
       (reflect.TStruct Fixture.TestResource)
     <> nilSlice.
Proof.
  split.
  - apply (getSchemaFields_outcome Fixture.float64 Fixture.HSt reflect.TNil Fixture.world0).
    split; [reflexivity|]. intros st. discriminate.
  - destruct (getSchemaFields_outcome Fixture.float64 Fixture.HSt
                (reflect.TStruct Fixture.TestResource) Fixture.world0) as [Hret _].
    destruct (getSchemaFields Fixture.float64 Fixture.HSt
                (reflect.TStruct Fixture.TestResource) Fixture.world0)
      as [[fields err] σ'|] eqn:Hrun; [|vm_compute in Hrun; discriminate Hrun].
    destruct (Hret fields err σ' eq_refl) as (_ & Hne & Hcache).
    simpl. rewrite Hcache. exact Hne.
Defined.

Lemma parseForm_frame_witness :
  let σ' := Fixture.after (Fixture.parseForm
                             (Fixture.request http.POST "/test" [("id", "7"); ("name", "x")])
                             (Fixture.mkTestResource 0 "") Fixture.world0) in
  w σ' = http.newResponse
  /\ hstate σ' = tt
  /\ formCache σ' (reflect.TStruct Fixture.Settings) = nilSlice
  /\ events σ' = [CacheStore (reflect.TStruct Fixture.TestResource)].
Proof.
  intros σ'.
  destruct (parseForm_frame Fixture.float64 Fixture.float_zero Fixture.ParseFloat
              Fixture.to_float32 Fixture.HSt
              (Fixture.request http.POST "/test" [("id", "7"); ("name", "x")])
              (Fixture.mkTestResource 0 "") Fixture.world0
              (Fixture.mkTestResource 7 "x") None σ')
    as (_ & Hw & Hh & Hother & Hstore).
  - vm_compute. reflexivity.
  - split; [exact Hw|]. split; [exact Hh|]. split.
    + rewrite Hother; [reflexivity|]. discriminate.
    + destruct Hstore as [[Hsame _]|[_ Hev]]; [|exact Hev].
      apply (f_equal (fun c => c (reflect.TStruct Fixture.TestResource))) in Hsame.
      vm_compute in Hsame. discriminate Hsame.
Defined.

Lemma non_struct_schema_panics_witness :
  Fixture.parseForm (Fixture.request http.POST "/test" [("name", "x")]) VNil Fixture.world0
  = Panicked
  /\ createHandle Fixture.float64 Fixture.float_zero Fixture.ParseFloat Fixture.to_float32
       Fixture.HSt Fixture.json_Marshal VNil
       {| CreateResource := test_CreateResource Fixture.float64 Fixture.HSt |}
       (Fixture.request http.POST "/test" [("name", "x")]) [] Fixture.world0
     = Panicked
  /\ updateHandle Fixture.float64 Fixture.float_zero Fixture.ParseFloat Fixture.to_float32
       Fixture.HSt Fixture.json_Marshal VNil Fixture.updater
       (Fixture.request http.POST "/test" [("name", "x")]) [] Fixture.world0
     = Panicked.
Proof.
  apply (non_struct_schema_panics Fixture.float64 Fixture.float_zero Fixture.ParseFloat
           Fixture.to_float32 Fixture.HSt Fixture.json_Marshal
           (Fixture.request http.POST "/test" [("name", "x")]) [] VNil
           {| CreateResource := test_CreateResource Fixture.float64 Fixture.HSt |}
           Fixture.updater Fixture.world0 coherent_empty).
  intros st. discriminate.
Defined.

Lemma parseForm_again_witness :
  let r := Fixture.request http.POST "/test" [("id", "x")] in
  let σ1 := Fixture.after (Fixture.parseForm r (Fixture.mkTestResource 0 "") Fixture.world0) in
  Fixture.parseForm r (Fixture.mkTestResource 0 "") σ1
  = Returned (VNil, Some (NumError "ParseInt" "x" strconv.ErrSyntax)) σ1.
Proof.
  intros r σ1.
  apply (parseForm_again Fixture.float64 Fixture.float_zero Fixture.ParseFloat
           Fixture.to_float32 Fixture.HSt r (Fixture.mkTestResource 0 "") Fixture.world0
           VNil (Some (NumError "ParseInt" "x" strconv.ErrSyntax)) σ1 coherent_empty).
  vm_compute. reflexivity.
Defined.

Lemma getSchemaFields_descriptors_witness :
  exists fields σ',
    getSchemaFields Fixture.float64 Fixture.HSt (reflect.TStruct Fixture.Account)
      Fixture.world0
    = Returned (Slice fields, None) σ'
    /\ length fields = 2%nat
    /\ exists f,
         fields !! 1%nat = Some f
         /\ name f = "owner"
         /\ FieldByIndex_Set Fixture.float64 Fixture.account0 (index f) (fun _ => Some (PString "eve")) = None.
Proof.
  destruct (getSchemaFields_descriptors Fixture.float64 Fixture.HSt Fixture.Account
              Fixture.world0 coherent_empty)
    as (fields & σ' & Hrun & Hlen & Hall).
  exists fields, σ'. split; [exact Hrun|]. split; [exact Hlen|].
  destruct (Hall 1%nat _ eq_refl) as (f & Hf & _ & _ & Hname & Hset).
  exists f. split; [exact Hf|]. split; [exact Hname|].
  exact (Hset [PInt 0; PString ""] (PString "eve")).
Defined.

Lemma wireName_cases_witness :
  wireName {| reflect.Name := "Active"; reflect.PkgPath := ""; reflect.Typ := Fixture.bool_;
              reflect.Tag := [("json", "active,omitempty")] |}
  = "active".
Proof.
  apply (wireName_cases
           {| reflect.Name := "Active"; reflect.PkgPath := ""; reflect.Typ := Fixture.bool_;
              reflect.Tag := [("json", "active,omitempty")] |})
    with (rest := "omitempty"); reflexivity.
Defined.

Lemma id_routes_need_Getter_witness :
  exists getter,
    asGetter Fixture.float64 Fixture.HSt Fixture.TestResourceHandler = Some getter
    /\ {| method := http.GET; pattern := "/test/:id";
          handle := fun r ps =>
                      getRequest Fixture.float64 Fixture.HSt Fixture.json_Marshal
                        (ByName ps "id") getter |}
       ∈ routes _ _ (router _ _ Fixture.resourceServer).
Proof.
  destruct (id_routes_need_Getter Fixture.float64 Fixture.float_zero Fixture.ParseFloat
              Fixture.to_float32 Fixture.HSt Fixture.json_Marshal Fixture.refuses
              (Fixture.mkTestResource 0 "") Fixture.TestResourceHandler Fixture.resourceServer
              {| method := http.DELETE; pattern := "/test/:id";
                 handle := fun r ps =>
                             deleteRequest Fixture.float64 Fixture.HSt
                               (ByName ps "id") Fixture.deleter |})
    as (getter & Hget & _ & Hroute).
  - reflexivity.
  - do 5 apply list_elem_of_further. apply list_elem_of_here.
  - reflexivity.
  - exists getter. split; [exact Hget|exact Hroute].
Defined.

Lemma getRequest_answer_witness :
  responds Fixture.float64 Fixture.HSt
    (getRequest Fixture.float64 Fixture.HSt Fixture.json_Marshal "1"
       (testGetter Fixture.float64 Fixture.HSt))
    Fixture.world0 (200, Fixture.json_1) [CallGetResource "1"] tt
  /\ responds Fixture.float64 Fixture.HSt
       (getRequest Fixture.float64 Fixture.HSt Fixture.json_Marshal "3"
          (testGetter Fixture.float64 Fixture.HSt))
       Fixture.world0 (404, "") [CallGetResource "3"] tt.
Proof.
  split.
  - exact (getRequest_answer Fixture.float64 Fixture.HSt Fixture.json_Marshal "1"
             (testGetter Fixture.float64 Fixture.HSt) Fixture.world0 eq_refl).
  - exact (getRequest_answer Fixture.float64 Fixture.HSt Fixture.json_Marshal "3"
             (testGetter Fixture.float64 Fixture.HSt) Fixture.world0 eq_refl).
Defined.

Lemma listRequest_answer_witness :
  responds Fixture.float64 Fixture.HSt
    (listRequest Fixture.float64 Fixture.HSt Fixture.json_Marshal Fixture.lister)
    Fixture.world0 (200, "[" +:+ Fixture.json_1 +:+ "," +:+ Fixture.json_2 +:+ "]")
    [CallListResource _] tt.
Proof.
  exact (listRequest_answer Fixture.float64 Fixture.HSt Fixture.json_Marshal Fixture.lister
           Fixture.world0 eq_refl).
Defined.

Lemma create_route_answer_witness :
  exists σ',
    createHandle Fixture.float64 Fixture.float_zero Fixture.ParseFloat Fixture.to_float32
      Fixture.HSt Fixture.json_Marshal (Fixture.mkTestResource 0 "")
      {| CreateResource := test_CreateResource Fixture.float64 Fixture.HSt |}
      (Fixture.request http.POST "/test" [("name", "New")]) [] Fixture.world0
    = Returned tt σ'
    /\ answer (w σ') = resourceAnswer 201 (Fixture.json_Marshal (Fixture.mkTestResource 3 "New"))
    /\ calls (events σ') = [CallCreateResource _ (Fixture.mkTestResource 0 "New")].
Proof.
  destruct (create_route_answer Fixture.float64 Fixture.float_zero Fixture.ParseFloat
              Fixture.to_float32 Fixture.HSt Fixture.json_Marshal
              (Fixture.mkTestResource 0 "")
              {| CreateResource := test_CreateResource Fixture.float64 Fixture.HSt |}
              (Fixture.request http.POST "/test" [("name", "New")]) [] Fixture.world0
              (Fixture.mkTestResource 0 "New")
              (Fixture.after (Fixture.parseForm
                                (Fixture.request http.POST "/test" [("name", "New")])
                                (Fixture.mkTestResource 0 "") Fixture.world0))
              eq_refl)
    as (σ' & Hrun & Hans & Hcalls & _).
  - vm_compute. reflexivity.
  - exists σ'. split; [exact Hrun|]. split; [exact Hans|exact Hcalls].
Defined.

Lemma updateRequest_answer_witness :
  responds Fixture.float64 Fixture.HSt
    (updateRequest Fixture.float64 Fixture.HSt Fixture.json_Marshal "3" Fixture.updater
       (Fixture.mkTestResource 0 "Updated Test"))
    Fixture.world0 (404, "") [CallGetResource "3"] tt
  /\ responds Fixture.float64 Fixture.HSt
       (updateRequest Fixture.float64 Fixture.HSt Fixture.json_Marshal "1" Fixture.updater
          (Fixture.mkTestResource 0 "Updated Test"))
       Fixture.world0
       (resourceAnswer 200 (Fixture.json_Marshal (Fixture.mkTestResource 1 "Updated Test")))
       [CallGetResource "1";
        CallUpdateResource _ (Fixture.mkTestResource 1 "The Test")
          (Fixture.mkTestResource 0 "Updated Test")]
       tt.
Proof.
  split.
  - exact (updateRequest_answer Fixture.float64 Fixture.HSt Fixture.json_Marshal "3"
             Fixture.updater (Fixture.mkTestResource 0 "Updated Test") Fixture.world0 eq_refl).
  - exact (updateRequest_answer Fixture.float64 Fixture.HSt Fixture.json_Marshal "1"
             Fixture.updater (Fixture.mkTestResource 0 "Updated Test") Fixture.world0 eq_refl).
Defined.

Lemma deleteRequest_answer_witness :
  responds Fixture.float64 Fixture.HSt
    (deleteRequest Fixture.float64 Fixture.HSt "1" Fixture.deleter)
    Fixture.world0 (200, "")
    [CallGetResource "1"; CallDeleteResource _ (Fixture.mkTestResource 1 "The Test")] tt
  /\ responds Fixture.float64 Fixture.HSt
       (deleteRequest Fixture.float64 Fixture.HSt "3" Fixture.deleter)
       Fixture.world0 (404, "") [CallGetResource "3"] tt.
Proof.
  split.
  - exact (deleteRequest_answer Fixture.float64 Fixture.HSt "1" Fixture.deleter
             Fixture.world0 eq_refl).
  - exact (deleteRequest_answer Fixture.float64 Fixture.HSt "3" Fixture.deleter
             Fixture.world0 eq_refl).
Defined.

Lemma ServeHTTP_keeps_coherent_witness :
  coherent
    (formCache
       (Fixture.after
          (ServeHTTP Fixture.float64 Fixture.HSt Fixture.resourceServer
             (Fixture.request http.POST "/test/1" [("name", "Updated Test")])
             Fixture.world0))).
Proof.
  apply (ServeHTTP_keeps_coherent Fixture.float64 Fixture.float_zero Fixture.ParseFloat
           Fixture.to_float32 Fixture.HSt Fixture.json_Marshal Fixture.refuses
           Fixture.resourceServer
           (Fixture.request http.POST "/test/1" [("name", "Updated Test")])
           Fixture.world0).
  - apply (built_Add _ _ _ _ _ _ _ (New _ _) (Fixture.mkTestResource 0 "")
             Fixture.TestResourceHandler); [apply built_New|reflexivity].
  - apply coherent_empty.
  - vm_compute. reflexivity.
Defined.

Lemma ServeHTTP_returns_witness :
  exists σ',
    ServeHTTP Fixture.float64 Fixture.HSt Fixture.resourceServer
      (Fixture.request http.PUT "/test" [("id", "x")])
      Fixture.world0
    = Returned tt σ'.
Proof.
  apply (ServeHTTP_returns Fixture.float64 Fixture.float_zero Fixture.ParseFloat
           Fixture.to_float32 Fixture.HSt Fixture.json_Marshal Fixture.refuses).
  - apply (builtSettable_Add _ _ _ _ _ _ _ (New _ _) (Fixture.mkTestResource 0 "")
             Fixture.TestResourceHandler);
      [apply builtSettable_New|repeat constructor|reflexivity].
  - apply coherent_empty.
Defined.
